(** * The calculator's expression evaluator

    A shallow embedding of [evaluateExpression] from
    [src/pages/misc/Calculator.tsx]: the tokenizer (the regular expression
    [tokenRe]), the pass that replaces constants and lowercases names, the
    shunting-yard loop that builds the postfix [output] from the [ops]
    stack, and the loop that evaluates the postfix form on [stack].

    Strings are byte strings holding the UTF-8 form of the JavaScript string;
    the only non-ASCII character the code looks at is the letter pi
    (U+03C0, bytes 207 128).  Numbers are IEEE-754 binary64 values, taken
    from [SpecFloat] with [prec = 53] and [emax = 1024]. *)

From Stdlib Require Import ZArith List String Ascii Bool Lia.
From Stdlib Require Import Floats.SpecFloat.
Import ListNotations.

Local Open Scope string_scope.
Local Open Scope Z_scope.

(** ** Host numbers *)

Module JS.

Definition prec : Z := 53.
Definition emax : Z := 1024.

Definition number : Type := spec_float.

Definition NaN : number := S754_nan.
Definition Infinity : number := S754_infinity false.

(** The number value of an integer (round to nearest, ties to even). *)
Definition of_Z (z : Z) : number := binary_normalize prec emax z 0 false.

Definition add : number -> number -> number := SFadd prec emax.
Definition sub : number -> number -> number := SFsub prec emax.
Definition mul : number -> number -> number := SFmul prec emax.
Definition div : number -> number -> number := SFdiv prec emax.
Definition Math_sqrt : number -> number := SFsqrt prec emax.
Definition neg : number -> number := SFopp.

(** [a < b], [a <= b] and [a === b] on numbers. *)
Definition lt (a b : number) : bool := SFltb a b.
Definition le (a b : number) : bool := SFleb a b.
Definition strict_eq (a b : number) : bool := SFeqb a b.

Definition isNaN (x : number) : bool :=
  match x with S754_nan => true | _ => false end.

(** [a % b]: the remainder of the truncating division, exact, with the sign
    of the dividend (Number::remainder). *)
Definition rem (n d : number) : number :=
  match n, d with
  | S754_nan, _ | _, S754_nan => NaN
  | S754_infinity _, _ => NaN
  | _, S754_zero _ => NaN
  | _, S754_infinity _ => n
  | S754_zero _, _ => n
  | S754_finite sn mn en, S754_finite _ md ed =>
      let e := Z.min en ed in
      let a := Zpos mn * 2 ^ (en - e) in
      let b := Zpos md * 2 ^ (ed - e) in
      binary_normalize prec emax (cond_Zopp sn (a mod b)) e sn
  end.

(** [Math.floor]. *)
Definition Math_floor (x : number) : number :=
  match x with
  | S754_finite s m e =>
      if 0 <=? e then x
      else binary_normalize prec emax (cond_Zopp s (Zpos m) / 2 ^ (- e)) 0 false
  | _ => x
  end.

(** The number nearest to [m * 10 ^ e10], for [m >= 0]: the rounding that
    turns a decimal literal into a number. *)
Definition of_decimal (m e10 : Z) : number :=
  if 0 <=? e10 then of_Z (m * 10 ^ e10)
  else
    match m with
    | Zpos _ =>
        let '(q, e, l) := SFdiv_core_binary prec emax m 0 (10 ^ (- e10)) 0 in
        binary_round_aux prec emax false q e l
    | _ => S754_zero false
    end.

(** [Math.PI] and [Math.E]. *)
Definition Math_PI : number := S754_finite false 7074237752028440 (-51).
Definition Math_E : number := S754_finite false 6121026514868073 (-51).

(** The integer a number is, when it is a non-negative integer ([-0] is
    left out). *)
Definition to_int (x : number) : option Z :=
  match x with
  | S754_zero false => Some 0
  | S754_finite false m e =>
      if 0 <=? e then Some (Zpos m * 2 ^ e)
      else if Zpos m mod 2 ^ (- e) =? 0 then Some (Zpos m / 2 ^ (- e))
      else None
  | _ => None
  end.

(** A value popped from an array: [undefined] when the array is empty. *)
Inductive value : Type :=
| undefined
| num (x : number).

(** ToNumber, applied by every arithmetic operator and [Math] function. *)
Definition ToNumber (v : value) : number :=
  match v with
  | undefined => NaN
  | num x => x
  end.

End JS.

(** ** Host strings *)

Definition code (c : ascii) : N := N_of_ascii c.

Definition is_digit (c : ascii) : bool := ((48 <=? code c) && (code c <=? 57))%N.
Definition is_upper (c : ascii) : bool := ((65 <=? code c) && (code c <=? 90))%N.
Definition is_lower (c : ascii) : bool := ((97 <=? code c) && (code c <=? 122))%N.
Definition is_letter (c : ascii) : bool := is_upper c || is_lower c.

Definition digit (c : ascii) : Z := Z.of_N (code c) - 48.

(** The longest prefix whose characters satisfy [p], and the rest. *)
Fixpoint span (p : ascii -> bool) (s : string) : string * string :=
  match s with
  | String c r =>
      if p c then let (a, b) := span p r in (String c a, b) else ("", s)
  | "" => ("", "")
  end.

Fixpoint all_chars (p : ascii -> bool) (s : string) : bool :=
  match s with
  | String c r => p c && all_chars p r
  | "" => true
  end.

Definition is_empty (s : string) : bool :=
  match s with "" => true | _ => false end.

(** [String.prototype.toLowerCase] on the ASCII letters. *)
Definition lower_char (c : ascii) : ascii :=
  if is_upper c then ascii_of_N (code c + 32) else c.

Fixpoint toLowerCase (s : string) : string :=
  match s with
  | String c r => String (lower_char c) (toLowerCase r)
  | "" => ""
  end.

(** The mathematical value of a run of digits in base [b], most significant
    digit first, continuing from [acc]. *)
Fixpoint digits_value (b acc : Z) (d : string) : Z :=
  match d with
  | String c r => digits_value b (b * acc + digit c) r
  | "" => acc
  end.

Module Parse.

Import JS.

(** White space and line terminators, as StringToNumber and [parseFloat]
    skip them: TAB, LF, VT, FF, CR, SP, and in UTF-8 the characters U+00A0,
    U+1680, U+2000..U+200A, U+2028, U+2029, U+202F, U+205F, U+3000, U+FEFF. *)
Definition is_ascii_space (c : ascii) : bool :=
  (((9 <=? code c) && (code c <=? 13)) || (code c =? 32))%N.

Fixpoint trim_start (s : string) : string :=
  match s with
  | String c r =>
      if is_ascii_space c then trim_start r
      else
        match r with
        | String c2 r2 =>
            if ((code c =? 194) && (code c2 =? 160))%N then trim_start r2
            else
              match r2 with
              | String c3 r3 =>
                  if (((code c =? 225) && (code c2 =? 154) && (code c3 =? 128))
                      || ((code c =? 226) && (code c2 =? 128)
                          && (((128 <=? code c3) && (code c3 <=? 138))
                              || (code c3 =? 168) || (code c3 =? 169)
                              || (code c3 =? 175)))
                      || ((code c =? 226) && (code c2 =? 129) && (code c3 =? 159))
                      || ((code c =? 227) && (code c2 =? 128) && (code c3 =? 128))
                      || ((code c =? 239) && (code c2 =? 187) && (code c3 =? 191)))%N
                  then trim_start r3
                  else s
              | "" => s
              end
        | "" => s
        end
  | "" => ""
  end.

(** The string without the white space at its end: cut where only white
    space follows. *)
Fixpoint trim_end (s : string) : string :=
  match s with
  | String c r => if is_empty (trim_start s) then "" else String c (trim_end r)
  | "" => ""
  end.

Definition trim (s : string) : string := trim_end (trim_start s).

Fixpoint strip_prefix (p s : string) : option string :=
  match p, s with
  | "", _ => Some s
  | String a p', String b s' => if Ascii.eqb a b then strip_prefix p' s' else None
  | _, "" => None
  end.

(** ExponentPart, when a complete one is there: its value and the rest. *)
Definition scan_exponent (s : string) : Z * string :=
  match s with
  | String c r =>
      if ((code c =? 101) || (code c =? 69))%N then
        let '(sg, r1) :=
          match r with
          | String c1 r' =>
              if (code c1 =? 43)%N then (1, r')
              else if (code c1 =? 45)%N then (-1, r')
              else (1, r)
          | "" => (1, r)
          end in
        let (d, r2) := span is_digit r1 in
        if is_empty d then (0, s) else (sg * digits_value 10 0 d, r2)
      else (0, s)
  | "" => (0, s)
  end.

(** The longest prefix that is a StrUnsignedDecimalLiteral: its number and
    the rest of the string. *)
Definition scan_unsigned (s : string) : option (number * string) :=
  match strip_prefix "Infinity" s with
  | Some r => Some (Infinity, r)
  | None =>
      let (d1, r1) := span is_digit s in
      match r1 with
      | String c r2 =>
          if (code c =? 46)%N then
            let (d2, r3) := span is_digit r2 in
            if is_empty d1 && is_empty d2 then None
            else
              let (x, r4) := scan_exponent r3 in
              Some (of_decimal (digits_value 10 0 (d1 ++ d2))
                      (x - Z.of_nat (String.length d2)), r4)
          else if is_empty d1 then None
          else let (x, r4) := scan_exponent r1 in
               Some (of_decimal (digits_value 10 0 d1) x, r4)
      | "" =>
          if is_empty d1 then None
          else Some (of_decimal (digits_value 10 0 d1) 0, "")
      end
  end.

(** The same with the optional sign of a StrDecimalLiteral. *)
Definition scan_decimal (s : string) : option (number * string) :=
  match s with
  | String c r =>
      if (code c =? 43)%N then scan_unsigned r
      else if (code c =? 45)%N then
        match scan_unsigned r with
        | Some (v, r') => Some (neg v, r')
        | None => None
        end
      else scan_unsigned s
  | "" => None
  end.

(** [parseFloat]: the number of the longest decimal prefix after leading
    white space, [NaN] when there is none. *)
Definition parseFloat (s : string) : number :=
  match scan_decimal (trim_start s) with
  | Some (v, _) => v
  | None => NaN
  end.

Definition is_hex (c : ascii) : bool :=
  (is_digit c || ((65 <=? code c) && (code c <=? 70))
   || ((97 <=? code c) && (code c <=? 102)))%N.
Definition is_octal (c : ascii) : bool := ((48 <=? code c) && (code c <=? 55))%N.
Definition is_binary (c : ascii) : bool := ((48 <=? code c) && (code c <=? 49))%N.

Definition hex_digit (c : ascii) : Z :=
  if is_digit c then digit c
  else if is_upper c then Z.of_N (code c) - 55
  else Z.of_N (code c) - 87.

Fixpoint hex_value (acc : Z) (d : string) : Z :=
  match d with
  | String c r => hex_value (16 * acc + hex_digit c) r
  | "" => acc
  end.

(** NonDecimalIntegerLiteral: [0x], [0o] and [0b] literals. *)
Definition non_decimal (s : string) : option number :=
  match s with
  | String z (String k d) =>
      if (code z =? 48)%N && negb (is_empty d) then
        if ((code k =? 120) || (code k =? 88))%N then
          if all_chars is_hex d then Some (of_Z (hex_value 0 d)) else None
        else if ((code k =? 111) || (code k =? 79))%N then
          if all_chars is_octal d then Some (of_Z (digits_value 8 0 d)) else None
        else if ((code k =? 98) || (code k =? 66))%N then
          if all_chars is_binary d then Some (of_Z (digits_value 2 0 d)) else None
        else None
      else None
  | _ => None
  end.

(** [Number(s)] on a string (StringToNumber): the whole string, white space
    at both ends apart, must be a numeric literal; the empty string is 0. *)
Definition Number (s : string) : number :=
  let t := trim s in
  if is_empty t then S754_zero false
  else
    match non_decimal t with
    | Some v => v
    | None =>
        match scan_decimal t with
        | Some (v, "") => v
        | _ => NaN
        end
    end.

End Parse.

(** ** Number to string *)

Module Print.

Import JS.

(** Structural equality of numbers (the same value, zeros by sign). *)
Definition same (a b : number) : bool :=
  match a, b with
  | S754_zero s, S754_zero t => Bool.eqb s t
  | S754_infinity s, S754_infinity t => Bool.eqb s t
  | S754_nan, S754_nan => true
  | S754_finite s m e, S754_finite t n f =>
      Bool.eqb s t && Pos.eqb m n && Z.eqb e f
  | _, _ => false
  end.

Definition digit_char (d : Z) : ascii := ascii_of_N (Z.to_N (48 + d)).

(** The decimal digits of [n >= 0], most significant first. *)
Fixpoint digits_fuel (fuel : nat) (n : Z) (acc : string) : string :=
  match fuel with
  | O => acc
  | S fuel' =>
      if n <? 10 then String (digit_char n) acc
      else digits_fuel fuel' (n / 10) (String (digit_char (n mod 10)) acc)
  end.

Definition digits (n : Z) : string :=
  digits_fuel (S (Z.to_nat (Z.log2 n))) n "".

Fixpoint zeros (n : nat) : string :=
  match n with
  | O => ""
  | S n' => String "0" (zeros n')
  end.

Fixpoint take (n : nat) (s : string) : string :=
  match n, s with
  | S n', String c r => String c (take n' r)
  | _, _ => ""
  end.

Fixpoint drop (n : nat) (s : string) : string :=
  match n, s with
  | S n', String _ r => drop n' r
  | _, _ => s
  end.

(** [10 ^ n <= num / den], for positive [num] and [den]. *)
Definition ge_pow10 (num den n : Z) : bool :=
  if 0 <=? n then den * 10 ^ n <=? num else den <=? num * 10 ^ (- n).

(** The [n] with [10 ^ (n - 1) <= num / den < 10 ^ n], looked for upwards
    from [n0]. *)
Fixpoint find_exponent (fuel : nat) (num den n0 : Z) : Z :=
  match fuel with
  | O => n0
  | S fuel' =>
      if ge_pow10 num den n0 then find_exponent fuel' num den (n0 + 1) else n0
  end.

Definition decimal_exponent (num den : Z) : Z :=
  find_exponent 4 num den ((Z.log2 num - Z.log2 den) * 30103 / 100000 - 1).

(** The [k]-digit candidates for [x = num / den] at decimal exponent [n]:
    the integers just below and just above [x / 10 ^ (n - k)], the nearer
    one first (the even one on a tie); [10 ^ k] is [10 ^ (k - 1)] at the
    next exponent.  A candidate [(s, n)] is kept when
    [10 ^ (k - 1) <= s < 10 ^ k] and [s * 10 ^ (n - k)] rounds to [x]. *)
Definition candidates (x : number) (num den n k : Z) : list (Z * Z) :=
  let lo :=
    if 0 <=? n - k then num / (den * 10 ^ (n - k))
    else (num * 10 ^ (k - n)) / den in
  let hi := lo + 1 in
  let near :=
    if 0 <=? n - k then 2 * num ?= (2 * lo + 1) * den * 10 ^ (n - k)
    else 2 * num * 10 ^ (k - n) ?= (2 * lo + 1) * den in
  let fix_top (s : Z) : Z * Z :=
    if s =? 10 ^ k then (10 ^ (k - 1), n + 1) else (s, n) in
  let ordered :=
    match near with
    | Lt => [lo; hi]
    | Gt => [hi; lo]
    | Eq => if Z.even lo then [lo; hi] else [hi; lo]
    end in
  filter
    (fun c : Z * Z =>
       let (s, n') := c in
       (10 ^ (k - 1) <=? s) && (s <? 10 ^ k)
       && same (of_decimal s (n' - k)) x)
    (map fix_top ordered).

(** The shortest digits: the least [k <= 17] that has a candidate, with its
    [s] and [n] (Number::toString, step 5; seventeen digits always tell two
    binary64 values apart). *)
Fixpoint shortest_from (fuel : nat) (x : number) (num den n k : Z)
  : option (Z * Z * Z) :=
  match fuel with
  | O => None
  | S fuel' =>
      match candidates x num den n k with
      | (s, n') :: _ => Some (s, k, n')
      | [] => shortest_from fuel' x num den n (k + 1)
      end
  end.

Definition shortest (x : number) : option (Z * Z * Z) :=
  match x with
  | S754_finite _ m e =>
      let num := if 0 <=? e then Zpos m * 2 ^ e else Zpos m in
      let den := if 0 <=? e then 1 else 2 ^ (- e) in
      shortest_from 17 (SFabs x) num den (decimal_exponent num den) 1
  | _ => None
  end.

(** Number::toString, steps 6 to 10, from the digits [s] (there are [k]) and
    the decimal exponent [n]. *)
Definition format (s k n : Z) : string :=
  let ds := digits s in
  if (k <=? n) && (n <=? 21) then ds ++ zeros (Z.to_nat (n - k))
  else if (0 <? n) && (n <=? 21) then
    take (Z.to_nat n) ds ++ "." ++ drop (Z.to_nat n) ds
  else if (-6 <? n) && (n <=? 0) then "0." ++ zeros (Z.to_nat (- n)) ++ ds
  else
    let e := n - 1 in
    let sign := if 0 <=? e then "+" else "-" in
    if k =? 1 then ds ++ "e" ++ sign ++ digits (Z.abs e)
    else take 1 ds ++ "." ++ drop 1 ds ++ "e" ++ sign ++ digits (Z.abs e).

(** [String(x)] for a number [x] (Number::toString, radix 10).  A triple
    that is no binary64 value has no digits and prints as [NaN]. *)
Definition ToString (x : number) : string :=
  match x with
  | S754_nan => "NaN"
  | S754_zero _ => "0"
  | S754_infinity s => if s then "-Infinity" else "Infinity"
  | S754_finite sg _ _ =>
      match shortest x with
      | Some (s, k, n) => (if sg then "-" else "") ++ format s k n
      | None => "NaN"
      end
  end.

End Print.

(** ** The host's [Math] functions

    ECMA-262 leaves [Math.sin], [Math.cos], [Math.tan], [Math.log],
    [Math.log10] and [Math.pow] implementation-approximated and fixes their
    value at a few arguments only.  They are an interface of the host; the
    laws are the fixed points the evaluator's users see, and two accuracy
    statements the usual implementation (fdlibm) documents: [pow] of two
    integers is exact when the result is representable, and [log10] of
    [10 ^ n] is [n] for [n] up to 22.  [Math.log10] is absent from hosts
    older than ES2015, and the code tests for it. *)

Class MathLib : Type := {
  Math_sin : JS.number -> JS.number;
  Math_cos : JS.number -> JS.number;
  Math_tan : JS.number -> JS.number;
  Math_log : JS.number -> JS.number;
  Math_log10 : option (JS.number -> JS.number);
  Math_pow : JS.number -> JS.number -> JS.number;
  Math_sin_zero : Math_sin (S754_zero false) = S754_zero false;
  Math_sin_NaN : Math_sin JS.NaN = JS.NaN;
  Math_cos_zero : Math_cos (S754_zero false) = JS.of_Z 1;
  Math_cos_NaN : Math_cos JS.NaN = JS.NaN;
  Math_tan_NaN : Math_tan JS.NaN = JS.NaN;
  Math_log_one : Math_log (JS.of_Z 1) = S754_zero false;
  Math_log_NaN : Math_log JS.NaN = JS.NaN;
  Math_log10_pow10 : forall f x n, Math_log10 = Some f ->
    JS.to_int x = Some (10 ^ n) -> 0 <= n <= 22 -> f x = JS.of_Z n;
  Math_log10_NaN : forall f, Math_log10 = Some f -> f JS.NaN = JS.NaN;
  Math_pow_integers : forall x y a b,
    JS.to_int x = Some a -> JS.to_int y = Some b -> a ^ b < 2 ^ 53 ->
    Math_pow x y = JS.of_Z (a ^ b);
  Math_pow_NaN : forall x, Math_pow x JS.NaN = JS.NaN
}.

(** [Math.LN10]. *)
Definition Math_LN10 : JS.number := S754_finite false 5184960683398422 (-51).

(** ** The evaluator *)

(** The two errors [evaluateExpression] throws:
    ['Invalid expression token: ' + token] and ['Invalid expression']. *)
Inductive error : Type :=
| InvalidToken (token : string)
| InvalidExpression.

Inductive result (A : Type) : Type :=
| Ok (a : A)
| Throw (e : error).

Arguments Ok {A} a.
Arguments Throw {A} e.

(** *** Tokenizer *)

(** The first group of [tokenRe], at the start of [s]:
    [[0-9]+\.?[0-9]*|\.?[0-9]+]. *)
Definition match_number (s : string) : option (string * string) :=
  let (d1, r1) := span is_digit s in
  if negb (is_empty d1) then
    match r1 with
    | String c r2 =>
        if (code c =? 46)%N then
          let (d2, r3) := span is_digit r2 in Some (d1 ++ String c d2, r3)
        else Some (d1, r1)
    | "" => Some (d1, r1)
    end
  else
    match s with
    | String c r =>
        if (code c =? 46)%N then
          let (d, r') := span is_digit r in
          if is_empty d then None else Some (String c d, r')
        else None
    | "" => None
    end.

(** The second group, [[A-Za-zπ]+]: letters and the two bytes of pi. *)
Fixpoint span_word (s : string) : string * string :=
  match s with
  | String c r =>
      if is_letter c then
        let (w, r') := span_word r in (String c w, r')
      else
        match r with
        | String c2 r2 =>
            if ((code c =? 207) && (code c2 =? 128))%N then
              let (w, r') := span_word r2 in (String c (String c2 w), r')
            else ("", s)
        | "" => ("", s)
        end
  | "" => ("", "")
  end.

(** The third group, [[()+\-*/^%!]]. *)
Definition is_symbol (c : ascii) : bool :=
  ((code c =? 40) || (code c =? 41) || (code c =? 43) || (code c =? 45)
   || (code c =? 42) || (code c =? 47) || (code c =? 94) || (code c =? 37)
   || (code c =? 33))%N.

(** The [while ((m = tokenRe.exec(input)) !== null)] loop: the next match
    is looked for from the current position on, and what matches nothing
    is stepped over.  Each turn consumes a character, so the length of the
    input is fuel enough. *)
Fixpoint tokenize (fuel : nat) (s : string) : list string :=
  match fuel with
  | O => []
  | S fuel' =>
      match s with
      | "" => []
      | String c r =>
          match match_number s with
          | Some (t, rest) => t :: tokenize fuel' rest
          | None =>
              let (w, rest) := span_word s in
              if negb (is_empty w) then w :: tokenize fuel' rest
              else if is_symbol c then String c "" :: tokenize fuel' r
              else tokenize fuel' r
          end
      end
  end.

Definition tokens_of (input : string) : list string :=
  tokenize (String.length input) input.

(** *** Constants and function names *)

(** [/^[A-Za-z]+$/.test(t)]. *)
Definition is_name (t : string) : bool :=
  negb (is_empty t) && all_chars is_letter t.

(** One turn of the loop "Replace constants and normalize function names". *)
Definition normalize (t : string) : string :=
  let t1 :=
    if (t =? "π")%string || (t =? "pi")%string || (t =? "PI")%string
    then Print.ToString JS.Math_PI else t in
  let t2 := if (t1 =? "e")%string then Print.ToString JS.Math_E else t1 in
  if is_name t2 then toLowerCase t2 else t2.

(** [isNumber]: [/^[0-9]+\.?[0-9]*$/.test(t)]. *)
Definition isNumber (t : string) : bool :=
  let (d1, r1) := span is_digit t in
  negb (is_empty d1) &&
  match r1 with
  | String c r2 => (code c =? 46)%N && all_chars is_digit r2
  | "" => true
  end.

(** *** Shunting-yard *)

Local Open Scope list_scope.

Definition precedence (op : string) : option Z :=
  if (op =? "+")%string then Some 1
  else if (op =? "-")%string then Some 1
  else if (op =? "*")%string then Some 2
  else if (op =? "/")%string then Some 2
  else if (op =? "%")%string then Some 2
  else if (op =? "^")%string then Some 3
  else None.

Definition rightAssoc (op : string) : bool := (op =? "^")%string.

Definition isFunctionName (s : string) : bool :=
  existsb (String.eqb s) ["sin"; "cos"; "tan"; "sqrt"; "log"; "ln"].

(** [/^[+\-*/^%]$/.test(t)]. *)
Definition is_operator (t : string) : bool :=
  existsb (String.eqb t) ["+"; "-"; "*"; "/"; "^"; "%"].

(** [precedence[top] || 0]. *)
Definition precedence_or_0 (top : string) : Z :=
  match precedence top with
  | Some p => if p =? 0 then 0 else p
  | None => 0
  end.

(** [precedence[t] < n] and [precedence[t] <= n]; a comparison with
    [undefined] is false. *)
Definition precedence_lt (t : string) (n : Z) : bool :=
  match precedence t with Some p => p <? n | None => false end.
Definition precedence_le (t : string) (n : Z) : bool :=
  match precedence t with Some p => p <=? n | None => false end.

(** The condition of the operator's [while], below [ops.length]. *)
Definition yields (t top : string) : bool :=
  negb (top =? "(")%string &&
  ((rightAssoc t && precedence_lt t (precedence_or_0 top))
   || (negb (rightAssoc t) && precedence_le t (precedence_or_0 top))).

(** [while (ops.length && cond(ops[ops.length - 1])) output.push(ops.pop())];
    the top of [ops] is the head of the list. *)
Fixpoint pop_while (cond : string -> bool) (output ops : list string)
  : list string * list string :=
  match ops with
  | top :: rest =>
      if cond top then pop_while cond (output ++ [top]) rest else (output, ops)
  | [] => (output, [])
  end.

Definition not_open (top : string) : bool := negb (top =? "(")%string.

(** One turn of the shunting-yard loop on the token [t]. *)
Definition shunt (st : list string * list string) (t : string)
  : list string * list string :=
  let (output, ops) := st in
  if isNumber t then (output ++ [t], ops)
  else if isFunctionName t then (output, t :: ops)
  else if (t =? ",")%string then pop_while not_open output ops
  else if (t =? "(")%string then (output, t :: ops)
  else if (t =? ")")%string then
    let (output1, ops1) := pop_while not_open output ops in
    let ops2 := tl ops1 in
    match ops2 with
    | top :: ops3 =>
        if isFunctionName top then (output1 ++ [top], ops3) else (output1, ops2)
    | [] => (output1, ops2)
    end
  else if (t =? "!")%string then (output ++ ["!"], ops)
  else if is_operator t then
    let (output1, ops1) := pop_while (yields t) output ops in
    (output1, t :: ops1)
  else (output ++ [t], ops).

(** The whole conversion, with the final
    [while (ops.length) output.push(ops.pop())]. *)
Definition to_rpn (tokens : list string) : list string :=
  let (output, ops) := fold_left shunt tokens ([], []) in
  output ++ ops.

(** *** Evaluation of the postfix form *)

Section Evaluate.

Context {M : MathLib}.

Import JS.

(** [for (let i = 2; i <= Math.floor(n); i++) r *= i]; the guard of
    [factorialFn] leaves at most 169 turns. *)
Fixpoint factorial_loop (fuel : nat) (limit i r : number) : number :=
  match fuel with
  | O => r
  | S fuel' =>
      if le i limit
      then factorial_loop fuel' limit (add i (of_Z 1)) (mul r i)
      else r
  end.

Definition factorialFn (n : value) : number :=
  if lt (ToNumber n) (of_Z 0) || lt (of_Z 170) (ToNumber n) then Infinity
  else if match n with num x => strict_eq x (of_Z 0) | undefined => false end
  then of_Z 1
  else factorial_loop 170 (Math_floor (ToNumber n)) (of_Z 2) (of_Z 1).

(** [stack.pop()]; the top of [stack] is the head of the list. *)
Definition pop (stack : list number) : value * list number :=
  match stack with
  | x :: rest => (num x, rest)
  | [] => (undefined, [])
  end.

Definition binary (f : number -> number -> number) (stack : list number)
  : list number :=
  let (b, stack1) := pop stack in
  let (a, stack2) := pop stack1 in
  f (ToNumber a) (ToNumber b) :: stack2.

Definition unary (f : value -> number) (stack : list number) : list number :=
  let (a, stack1) := pop stack in
  f a :: stack1.

Definition log10_or_fallback (a : number) : number :=
  match Math_log10 with
  | Some f => f a
  | None => div (Math_log a) Math_LN10
  end.

(** One turn of [for (const token of output)]. *)
Definition apply_token (token : string) (stack : list number)
  : result (list number) :=
  if isNumber token then Ok (Parse.parseFloat token :: stack)
  else if (token =? "+")%string then Ok (binary add stack)
  else if (token =? "-")%string then Ok (binary sub stack)
  else if (token =? "*")%string then Ok (binary mul stack)
  else if (token =? "/")%string then Ok (binary div stack)
  else if (token =? "%")%string then Ok (binary rem stack)
  else if (token =? "^")%string then Ok (binary Math_pow stack)
  else if (token =? "!")%string then Ok (unary factorialFn stack)
  else if (token =? "sin")%string then Ok (unary (fun a => Math_sin (ToNumber a)) stack)
  else if (token =? "cos")%string then Ok (unary (fun a => Math_cos (ToNumber a)) stack)
  else if (token =? "tan")%string then Ok (unary (fun a => Math_tan (ToNumber a)) stack)
  else if (token =? "sqrt")%string then Ok (unary (fun a => Math_sqrt (ToNumber a)) stack)
  else if (token =? "ln")%string then Ok (unary (fun a => Math_log (ToNumber a)) stack)
  else if (token =? "log")%string then Ok (unary (fun a => log10_or_fallback (ToNumber a)) stack)
  else
    let n := Parse.Number token in
    if negb (isNaN n) then Ok (n :: stack) else Throw (InvalidToken token).

Fixpoint run (output : list string) (stack : list number)
  : result (list number) :=
  match output with
  | [] => Ok stack
  | token :: rest =>
      match apply_token token stack with
      | Ok stack' => run rest stack'
      | Throw e => Throw e
      end
  end.

(** [if (stack.length !== 1) throw ...; return stack[0]]. *)
Definition finish (r : result (list number)) : result number :=
  match r with
  | Ok [x] => Ok x
  | Ok _ => Throw InvalidExpression
  | Throw e => Throw e
  end.

Definition evaluateExpression (input : string) : result number :=
  finish (run (to_rpn (map normalize (tokens_of input))) []).

End Evaluate.

(** A statement about the evaluator on every host. *)
Inductive every_host (P : MathLib -> Prop) : Prop :=
| on_every_host (H : forall M : MathLib, P M).

(** ** A host

    The laws of [MathLib] are satisfiable: the host below is exact where
    the interface fixes a value and answers [NaN] elsewhere. *)

Module Host.

Import JS.

Definition fixed_at_zero (x : number) : number :=
  match x with S754_zero _ => x | _ => NaN end.

Definition one_at_zero (x : number) : number :=
  match x with S754_zero _ => of_Z 1 | _ => NaN end.

Definition zero_at_one (x : number) : number :=
  if Print.same x (of_Z 1) then S754_zero false else NaN.

Definition powers_of_ten : list Z :=
  map (fun n => Z.of_nat n) (seq 0 23).

Definition exact_log10 (x : number) : number :=
  match to_int x with
  | Some a =>
      match find (fun n => 10 ^ n =? a) powers_of_ten with
      | Some n => of_Z n
      | None => NaN
      end
  | None => NaN
  end.

Definition exact_pow (x y : number) : number :=
  match to_int x, to_int y with
  | Some a, Some b => of_Z (a ^ b)
  | _, _ => NaN
  end.

End Host.

(** The host: the laws hold by evaluation, [exact_log10] by cases on the
    exponent. *)
Definition exact_points_host : MathLib.
Proof.
  refine {|
    Math_sin := Host.fixed_at_zero;
    Math_cos := Host.one_at_zero;
    Math_tan := Host.fixed_at_zero;
    Math_log := Host.zero_at_one;
    Math_log10 := Some Host.exact_log10;
    Math_pow := Host.exact_pow
  |}.
  - reflexivity.
  - reflexivity.
  - reflexivity.
  - reflexivity.
  - reflexivity.
  - reflexivity.
  - reflexivity.
  - intros f x n [= <-] Hx Hn. unfold Host.exact_log10. rewrite Hx.
    assert (Hcases : In n Host.powers_of_ten).
    { unfold Host.powers_of_ten. apply in_map_iff. exists (Z.to_nat n).
      split; [lia|]. apply in_seq. lia. }
    unfold Host.powers_of_ten in *. simpl in Hcases.
    repeat (destruct Hcases as [<- | Hcases]; [ reflexivity |]).
    contradiction.
  - intros f [= <-]. reflexivity.
  - intros x y a b Hx Hy _. unfold Host.exact_pow. now rewrite Hx, Hy.
  - intros x. unfold Host.exact_pow. simpl. now destruct (JS.to_int x).
Defined.

(** ** Reference definitions for the factorial *)

(** The integer part (towards minus infinity) of a finite number. *)
Definition floor_int (x : JS.number) : Z :=
  match x with
  | S754_finite s m e =>
      if 0 <=? e then cond_Zopp s (Zpos m) * 2 ^ e
      else cond_Zopp s (Zpos m) / 2 ^ (- e)
  | _ => 0
  end.

(** The product [1 * 2 * ... * k], multiplied out from the left in number
    arithmetic. *)
Fixpoint product_upto (k : nat) : JS.number :=
  match k with
  | O => JS.of_Z 1
  | S k' => JS.mul (product_upto k') (JS.of_Z (Z.of_nat k))
  end.

(** The factorial as an integer. *)
Fixpoint factorial (k : nat) : Z :=
  match k with
  | O => 1
  | S k' => Z.of_nat k * factorial k'
  end.

(** Whether the number [x] differs from the integer [z] by at most
    [num * z / 2^53]: by nothing when [num] is 0, and by at most
    [z / 2^50] when [num] is 8. *)
Definition within (num : Z) (x : JS.number) (z : Z) : bool :=
  match x with
  | S754_finite s m e =>
      let v := cond_Zopp s (Zpos m) in
      if 0 <=? e then Z.abs (v * 2 ^ e - z) * 2 ^ 53 <=? num * z
      else Z.abs (v - z * 2 ^ (- e)) * 2 ^ 53 <=? num * z * 2 ^ (- e)
  | S754_zero _ => Z.abs z * 2 ^ 53 <=? num * z
  | _ => false
  end.

(** Whether the products [1 * 2 * ... * j] in number arithmetic, for
    [count] values of [j] from [k] on, are [within num] of the integer
    products; [product] and [exact] are the two products up to [k]. *)
Fixpoint products_within (num : Z) (count k : nat) (product : JS.number)
  (exact : Z) : bool :=
  match count with
  | O => true
  | S count' =>
      within num product exact
      && products_within num count' (S k)
           (JS.mul product (JS.of_Z (Z.of_nat (S k)))) (Z.of_nat (S k) * exact)
  end.

(** Whether the loop leaves by its condition within [fuel] turns. *)
Fixpoint loop_leaves (fuel : nat) (limit i : JS.number) : bool :=
  match fuel with
  | O => negb (JS.le i limit)
  | S fuel' =>
      if JS.le i limit then loop_leaves fuel' limit (JS.add i (JS.of_Z 1)) else true
  end.


(** The first character of [s], if any, fails [p]. *)
Definition stops (p : ascii -> bool) (s : string) : bool :=
  match s with
  | String c _ => negb (p c)
  | "" => true
  end.

(** Characters that are no white space and start no white space. *)
Definition inert (c : ascii) : bool :=
  (negb (Parse.is_ascii_space c) && negb (code c =? 194) && negb (code c =? 225)
   && negb (code c =? 226) && negb (code c =? 227) && negb (code c =? 239))%N.

(** A character the tokenizer steps over wherever it stands: it starts no
    number, no word and is no symbol. *)
Definition is_blank (c : ascii) : bool :=
  negb (is_digit c || (code c =? 46)%N || is_letter c || (code c =? 207)%N
        || is_symbol c).

(** What may follow a token in the text of an expression: nothing, a symbol
    or a blank. *)
Definition boundary (s : string) : bool :=
  match s with
  | String c _ => is_symbol c || is_blank c
  | "" => true
  end.

(** ** Reference semantics of infix expressions

    The conventional reading of an infix expression: a literal, a
    parenthesised expression, or a binary operation whose operands bind at
    least as tightly as the precedence table and the associativity of the
    operator ask. *)

(** A non-negative decimal literal, by its digits: [12], [12.5] or [12.],
    and [.5]. *)
Inductive literal : Type :=
| Whole (int : string)
| Point (int frac : string)
| Fraction (frac : string).

Definition some_digits (d : string) : bool :=
  negb (is_empty d) && all_chars is_digit d.

Definition literal_ok (l : literal) : bool :=
  match l with
  | Whole d => some_digits d
  | Point d f => some_digits d && all_chars is_digit f
  | Fraction f => some_digits f
  end.

Definition literal_text (l : literal) : string :=
  match l with
  | Whole d => d
  | Point d f => (d ++ String "." f)%string
  | Fraction f => String "." f
  end.

(** The number nearest to the decimal value of the literal. *)
Definition literal_value (l : literal) : JS.number :=
  match l with
  | Whole d => JS.of_decimal (digits_value 10 0 d) 0
  | Point d f =>
      JS.of_decimal (digits_value 10 0 (d ++ f)) (- Z.of_nat (String.length f))
  | Fraction f =>
      JS.of_decimal (digits_value 10 0 f) (- Z.of_nat (String.length f))
  end.

Inductive binop : Type := Add | Sub | Mul | Div | Rem | Pow.

Inductive func : Type := Sin | Cos | Tan | Sqrt | Log | Ln.

(** The spellings of the two constants. *)
Inductive constant : Type := LowerPi | UpperPi | GreekPi | Euler.

Inductive expr : Type :=
| Lit (l : literal)
| Const (c : constant)
| Bin (o : binop) (a b : expr)
| Paren (e : expr)
| Call (f : func) (e : expr)
| Fact (e : expr).

Definition op_text (o : binop) : string :=
  match o with
  | Add => "+" | Sub => "-" | Mul => "*" | Div => "/" | Rem => "%" | Pow => "^"
  end.

Definition func_text (f : func) : string :=
  match f with
  | Sin => "sin" | Cos => "cos" | Tan => "tan"
  | Sqrt => "sqrt" | Log => "log" | Ln => "ln"
  end.

Definition constant_text (c : constant) : string :=
  match c with
  | LowerPi => "pi" | UpperPi => "PI" | GreekPi => "π" | Euler => "e"
  end.

Definition constant_value (c : constant) : JS.number :=
  match c with
  | Euler => JS.Math_E
  | _ => JS.Math_PI
  end.

(** The token that stands for a constant after the constants are
    replaced. *)
Definition constant_token (c : constant) : string :=
  Print.ToString (constant_value c).

(** The precedence table: [+ -] bind at level 1, [* / %] at 2, [^] at 3. *)
Definition op_level (o : binop) : nat :=
  match o with
  | Add | Sub => 1
  | Mul | Div | Rem => 2
  | Pow => 3
  end.

(** [^] groups to the right, the other operators to the left. *)
Definition groups_right (o : binop) : bool :=
  match o with Pow => true | _ => false end.

(** How tightly an expression binds at its top: only a binary operation
    can be taken apart by a neighbour. *)
Definition level (e : expr) : nat :=
  match e with
  | Bin o _ _ => op_level o
  | _ => 4
  end.

(** An expression is in infix form when no operand needs parentheses it
    does not have: the left operand of a left-grouping operator binds at
    least as tightly as the operator and its right operand strictly
    tighter; for [^] it is the other way round; the operand of the postfix
    [!] is no binary operation. *)
Fixpoint well_formed (e : expr) : bool :=
  match e with
  | Lit l => literal_ok l
  | Const _ => true
  | Paren e' => well_formed e'
  | Call _ e' => well_formed e'
  | Fact e' => well_formed e' && (level e' =? 4)%nat
  | Bin o a b =>
      well_formed a && well_formed b &&
      (if groups_right o
       then (op_level o <? level a)%nat && (op_level o <=? level b)%nat
       else (op_level o <=? level a)%nat && (op_level o <? level b)%nat)
  end.

(** Expressions of literals, binary operators and parentheses only. *)
Fixpoint arithmetic (e : expr) : bool :=
  match e with
  | Lit _ => true
  | Bin _ a b => arithmetic a && arithmetic b
  | Paren e' => arithmetic e'
  | _ => false
  end.

(** The text of an expression, with [sep] between its tokens. *)
Fixpoint text (sep : string) (e : expr) : string :=
  match e with
  | Lit l => literal_text l
  | Const c => constant_text c
  | Bin o a b => (text sep a ++ sep ++ op_text o ++ sep ++ text sep b)%string
  | Paren e' => ("(" ++ sep ++ text sep e' ++ sep ++ ")")%string
  | Call f e' =>
      (func_text f ++ sep ++ "(" ++ sep ++ text sep e' ++ sep ++ ")")%string
  | Fact e' => (text sep e' ++ sep ++ "!")%string
  end.

(** Its tokens as the tokenizer gives them. *)
Fixpoint lexemes (e : expr) : list string :=
  match e with
  | Lit l => [literal_text l]
  | Const c => [constant_text c]
  | Bin o a b => lexemes a ++ op_text o :: lexemes b
  | Paren e' => "(" :: lexemes e' ++ [")"]
  | Call f e' => func_text f :: "(" :: lexemes e' ++ [")"]
  | Fact e' => lexemes e' ++ ["!"]
  end.

(** Its tokens when the constants are replaced. *)
Fixpoint infix (e : expr) : list string :=
  match e with
  | Lit l => [literal_text l]
  | Const c => [constant_token c]
  | Bin o a b => infix a ++ op_text o :: infix b
  | Paren e' => "(" :: infix e' ++ [")"]
  | Call f e' => func_text f :: "(" :: infix e' ++ [")"]
  | Fact e' => infix e' ++ ["!"]
  end.

(** Its postfix form. *)
Fixpoint postfix (e : expr) : list string :=
  match e with
  | Lit l => [literal_text l]
  | Const c => [constant_token c]
  | Bin o a b => postfix a ++ postfix b ++ [op_text o]
  | Paren e' => postfix e'
  | Call f e' => postfix e' ++ [func_text f]
  | Fact e' => postfix e' ++ ["!"]
  end.

(** The operators of [e] that the shunting-yard loop still holds on [ops]
    when it has read [e], the last one read first. *)
Fixpoint pending (e : expr) : list binop :=
  match e with
  | Bin o _ b => pending b ++ [o]
  | _ => []
  end.

(** The operators at which the loop compares with what was on [ops] before
    [e]: those down the left operands. *)
Fixpoint left_spine (e : expr) : list binop :=
  match e with
  | Bin o a _ => o :: left_spine a
  | _ => []
  end.

(** What the loop has put on [output] when it has read [e]. *)
Fixpoint emitted (e : expr) : list string :=
  match e with
  | Bin o a b => emitted a ++ map op_text (pending a) ++ emitted b
  | _ => postfix e
  end.

(** The comparison of the operator's [while], on operators. *)
Definition gives_way (o top : binop) : bool :=
  if groups_right o then (op_level o <? op_level top)%nat
  else (op_level o <=? op_level top)%nat.

(** What [e] asks of the stack it is read on: its top is no function name
    and gives way to no operator down the left of [e]. *)
Definition calm (e : expr) (ops : list string) : Prop :=
  match ops with
  | [] => True
  | top :: _ =>
      isFunctionName top = false
      /\ Forall (fun o => yields (op_text o) top = false) (left_spine e)
  end.

Section Denote.

Context {M : MathLib}.

Definition op_fun (o : binop) : JS.number -> JS.number -> JS.number :=
  match o with
  | Add => JS.add
  | Sub => JS.sub
  | Mul => JS.mul
  | Div => JS.div
  | Rem => JS.rem
  | Pow => Math_pow
  end.

Definition func_fun (f : func) : JS.number -> JS.number :=
  match f with
  | Sin => Math_sin
  | Cos => Math_cos
  | Tan => Math_tan
  | Sqrt => JS.Math_sqrt
  | Log => log10_or_fallback
  | Ln => Math_log
  end.

(** The value of an expression, operation by operation. *)
Fixpoint denote (e : expr) : JS.number :=
  match e with
  | Lit l => literal_value l
  | Const c => constant_value c
  | Bin o a b => op_fun o (denote a) (denote b)
  | Paren e' => denote e'
  | Call f e' => func_fun f (denote e')
  | Fact e' => factorialFn (JS.num (denote e'))
  end.

End Denote.

(** ** Parentheses left open *)

(** How many opening parentheses of [s] are not closed, after [depth] open
    ones: a closing parenthesis closes the last open one, if there is
    one. *)
Fixpoint unclosed (depth : nat) (s : string) : nat :=
  match s with
  | String c r =>
      unclosed (if (code c =? 40)%N then S depth
                else if (code c =? 41)%N then pred depth
                else depth) r
  | "" => depth
  end.

(** The same count on tokens. *)
Definition paren_step (depth : nat) (t : string) : nat :=
  if (t =? "(")%string then S depth
  else if (t =? ")")%string then pred depth
  else depth.

(** The opening parentheses on [ops]. *)
Definition count_open (ops : list string) : nat :=
  List.length (filter (String.eqb "(") ops).

(** A character that is no parenthesis. *)
Definition no_paren (c : ascii) : bool :=
  negb (code c =? 40)%N && negb (code c =? 41)%N.

(** The bytes of a word: letters and the two bytes of pi. *)
Definition word_char (c : ascii) : bool :=
  is_letter c || (code c =? 207)%N || (code c =? 128)%N.


(** ** Tokens the evaluator knows *)

(** A number, a function name, an operator (the postfix [!] too) or a
    parenthesis. *)
Definition known (t : string) : bool :=
  isNumber t || isFunctionName t || is_operator t || (t =? "!")%string
  || (t =? "(")%string || (t =? ")")%string.

(** What the tokenizer can give: the text of a literal, a word, or a
    symbol. *)
Inductive lexeme (t : string) : Prop :=
| lexeme_number (l : literal) (Hl : literal_ok l = true) (Ht : t = literal_text l)
| lexeme_word (He : is_empty t = false) (Hw : all_chars word_char t = true)
| lexeme_symbol (c : ascii) (Ht : t = String c "") (Hc : is_symbol c = true).

(** * The calculator's keys

    The helper [factorial] and the click handler [handleButtonClick] of the
    component [Calculator], which calls [evaluateExpression] on the [=]
    key.  The handler reads and writes one piece of the component's state,
    the string [display]; a click is a function from the display and the
    label of the key to the next display. *)

(** ** Host string functions the handler uses *)

Module Text.

(** [s.replace(/pat/g, rep)] for a pattern that is a literal, non-empty
    string and a replacement without [$]: the matches are taken from left
    to right, each one looked for behind the last.  [skip] counts the
    characters of the current match that are still to be stepped over. *)
Fixpoint replace_from (pat rep : string) (skip : nat) (s : string) : string :=
  match s with
  | String c r =>
      match skip with
      | S k => replace_from pat rep k r
      | O =>
          match Parse.strip_prefix pat s with
          | Some _ => rep ++ replace_from pat rep (String.length pat - 1) r
          | None => String c (replace_from pat rep 0 r)
          end
      end
  | "" => ""
  end.

Definition replace_all (pat rep s : string) : string := replace_from pat rep 0 s.

(** [parseInt(s, 10)]: the number of the longest run of digits after
    leading white space and a sign, [NaN] when there is none.  (Beyond 20
    significant digits ECMA-262 lets an implementation take the later
    digits for zeros; the number is 1e20 or more either way.) *)
Definition parseInt (s : string) : JS.number :=
  let t := Parse.trim_start s in
  let '(negative, u) :=
    match t with
    | String c r =>
        if (code c =? 43)%N then (false, r)
        else if (code c =? 45)%N then (true, r)
        else (false, t)
    | "" => (false, t)
    end in
  let (d, _) := span is_digit u in
  if is_empty d then JS.NaN
  else
    let n := JS.of_decimal (digits_value 10 0 d) 0 in
    if negative then JS.neg n else n.

(** The bytes 128 to 191 continue a character in UTF-8. *)
Definition is_continuation (c : ascii) : bool :=
  ((128 <=? code c) && (code c <=? 191))%N.

(** [s.slice(0, -1)]: the string without its last UTF-16 code unit, which
    is its last character when that is one of the Basic Multilingual Plane
    (the labels of the keys and the strings of numbers hold no other). *)
Fixpoint slice_last (s : string) : string :=
  match s with
  | String c r =>
      if all_chars is_continuation r then "" else String c (slice_last r)
  | "" => ""
  end.

End Text.

(** ** The component *)

Module Calculator.

Import JS.

(** The helper of the component: [factorialFn] with [i <= n] for the
    condition of its loop. *)
Definition factorial (n : number) : number :=
  if lt n (of_Z 0) || lt (of_Z 170) n then Infinity
  else if strict_eq n (of_Z 0) then of_Z 1
  else factorial_loop 170 n (of_Z 2) (of_Z 1).

(** [expr.replace(/(\d+)!/g, (_, num) => String(factorial(parseInt(num, 10))))]:
    a match is a whole run of digits with [!] behind it. *)
Fixpoint replace_factorials (skip : nat) (s : string) : string :=
  match s with
  | String c r =>
      match skip with
      | S k => replace_factorials k r
      | O =>
          let (d, rest) := span is_digit s in
          if negb (is_empty d)
             && match rest with String b _ => (code b =? 33)%N | "" => false end
          then (Print.ToString (factorial (Text.parseInt d))
                ++ replace_factorials (String.length d) r)%string
          else String c (replace_factorials 0 r)
      end
  | "" => ""
  end.

(** The labels of the keys. *)
Definition standardButtons : list string :=
  ["C"; "%"; "DEL"; "/"; "7"; "8"; "9"; "*"; "4"; "5"; "6"; "-"; "1"; "2"; "3";
   "+"; "0"; "."; "="].

Definition scientificButtons : list string :=
  ["sin"; "cos"; "tan"; "log"; "ln"; "√"; "("; ")"; "π"; "e"; "^"; "x²"; "!"].

(** The string [expr] that the [=] key hands to [evaluateExpression]: the
    display after the eleven replacements. *)
Definition expr_of (display : string) : string :=
  let expr := display in
  let expr := Text.replace_all "√" "Math.sqrt" expr in
  let expr := Text.replace_all "sin" "Math.sin" expr in
  let expr := Text.replace_all "cos" "Math.cos" expr in
  let expr := Text.replace_all "tan" "Math.tan" expr in
  let expr := Text.replace_all "log" "Math.log10" expr in
  let expr := Text.replace_all "ln" "Math.log" expr in
  let expr := Text.replace_all "π" "Math.PI" expr in
  let expr := Text.replace_all "e" "Math.E" expr in
  let expr := Text.replace_all "^" "**" expr in
  let expr := replace_factorials 0 expr in
  let expr := Text.replace_all "%" "/100" expr in
  expr.

Section Handler.

Context {M : MathLib}.

(** One click on the key [value]: the next display. *)
Definition handleButtonClick (display value : string) : string :=
  if (display =? "Error")%string || (display =? "Infinity")%string then
    if (value =? "C")%string then "0" else value
  else if (value =? "C")%string then "0"
  else if (value =? "=")%string then
    match evaluateExpression (expr_of display) with
    | Ok result => Print.ToString result
    | Throw _ => "Error"
    end
  else if (value =? "DEL")%string then
    let rest := Text.slice_last display in
    if is_empty rest then "0" else rest
  else if existsb (String.eqb value) ["sin"; "cos"; "tan"; "log"; "ln"; "√"] then
    if (display =? "0")%string then (value ++ "(")%string
    else (display ++ value ++ "(")%string
  else if (value =? "x²")%string then (display ++ "^" ++ "(2)")%string
  else if (display =? "0")%string && negb (value =? ".")%string then value
  else (display ++ value)%string.

(** The display after clicks on the keys [values], one after the other:
    the handler iterated. *)
Definition press (display : string) (values : list string) : string :=
  fold_left handleButtonClick values display.

End Handler.

End Calculator.

(** ** Reference definitions for the keys and the tokenizer *)

(** Whether the character of code [n] is in [s]. *)
Fixpoint has (n : N) (s : string) : bool :=
  match s with
  | String c r => (code c =? n)%N || has n r
  | "" => false
  end.

(** Whether [pat] is a substring of [s]. *)
Fixpoint contains (pat s : string) : bool :=
  match Parse.strip_prefix pat s with
  | Some _ => true
  | None =>
      match s with
      | String _ r => contains pat r
      | "" => false
      end
  end.

(** The characters of [s] that satisfy [p], in their order. *)
Fixpoint keep (p : ascii -> bool) (s : string) : string :=
  match s with
  | String c r => if p c then String c (keep p r) else keep p r
  | "" => ""
  end.

(** The strings of [l], one after the other. *)
Definition join (l : list string) : string := fold_right append "" l.

(** The characters every token class is made of: digits, letters and the
    symbols. *)
Definition significant (c : ascii) : bool :=
  is_digit c || is_letter c || is_symbol c.

(** Expressions of the standard keys: literals, [+ - * /] and
    parentheses. *)
Fixpoint standard (e : expr) : bool :=
  match e with
  | Lit _ => true
  | Bin o a b =>
      match o with Rem | Pow => false | _ => true end
      && standard a && standard b
  | Paren e' => standard e'
  | _ => false
  end.

(** The characters such expressions are written with. *)
Definition plain (c : ascii) : bool :=
  (is_digit c || (code c =? 46) || (code c =? 43) || (code c =? 45)
   || (code c =? 42) || (code c =? 47) || (code c =? 40) || (code c =? 41))%N.

(** The characters of the string of a number: digits, [. e + -] and the
    letters of [NaN] and [Infinity]. *)
Definition result_char (c : ascii) : bool :=
  is_digit c
  || existsb (N.eqb (code c)) [46; 101; 43; 45; 78; 97; 73; 110; 102; 105; 116; 121]%N.

(** The keys that are the texts the [=] key rewrites into a [Math.]
    name. *)
Definition math_keys : list string :=
  ["√"; "sin"; "cos"; "tan"; "log"; "ln"; "π"; "e"].

(** The keys that put their own label on the display: all but [C], [=],
    [DEL], the function keys and [x²]. *)
Definition typing_keys : list string :=
  filter
    (fun v =>
       negb (existsb (String.eqb v)
               ["C"; "="; "DEL"; "sin"; "cos"; "tan"; "log"; "ln"; "√"; "x²"]))
    (Calculator.standardButtons ++ Calculator.scientificButtons).

(** The decimal exponent [Number::toString] starts from: the [n] with
    [10 ^ (n - 1) <= x < 10 ^ n], for a finite [x]. *)
Definition decimal_exponent_of (x : JS.number) : Z :=
  match x with
  | S754_finite _ m e =>
      Print.decimal_exponent (if 0 <=? e then Zpos m * 2 ^ e else Zpos m)
        (if 0 <=? e then 1 else 2 ^ (- e))
  | _ => 0
  end.

(** Whether the products [1 * 2 * ... * j], for [j] from [k + 1] to
    [k + count], are positive finite numbers of a decimal exponent above
    21; [product] is the product up to [k]. *)
Fixpoint exponents_above (count k : nat) (product : JS.number) : bool :=
  match count with
  | O => true
  | S count' =>
      let next := JS.mul product (JS.of_Z (Z.of_nat (S k))) in
      match next with
      | S754_finite false _ _ => 21 <? decimal_exponent_of next
      | _ => false
      end
      && exponents_above count' (S k) next
  end.

(** The keys that type [s], one for each character. *)
Fixpoint keys_of (s : string) : list string :=
  match s with
  | String c r => String c "" :: keys_of r
  | "" => []
  end.

(** A text that the display ['0'] takes as it is typed: the first key
    replaces the zero unless it is the point, and a zero that was typed is
    replaced in its turn unless the point follows. *)
Definition typed_as_written (s : string) : bool :=
  match s with
  | String c r =>
      negb (code c =? 46)%N
      && (negb (code c =? 48)%N
          || match r with String c2 _ => (code c2 =? 46)%N | "" => true end)
  | "" => false
  end.

(** ** An operator with nothing before it *)

(** [e] with the operand [z] put before it by the operator [o]: [z o e] as
    the precedence table reads it. *)
Fixpoint graft (o : binop) (z e : expr) : expr :=
  match e with
  | Bin o1 a b => if gives_way o1 o then Bin o1 (graft o z a) b else Bin o z e
  | _ => Bin o z e
  end.

(** The postfix form of [o e], where [o] has no left operand: that of
    [z o e] without [z]. *)
Fixpoint lead (o : binop) (e : expr) : list string :=
  match e with
  | Bin o1 a b =>
      if gives_way o1 o then lead o a ++ postfix b ++ [op_text o1]
      else postfix e ++ [op_text o]
  | _ => postfix e ++ [op_text o]
  end.

(** Whether the leftmost operand of [e] is a parenthesised expression. *)
Fixpoint opens_with_parenthesis (e : expr) : bool :=
  match e with
  | Paren _ => true
  | Bin _ a _ => opens_with_parenthesis a
  | Fact e' => opens_with_parenthesis e'
  | _ => false
  end.

(** The keys that put something behind the display: all but [C], [=] and
    [DEL]. *)
Definition appending_keys : list string :=
  filter (fun v => negb (existsb (String.eqb v) ["C"; "="; "DEL"]))
    (Calculator.standardButtons ++ Calculator.scientificButtons).

(** Whether [display] holds one of the texts of [math_keys]. *)
Definition holds_math (display : string) : bool :=
  existsb (fun k => contains k display) math_keys.
(** * Properties *)

Ltac by_computation := vm_compute; reflexivity.

(** ** Numbers *)

Lemma same_eq (a b : JS.number) : Print.same a b = true -> a = b.
Proof.
  destruct a as [s| s | | s m e], b as [t | t | | t n f]; simpl; try discriminate; auto.
  - intros H. apply Bool.eqb_prop in H. now subst.
  - intros H. apply Bool.eqb_prop in H. now subst.
  - intros H. apply andb_prop in H as [H He]. apply andb_prop in H as [Hs Hm].
    apply Bool.eqb_prop in Hs. apply Pos.eqb_eq in Hm. apply Z.eqb_eq in He.
    now subst.
Qed.

Lemma digits2_pos_gt (m : positive) : Zpos m < 2 ^ Zpos (digits2_pos m).
Proof.
  induction m as [p IH | p IH |]; simpl digits2_pos.
  - rewrite Pos2Z.inj_succ, Z.pow_succ_r by lia. lia.
  - rewrite Pos2Z.inj_succ, Z.pow_succ_r by lia. lia.
  - reflexivity.
Qed.

Lemma valid_mantissa_lt (s : bool) (m : positive) (e : Z) :
  valid_binary JS.prec JS.emax (S754_finite s m e) = true -> Zpos m < 2 ^ 53.
Proof.
  cbv [valid_binary bounded canonical_mantissa fexp emin JS.prec JS.emax].
  intros H. apply andb_prop in H as [H _]. apply Z.eqb_eq in H.
  assert (Hd : Zpos (digits2_pos m) <= 53) by lia.
  apply Z.lt_le_trans with (2 ^ Zpos (digits2_pos m)); [apply digits2_pos_gt|].
  apply Z.pow_le_mono_r; lia.
Qed.

Lemma loop_leaves_enough (fuel : nat) :
  forall limit i r extra, loop_leaves fuel limit i = true ->
  factorial_loop (fuel + extra) limit i r = factorial_loop fuel limit i r.
Proof.
  induction fuel as [| fuel IH]; intros limit i r extra H; simpl in *.
  - destruct extra; simpl; [reflexivity|].
    now destruct (JS.le i limit).
  - destruct (JS.le i limit); [now apply IH | reflexivity].
Qed.

Lemma factorial_table :
  forallb (fun k => Print.same (factorial_loop 170 (JS.of_Z (Z.of_nat k)) (JS.of_Z 2) (JS.of_Z 1)) (product_upto k)
                    && loop_leaves 170 (JS.of_Z (Z.of_nat k)) (JS.of_Z 2))
    (seq 0 171) = true.
Proof. by_computation. Qed.

Lemma factorial_exact_table :
  forallb (fun k => Print.same (product_upto k) (JS.of_Z (factorial k))) (seq 0 28) = true.
Proof. by_computation. Qed.

Lemma products_within_spec (num : Z) (count : nat) :
  forall k product exact,
  products_within num count k product exact = true ->
  product = product_upto k -> exact = factorial k ->
  forall j, (k <= j < k + count)%nat ->
  within num (product_upto j) (factorial j) = true.
Proof.
  induction count as [| count IH]; intros k product exact H Hp He j Hj; [lia|].
  cbn [products_within] in H. apply andb_prop in H as [Hk Hrest].
  destruct (Nat.eq_dec j k) as [-> | Hne]; [now rewrite <- Hp, <- He|].
  apply (IH (S k) _ _ Hrest); [now rewrite Hp | now rewrite He | lia].
Qed.

Lemma products_exact_table : products_within 0 23 0 (JS.of_Z 1) 1 = true.
Proof. by_computation. Qed.

Lemma products_near_table : products_within 8 171 0 (JS.of_Z 1) 1 = true.
Proof. by_computation. Qed.


Lemma ltb_false_finite (m0 m : positive) (e0 e : Z) :
  SFltb (S754_finite false m0 e0) (S754_finite false m e) = false ->
  e < e0 \/ (e = e0 /\ Zpos m <= Zpos m0).
Proof.
  unfold SFltb, SFcompare. intros H.
  destruct (Z.compare_spec e0 e) as [He | He | He]; try discriminate.
  - subst e. right. split; [reflexivity|].
    rewrite Pos.compare_cont_spec in H. unfold Pos.switch_Eq in H.
    destruct (Pos.compare_spec m0 m) as [Hc | Hc | Hc];
      try discriminate; lia.
  - left. lia.
Qed.

Lemma lt_170_finite (m : positive) (e : Z) :
  JS.lt (JS.of_Z 170) (S754_finite false m e) = false ->
  e < -45 \/ (e = -45 /\ Zpos m <= 5981343255101440).
Proof. apply ltb_false_finite. Qed.

Lemma floor_in_range (m : positive) (e : Z) :
  valid_binary JS.prec JS.emax (S754_finite false m e) = true ->
  JS.lt (JS.of_Z 170) (S754_finite false m e) = false ->
  0 <= floor_int (S754_finite false m e) <= 170
  /\ JS.Math_floor (S754_finite false m e) = JS.of_Z (floor_int (S754_finite false m e)).
Proof.
  intros Hv H170.
  apply valid_mantissa_lt in Hv. apply lt_170_finite in H170.
  assert (He : e <= -45) by lia.
  unfold floor_int, JS.Math_floor.
  destruct (Z.leb_spec 0 e) as [H0 | H0]; [lia|].
  unfold cond_Zopp. split; [|reflexivity].
  assert (Hp : 0 < 2 ^ (- e)) by (apply Z.pow_pos_nonneg; lia).
  split; [apply Z.div_pos; lia|].
  destruct H170 as [Hlt | [-> Hm]].
  - assert (Hq : 2 ^ 46 <= 2 ^ (- e)) by (apply Z.pow_le_mono_r; lia).
    assert (Zpos m / 2 ^ (- e) < 128); [|lia].
    apply Z.div_lt_upper_bound; [lia|].
    apply Z.lt_le_trans with (2 ^ 46 * 128); [exact Hv|].
    apply Z.mul_le_mono_nonneg_r; [lia | exact Hq].
  - change (- -45) with 45.
    change 170 with (5981343255101440 / 2 ^ 45).
    apply Z.div_le_mono; lia.
Qed.

Lemma table_lookup (k : Z) :
  0 <= k <= 170 ->
  factorial_loop 170 (JS.of_Z k) (JS.of_Z 2) (JS.of_Z 1) = product_upto (Z.to_nat k)
  /\ loop_leaves 170 (JS.of_Z k) (JS.of_Z 2) = true.
Proof.
  intros Hk.
  assert (H := proj1 (forallb_forall _ _) factorial_table (Z.to_nat k)).
  cbv beta in H. rewrite Z2Nat.id in H by lia.
  apply andb_prop in H as [H1 H2]; [| apply in_seq; lia].
  split; [now apply same_eq | exact H2].
Qed.

Theorem factorialFn_product (x : JS.number) :
  valid_binary JS.prec JS.emax x = true ->
  JS.lt x (JS.of_Z 0) = false -> JS.lt (JS.of_Z 170) x = false ->
  JS.isNaN x = false ->
  0 <= floor_int x <= 170
  /\ factorialFn (JS.num x) = product_upto (Z.to_nat (floor_int x)).
Proof.
  intros Hv H0 H170 Hnan.
  unfold factorialFn. cbn [JS.ToNumber]. rewrite H0, H170. cbn [orb].
  destruct x as [s | s | | s m e]; try discriminate.
  - split; [simpl; lia|]. now destruct s.
  - destruct s; discriminate.
  - destruct s; [discriminate|].
    destruct (floor_in_range m e Hv H170) as [Hk Hf].
    split; [exact Hk|].
    change (JS.strict_eq (S754_finite false m e) (JS.of_Z 0)) with false. cbv iota.
    rewrite Hf. now apply table_lookup.
Qed.
(** The loop of [factorialFn] leaves by its condition: more fuel changes
    nothing. *)
Lemma factorial_loop_fuel (n : JS.number) (extra : nat) :
  valid_binary JS.prec JS.emax n = true ->
  JS.lt n (JS.of_Z 0) = false -> JS.lt (JS.of_Z 170) n = false ->
  factorial_loop (170 + extra) (JS.Math_floor n) (JS.of_Z 2) (JS.of_Z 1)
  = factorial_loop 170 (JS.Math_floor n) (JS.of_Z 2) (JS.of_Z 1).
Proof.
  intros Hv H0 H170. apply loop_leaves_enough.
  destruct n as [s | s | | s m e].
  - now destruct s.
  - destruct s; discriminate.
  - reflexivity.
  - destruct s; [discriminate|].
    destruct (floor_in_range m e Hv H170) as [Hk ->].
    now apply table_lookup.
Qed.

(** ** Strings *)

Lemma append_nil_r (s : string) : (s ++ "")%string = s.
Proof. induction s as [| c s IH]; simpl; congruence. Qed.

Lemma append_assoc (a b c : string) :
  ((a ++ b) ++ c)%string = (a ++ (b ++ c))%string.
Proof. induction a as [| x a IH]; simpl; congruence. Qed.

Lemma length_append (a b : string) :
  String.length (a ++ b) = (String.length a + String.length b)%nat.
Proof. induction a as [| x a IH]; simpl; congruence. Qed.

Lemma is_empty_true (s : string) : is_empty s = true -> s = "".
Proof. now destruct s. Qed.

Lemma is_empty_length (s : string) :
  is_empty s = false -> (0 < String.length s)%nat.
Proof. destruct s; [discriminate | simpl; lia]. Qed.

Lemma span_spec (p : ascii -> bool) (s : string) :
  forall a b, span p s = (a, b) ->
  s = (a ++ b)%string /\ all_chars p a = true /\ stops p b = true.
Proof.
  induction s as [| c s IH]; simpl; intros a b H.
  - injection H as <- <-. auto.
  - destruct (p c) eqn:Hc.
    + destruct (span p s) as [a' b'] eqn:Hs. injection H as <- <-.
      destruct (IH a' b' eq_refl) as (-> & Ha & Hb). simpl. rewrite Hc. auto.
    + injection H as <- <-. simpl. rewrite Hc. auto.
Qed.

Lemma span_app (p : ascii -> bool) (a b : string) :
  all_chars p a = true -> stops p b = true -> span p (a ++ b) = (a, b).
Proof.
  induction a as [| c a IH]; simpl; intros Ha Hb.
  - destruct b as [| c b]; [reflexivity|]. simpl in *.
    now rewrite (proj1 (negb_true_iff _) Hb).
  - apply andb_prop in Ha as [Hc Ha]. now rewrite Hc, IH.
Qed.

Ltac chars :=
  unfold inert, Parse.is_ascii_space, is_symbol, is_letter, is_upper, is_lower,
    is_digit in *;
  repeat rewrite ?orb_true_iff, ?andb_true_iff, ?orb_false_iff, ?andb_false_iff,
    ?negb_true_iff, ?negb_false_iff, ?N.eqb_eq, ?N.eqb_neq, ?N.leb_le, ?N.leb_gt in *;
  lia.

Lemma symbol_not_digit (c : ascii) : is_symbol c = true -> is_digit c = false.
Proof. chars. Qed.
Lemma symbol_not_point (c : ascii) : is_symbol c = true -> (code c =? 46)%N = false.
Proof. chars. Qed.
Lemma symbol_not_letter (c : ascii) : is_symbol c = true -> is_letter c = false.
Proof. chars. Qed.
Lemma symbol_not_pi (c : ascii) : is_symbol c = true -> (code c =? 207)%N = false.
Proof. chars. Qed.

(** ** Tokenizer *)

Lemma match_number_spec (s t r : string) :
  match_number s = Some (t, r) ->
  s = (t ++ r)%string /\ is_empty t = false.
Proof.
  unfold match_number.
  destruct (span is_digit s) as [d1 r1] eqn:H1.
  apply span_spec in H1 as (Hs & Hd1 & Hr1).
  destruct (is_empty d1) eqn:He; cbn [negb].
  - apply is_empty_true in He. subst d1. simpl in Hs. subst r1.
    destruct s as [| c s']; [discriminate|].
    destruct (code c =? 46)%N; [|discriminate].
    destruct (span is_digit s') as [d r'] eqn:H2.
    apply span_spec in H2 as (Hs' & _ & _).
    destruct (is_empty d) eqn:Hd; [discriminate|].
    intros [= <- <-]. simpl. now rewrite Hs'.
  - destruct r1 as [| c r2].
    + intros [= <- <-]. auto.
    + destruct (code c =? 46)%N.
      * destruct (span is_digit r2) as [d2 r3] eqn:H2.
        apply span_spec in H2 as (Hs' & _ & _).
        intros [= <- <-]. subst. split.
        -- rewrite append_assoc. reflexivity.
        -- destruct d1; [discriminate | reflexivity].
      * intros [= <- <-]. auto.
Qed.

Lemma span_word_spec (s : string) :
  forall w r, span_word s = (w, r) -> s = (w ++ r)%string.
Proof.
  induction s as [s IH] using (well_founded_induction
    (Wf_nat.well_founded_ltof _ String.length)).
  intros w r. destruct s as [| c s']; simpl.
  - intros [= <- <-]. reflexivity.
  - destruct (is_letter c).
    + destruct (span_word s') as [w' r'] eqn:H. intros [= <- <-].
      simpl. f_equal. apply IH; [unfold Wf_nat.ltof; simpl; lia | exact H].
    + destruct s' as [| c2 s2]; [intros [= <- <-]; reflexivity|].
      destruct ((code c =? 207)%N && (code c2 =? 128)%N).
      * destruct (span_word s2) as [w' r'] eqn:H. intros [= <- <-].
        simpl. do 2 f_equal. apply IH; [unfold Wf_nat.ltof; simpl; lia | exact H].
      * intros [= <- <-]. reflexivity.
Qed.

Lemma tokenize_fuel (f1 : nat) :
  forall f2 s, (String.length s <= f1)%nat -> (String.length s <= f2)%nat ->
  tokenize f1 s = tokenize f2 s.
Proof.
  induction f1 as [| f1 IH]; intros f2 s H1 H2.
  - destruct s; [|simpl in H1; lia]. now destruct f2.
  - destruct f2 as [| f2]; [destruct s; [reflexivity | simpl in H2; lia]|].
    destruct s as [| c r]; [reflexivity|].
    cbn [tokenize]. simpl in H1, H2.
    destruct (match_number (String c r)) as [[t rest] |] eqn:Hn.
    + apply match_number_spec in Hn as [Hs Ht].
      apply is_empty_length in Ht.
      assert (Hl := f_equal String.length Hs). rewrite length_append in Hl.
      simpl in Hl. f_equal. apply IH; lia.
    + destruct (span_word (String c r)) as [w rest] eqn:Hw.
      apply span_word_spec in Hw.
      assert (Hl := f_equal String.length Hw). rewrite length_append in Hl.
      simpl in Hl.
      destruct (is_empty w) eqn:He; cbn [negb].
      * destruct (is_symbol c); [f_equal|]; apply IH; lia.
      * apply is_empty_length in He. f_equal. apply IH; lia.
Qed.

Lemma tokens_of_number (s t r : string) :
  match_number s = Some (t, r) -> tokens_of s = t :: tokens_of r.
Proof.
  intros H. unfold tokens_of.
  destruct (match_number_spec _ _ _ H) as [Hs Ht].
  apply is_empty_length in Ht.
  assert (Hl := f_equal String.length Hs). rewrite length_append in Hl.
  destruct s as [| c s']; [simpl in Hl; lia|].
  cbn [String.length tokenize]. rewrite H. f_equal.
  apply tokenize_fuel; simpl in Hl; lia.
Qed.

Lemma tokens_of_symbol (c : ascii) (r : string) :
  is_symbol c = true -> tokens_of (String c r) = String c "" :: tokens_of r.
Proof.
  intros H. unfold tokens_of. cbn [String.length tokenize].
  unfold match_number. cbn [span].
  rewrite (symbol_not_digit c H). cbn [is_empty negb].
  rewrite (symbol_not_point c H).
  cbn [span_word]. rewrite (symbol_not_letter c H), (symbol_not_pi c H).
  cbn [andb]. destruct r; cbn [is_empty negb]; now rewrite H.
Qed.
(** ** Tokens of an expression *)

Lemma some_digits_spec (d : string) :
  some_digits d = true ->
  exists c r, d = String c r /\ is_digit c = true /\ all_chars is_digit r = true.
Proof.
  unfold some_digits. destruct d as [| c r]; [discriminate|].
  simpl. intros H. apply andb_prop in H. eauto.
Qed.

Lemma boundary_stops_digits (s : string) :
  boundary s = true -> stops is_digit s = true.
Proof. destruct s as [| c s]; [reflexivity|]. unfold boundary, is_blank. simpl. chars. Qed.

Lemma boundary_no_point (c : ascii) (s : string) :
  boundary (String c s) = true -> (code c =? 46)%N = false.
Proof. unfold boundary, is_blank. chars. Qed.

Lemma boundary_blanks (sep rest : string) :
  all_chars is_blank sep = true -> boundary rest = true ->
  boundary (sep ++ rest) = true.
Proof.
  destruct sep as [| c sep]; [auto|]. simpl. intros H _.
  apply andb_prop in H as [-> _]. apply orb_true_r.
Qed.

Lemma match_number_literal (l : literal) (rest : string) :
  literal_ok l = true -> boundary rest = true ->
  match_number (literal_text l ++ rest) = Some (literal_text l, rest).
Proof.
  intros Hl Hr. assert (Hd := boundary_stops_digits rest Hr).
  unfold match_number.
  destruct l as [d | d f | f]; simpl in Hl |- *.
  - destruct (some_digits_spec d Hl) as (c & r & -> & Hc & Hdr).
    rewrite span_app; [| simpl; now rewrite Hc | exact Hd].
    cbn [is_empty negb].
    destruct rest as [| x rest]; [reflexivity|].
    now rewrite (boundary_no_point x rest Hr).
  - apply andb_prop in Hl as [Hl Hf].
    destruct (some_digits_spec d Hl) as (c & r & -> & Hc & Hdr).
    rewrite append_assoc.
    rewrite span_app; [| simpl; now rewrite Hc | reflexivity].
    cbn [is_empty negb append].
    change (code "." =? 46)%N with true. cbv iota.
    rewrite span_app by assumption. reflexivity.
  - destruct (some_digits_spec f Hl) as (c & r & -> & Hc & Hdr).
    change (span is_digit (String "." (String c r ++ rest)))
      with ("", String "." (String c r ++ rest)).
    cbn [is_empty negb]. change (code "." =? 46)%N with true. cbv iota.
    rewrite span_app; [reflexivity | simpl; now rewrite Hc | exact Hd].
Qed.

Lemma tokens_of_literal (l : literal) (rest : string) :
  literal_ok l = true -> boundary rest = true ->
  tokens_of (literal_text l ++ rest) = literal_text l :: tokens_of rest.
Proof.
  intros Hl Hr. apply tokens_of_number. now apply match_number_literal.
Qed.

Lemma span_word_stop (c : ascii) (r : string) :
  is_letter c = false -> (code c =? 207)%N = false ->
  span_word (String c r) = ("", String c r).
Proof. intros Hl Hp. cbn [span_word]. rewrite Hl, Hp. now destruct r. Qed.

Lemma match_number_stop (c : ascii) (r : string) :
  is_digit c = false -> (code c =? 46)%N = false ->
  match_number (String c r) = None.
Proof. intros Hd Hp. unfold match_number. cbn [span]. now rewrite Hd, Hp. Qed.

(** A blank is stepped over. *)
Lemma tokens_of_blank (c : ascii) (r : string) :
  is_blank c = true -> tokens_of (String c r) = tokens_of r.
Proof.
  intros H. unfold tokens_of. cbn [String.length tokenize].
  rewrite match_number_stop, span_word_stop by (unfold is_blank in H; chars).
  cbn [is_empty negb].
  replace (is_symbol c) with false; [reflexivity|].
  unfold is_blank in H. symmetry.
  rewrite negb_true_iff in H. repeat (apply orb_false_elim in H as [H ?]).
  assumption.
Qed.

Lemma tokens_of_blanks (sep r : string) :
  all_chars is_blank sep = true -> tokens_of (sep ++ r) = tokens_of r.
Proof.
  induction sep as [| c sep IH]; [reflexivity|]. simpl. intros H.
  apply andb_prop in H as [Hc Hs]. rewrite tokens_of_blank by exact Hc. auto.
Qed.

Lemma span_word_boundary (rest : string) :
  boundary rest = true -> span_word rest = ("", rest).
Proof.
  destruct rest as [| c r]; [reflexivity|]. intros H.
  apply span_word_stop; unfold boundary, is_blank in H; chars.
Qed.

Lemma span_word_letters (w rest : string) :
  all_chars is_letter w = true -> boundary rest = true ->
  span_word (w ++ rest) = (w, rest).
Proof.
  intros Hw Hr. induction w as [| c w IH]; [now apply span_word_boundary|].
  simpl in Hw. apply andb_prop in Hw as [Hc Hw].
  cbn [append span_word]. now rewrite Hc, IH.
Qed.

Lemma tokens_of_word_at (s w rest : string) :
  match_number s = None -> span_word s = (w, rest) -> is_empty w = false ->
  tokens_of s = w :: tokens_of rest.
Proof.
  intros Hn Hw He. unfold tokens_of.
  assert (Hs := span_word_spec _ _ _ Hw).
  apply is_empty_length in He.
  assert (Hl := f_equal String.length Hs). rewrite length_append in Hl.
  destruct s as [| c s']; [simpl in Hl; lia|].
  cbn [String.length tokenize]. rewrite Hn, Hw.
  destruct w; [simpl in He; lia|]. cbn [is_empty negb]. f_equal.
  apply tokenize_fuel; simpl in Hl; lia.
Qed.

(** A word of letters is one token when a symbol or a blank follows. *)
Lemma tokens_of_letters (c : ascii) (w rest : string) :
  all_chars is_letter (String c w) = true -> boundary rest = true ->
  tokens_of (String c w ++ rest) = String c w :: tokens_of rest.
Proof.
  intros Hw Hr. apply tokens_of_word_at.
  - simpl in Hw. apply andb_prop in Hw as [Hc _].
    apply match_number_stop; chars.
  - now apply span_word_letters.
  - reflexivity.
Qed.

Lemma tokens_of_greek_pi (rest : string) :
  boundary rest = true -> tokens_of ("π" ++ rest) = "π" :: tokens_of rest.
Proof.
  intros Hr. apply tokens_of_word_at.
  - reflexivity.
  - cbn [append span_word]. change (is_letter "207") with false. cbv iota.
    change ((code "207" =? 207)%N && (code "128" =? 128)%N) with true. cbv iota.
    now rewrite span_word_boundary.
  - reflexivity.
Qed.

Lemma tokens_of_constant (c : constant) (rest : string) :
  boundary rest = true ->
  tokens_of (constant_text c ++ rest) = constant_text c :: tokens_of rest.
Proof.
  intros Hr. destruct c; try (now apply tokens_of_letters).
  now apply tokens_of_greek_pi.
Qed.

Lemma tokens_of_func (f : func) (rest : string) :
  boundary rest = true ->
  tokens_of (func_text f ++ rest) = func_text f :: tokens_of rest.
Proof. intros Hr. destruct f; now apply tokens_of_letters. Qed.

Lemma op_text_symbol (o : binop) :
  exists c, op_text o = String c "" /\ is_symbol c = true.
Proof. destruct o; eexists; split; reflexivity. Qed.

(** A token, then [sep], then a symbol. *)
Lemma boundary_symbol (sep : string) (c : ascii) (rest : string) :
  all_chars is_blank sep = true -> is_symbol c = true ->
  boundary (sep ++ String c rest) = true.
Proof. intros Hs Hc. apply boundary_blanks; [exact Hs|]. simpl. now rewrite Hc. Qed.

Lemma tokens_of_sep_symbol (sep : string) (c : ascii) (rest : string) :
  all_chars is_blank sep = true -> is_symbol c = true ->
  tokens_of (sep ++ String c rest) = String c "" :: tokens_of rest.
Proof.
  intros Hs Hc. rewrite tokens_of_blanks by exact Hs. now apply tokens_of_symbol.
Qed.

Lemma tokens_of_text (sep : string) (e : expr) :
  all_chars is_blank sep = true -> well_formed e = true ->
  forall rest, boundary rest = true ->
  tokens_of (text sep e ++ rest) = lexemes e ++ tokens_of rest.
Proof.
  intros Hsep.
  induction e as [l | c | o a IHa b IHb | e IH | f e IH | e IH];
    cbn [text lexemes well_formed]; intros Hw rest Hr.
  - now apply tokens_of_literal.
  - now apply tokens_of_constant.
  - apply andb_prop in Hw as [Hw _]. apply andb_prop in Hw as [Ha Hb].
    destruct (op_text_symbol o) as (c & -> & Hc).
    rewrite !append_assoc. cbn [append].
    rewrite IHa; [| exact Ha | now apply boundary_symbol].
    rewrite <- app_assoc. f_equal.
    rewrite tokens_of_sep_symbol by assumption. cbn [app]. f_equal.
    rewrite tokens_of_blanks by exact Hsep. now apply IHb.
  - rewrite !append_assoc. cbn [append]. rewrite tokens_of_symbol by reflexivity.
    rewrite tokens_of_blanks by exact Hsep.
    rewrite IH; [| exact Hw | now apply boundary_symbol].
    cbn [app]. rewrite <- app_assoc. cbn [app]. do 2 f_equal.
    now rewrite tokens_of_sep_symbol.
  - rewrite !append_assoc. cbn [append].
    rewrite tokens_of_func by now apply boundary_symbol.
    rewrite tokens_of_sep_symbol by auto. cbn [app]. do 2 f_equal.
    rewrite tokens_of_blanks by exact Hsep.
    rewrite IH; [| exact Hw | now apply boundary_symbol].
    rewrite <- app_assoc. f_equal. cbn [app]. now rewrite tokens_of_sep_symbol.
  - apply andb_prop in Hw as [Hw _].
    rewrite !append_assoc. cbn [append].
    rewrite IH; [| exact Hw | now apply boundary_symbol].
    rewrite <- app_assoc. f_equal. now rewrite tokens_of_sep_symbol.
Qed.

Lemma tokens_of_nil : tokens_of "" = [].
Proof. reflexivity. Qed.

Lemma tokens_of_expr (sep : string) (e : expr) :
  all_chars is_blank sep = true -> well_formed e = true ->
  tokens_of (text sep e) = lexemes e.
Proof.
  intros Hs Hw. rewrite <- (append_nil_r (text sep e)).
  rewrite tokens_of_text by auto. rewrite tokens_of_nil. apply app_nil_r.
Qed.

(** ** Rounding never yields NaN *)

Lemma shr_1_nonneg (r : shr_record) : 0 <= shr_m r -> 0 <= shr_m (shr_1 r).
Proof.
  destruct r as [m b s]. simpl. destruct m as [| p | p]; simpl; try lia.
  - destruct p; simpl; lia.
Qed.

Lemma iter_shr_1_nonneg (p : positive) :
  forall r, 0 <= shr_m r -> 0 <= shr_m (iter_pos shr_1 p r).
Proof.
  induction p as [p IH | p IH |]; intros r Hr; simpl.
  - apply IH, IH. now apply shr_1_nonneg.
  - now apply IH, IH.
  - now apply shr_1_nonneg.
Qed.

Lemma shr_fexp_nonneg (m e : Z) (l : location) :
  0 <= m -> 0 <= shr_m (fst (shr_fexp JS.prec JS.emax m e l)).
Proof.
  intros Hm. unfold shr_fexp, shr.
  assert (H0 : 0 <= shr_m (shr_record_of_loc m l)).
  { destruct l as [| []]; exact Hm. }
  destruct (fexp JS.prec JS.emax (Zdigits2 m + e) - e); simpl; auto.
  now apply iter_shr_1_nonneg.
Qed.

Lemma binary_round_aux_not_NaN (s : bool) (m e : Z) (l : location) :
  0 <= m -> JS.isNaN (binary_round_aux JS.prec JS.emax s m e l) = false.
Proof.
  intros Hm. unfold binary_round_aux.
  assert (H1 := shr_fexp_nonneg m e l Hm).
  destruct (shr_fexp JS.prec JS.emax m e l) as [mrs' e'].
  simpl in H1.
  assert (H2 : 0 <= round_nearest_even (shr_m mrs') (loc_of_shr_record mrs')).
  { unfold round_nearest_even.
    destruct (loc_of_shr_record mrs') as [| []]; try lia.
    destruct (Z.even (shr_m mrs')); lia. }
  assert (H3 := shr_fexp_nonneg _ e' loc_Exact H2).
  destruct (shr_fexp JS.prec JS.emax
              (round_nearest_even (shr_m mrs') (loc_of_shr_record mrs')) e' loc_Exact)
    as [mrs'' e''].
  simpl in H3. destruct (shr_m mrs''); [reflexivity | | lia].
  now destruct (e'' <=? JS.emax - JS.prec).
Qed.

Lemma of_Z_not_NaN (z : Z) : JS.isNaN (JS.of_Z z) = false.
Proof.
  unfold JS.of_Z, binary_normalize, binary_round.
  destruct z as [| p | p]; [reflexivity | |];
    destruct (shl_align p 0 _); now apply binary_round_aux_not_NaN.
Qed.

Lemma of_decimal_not_NaN (m e : Z) : JS.isNaN (JS.of_decimal m e) = false.
Proof.
  unfold JS.of_decimal. destruct (Z.leb_spec 0 e) as [He | He]; [apply of_Z_not_NaN|].
  destruct m as [| p | p]; try reflexivity.
  unfold SFdiv_core_binary.
  match goal with |- context [Z.div_eucl ?a ?b] =>
    assert (Hq : 0 <= a / b); [| unfold Z.div in Hq; destruct (Z.div_eucl a b) as [q r]]
  end.
  - apply Z.div_pos; [| apply Z.pow_pos_nonneg; lia].
    destruct (_ - _); try lia. rewrite Z.shiftl_mul_pow2 by lia.
    apply Z.mul_nonneg_nonneg; [lia|]. apply Z.pow_nonneg. lia.
  - now apply binary_round_aux_not_NaN.
Qed.
(** ** Reading literals *)

Lemma trim_start_inert (c : ascii) (r : string) :
  inert c = true -> Parse.trim_start (String c r) = String c r.
Proof.
  unfold inert. intros H.
  repeat (apply andb_prop in H as [H ?]).
  rewrite negb_true_iff in *.
  cbn [Parse.trim_start]. rewrite H.
  destruct r as [| c2 r2]; [reflexivity|].
  replace (code c =? 194)%N with false by auto. cbn [andb].
  destruct r2 as [| c3 r3]; [reflexivity|].
  replace (code c =? 225)%N with false by auto.
  replace (code c =? 226)%N with false by auto.
  replace (code c =? 227)%N with false by auto.
  replace (code c =? 239)%N with false by auto.
  reflexivity.
Qed.

Lemma trim_end_inert (s : string) :
  all_chars inert s = true -> Parse.trim_end s = s.
Proof.
  induction s as [| c r IH]; [reflexivity|]. simpl all_chars. intros H.
  apply andb_prop in H as [Hc Hr].
  cbn [Parse.trim_end]. rewrite (trim_start_inert c r Hc).
  cbn [is_empty]. now rewrite IH.
Qed.

Lemma trim_inert (c : ascii) (r : string) :
  all_chars inert (String c r) = true -> Parse.trim (String c r) = String c r.
Proof.
  intros H. unfold Parse.trim.
  rewrite trim_start_inert by (simpl in H; now apply andb_prop in H).
  now apply trim_end_inert.
Qed.

Lemma all_chars_impl (p q : ascii -> bool) (s : string) :
  (forall c, p c = true -> q c = true) -> all_chars p s = true -> all_chars q s = true.
Proof.
  intros Hpq. induction s as [| c r IH]; [reflexivity|]. simpl. intros H.
  apply andb_prop in H as [Hc Hr]. now rewrite (Hpq c Hc), IH.
Qed.

Lemma digit_inert (c : ascii) : is_digit c = true -> inert c = true.
Proof. chars. Qed.

Lemma span_all (p : ascii -> bool) (s : string) :
  all_chars p s = true -> span p s = (s, "").
Proof.
  intros H. rewrite <- (append_nil_r s) at 1. now apply span_app.
Qed.

Lemma digit_not_I (c : ascii) : is_digit c = true -> Ascii.eqb "I" c = false.
Proof. intros H. apply Ascii.eqb_neq. intros <-. discriminate. Qed.

Lemma scan_unsigned_whole (c : ascii) (r : string) :
  is_digit c = true -> all_chars is_digit r = true ->
  Parse.scan_unsigned (String c r)
  = Some (JS.of_decimal (digits_value 10 0 (String c r)) 0, "").
Proof.
  intros Hc Hr. unfold Parse.scan_unsigned.
  cbn [Parse.strip_prefix]. rewrite (digit_not_I c Hc).
  rewrite span_all by (simpl; now rewrite Hc). reflexivity.
Qed.

Lemma scan_unsigned_point (c : ascii) (r f : string) :
  is_digit c = true -> all_chars is_digit r = true ->
  all_chars is_digit f = true ->
  Parse.scan_unsigned (String c r ++ String "." f)
  = Some (JS.of_decimal (digits_value 10 0 (String c r ++ f))
            (- Z.of_nat (String.length f)), "").
Proof.
  intros Hc Hr Hf. unfold Parse.scan_unsigned.
  cbn [Parse.strip_prefix append]. rewrite (digit_not_I c Hc).
  change (String c (r ++ String "." f)) with (String c r ++ String "." f)%string.
  rewrite span_app; [| simpl; now rewrite Hc | reflexivity].
  change (code "." =? 46)%N with true. cbv iota.
  rewrite span_all by exact Hf.
  cbn [is_empty andb Parse.scan_exponent]. now rewrite Z.sub_0_l.
Qed.

Lemma scan_unsigned_fraction (f : string) :
  some_digits f = true ->
  Parse.scan_unsigned (String "." f)
  = Some (JS.of_decimal (digits_value 10 0 f) (- Z.of_nat (String.length f)), "").
Proof.
  intros Hf. destruct (some_digits_spec f Hf) as (c & r & -> & Hc & Hr).
  unfold Parse.scan_unsigned.
  change (Parse.strip_prefix "Infinity" (String "." (String c r))) with (@None string).
  change (span is_digit (String "." (String c r))) with ("", String "." (String c r)).
  change (code "." =? 46)%N with true. cbv iota.
  rewrite span_all by (simpl; now rewrite Hc).
  cbn [is_empty andb Parse.scan_exponent append]. now rewrite Z.sub_0_l.
Qed.

Lemma digit_no_sign (c : ascii) :
  is_digit c = true -> (code c =? 43)%N = false /\ (code c =? 45)%N = false.
Proof. chars. Qed.

Lemma parseFloat_literal (l : literal) :
  literal_ok l = true -> isNumber (literal_text l) = true ->
  Parse.parseFloat (literal_text l) = literal_value l.
Proof.
  destruct l as [d | d f | f]; simpl; intros Hl Hn.
  - destruct (some_digits_spec d Hl) as (c & r & -> & Hc & Hr).
    unfold Parse.parseFloat.
    rewrite trim_start_inert by now apply digit_inert.
    unfold Parse.scan_decimal. destruct (digit_no_sign c Hc) as [-> ->].
    now rewrite scan_unsigned_whole.
  - apply andb_prop in Hl as [Hl Hf].
    destruct (some_digits_spec d Hl) as (c & r & -> & Hc & Hr).
    unfold Parse.parseFloat. cbn [append].
    rewrite trim_start_inert by now apply digit_inert.
    unfold Parse.scan_decimal. destruct (digit_no_sign c Hc) as [-> ->].
    change (String c (r ++ String "." f)) with (String c r ++ String "." f)%string.
    now rewrite scan_unsigned_point.
  - discriminate.
Qed.

Lemma isNumber_literal (l : literal) :
  literal_ok l = true ->
  isNumber (literal_text l) = match l with Fraction _ => false | _ => true end.
Proof.
  destruct l as [d | d f | f]; simpl; intros Hl.
  - destruct (some_digits_spec d Hl) as (c & r & -> & Hc & Hr).
    unfold isNumber. rewrite span_all by (simpl; now rewrite Hc). reflexivity.
  - apply andb_prop in Hl as [Hl Hf].
    destruct (some_digits_spec d Hl) as (c & r & -> & Hc & Hr).
    unfold isNumber. rewrite span_app; [| simpl; now rewrite Hc | reflexivity].
    cbn [is_empty negb andb]. now rewrite Hf.
  - reflexivity.
Qed.

Lemma Number_fraction (f : string) :
  some_digits f = true ->
  Parse.Number (String "." f)
  = JS.of_decimal (digits_value 10 0 f) (- Z.of_nat (String.length f)).
Proof.
  intros Hf. unfold Parse.Number.
  assert (Hi : all_chars inert (String "." f) = true).
  { simpl. apply (all_chars_impl is_digit inert); [apply digit_inert|].
    unfold some_digits in Hf. now apply andb_prop in Hf. }
  rewrite trim_inert by exact Hi. cbn [is_empty].
  destruct (some_digits_spec f Hf) as (c & r & -> & Hc & Hr).
  change (Parse.non_decimal (String "." (String c r))) with (@None JS.number).
  unfold Parse.scan_decimal.
  change (code "." =? 43)%N with false. change (code "." =? 45)%N with false.
  cbv iota. now rewrite scan_unsigned_fraction.
Qed.
(** ** Constants and names *)

Lemma eqb_head (c c' : ascii) (r r' : string) :
  c <> c' -> (String c r =? String c' r')%string = false.
Proof. intros H. apply String.eqb_neq. congruence. Qed.

(** A token that starts with no letter and not with pi is left as it is. *)
Lemma normalize_other (c : ascii) (r : string) :
  is_letter c = false -> (code c =? 207)%N = false ->
  normalize (String c r) = String c r.
Proof.
  intros Hl Hp. unfold normalize.
  rewrite (eqb_head c _ r _) by (intros ->; discriminate).
  rewrite (eqb_head c "p" r _) by (intros ->; discriminate).
  rewrite (eqb_head c "P" r _) by (intros ->; discriminate).
  cbn [orb].
  rewrite (eqb_head c "e" r _) by (intros ->; discriminate).
  unfold is_name. cbn [is_empty negb all_chars]. now rewrite Hl.
Qed.

Lemma normalize_literal (l : literal) :
  literal_ok l = true -> normalize (literal_text l) = literal_text l.
Proof.
  destruct l as [d | d f | f]; simpl; intros Hl.
  - destruct (some_digits_spec d Hl) as (c & r & -> & Hc & _).
    apply normalize_other; chars.
  - apply andb_prop in Hl as [Hl _].
    destruct (some_digits_spec d Hl) as (c & r & -> & Hc & _).
    apply normalize_other; chars.
  - reflexivity.
Qed.

Lemma constant_token_text (c : constant) :
  constant_token c
  = match c with Euler => "2.718281828459045" | _ => "3.141592653589793" end.
Proof. destruct c; by_computation. Qed.

Lemma normalize_constant (c : constant) :
  normalize (constant_text c) = constant_token c.
Proof. destruct c; by_computation. Qed.

Lemma normalize_func (f : func) : normalize (func_text f) = func_text f.
Proof. destruct f; by_computation. Qed.

Lemma normalize_lexemes (e : expr) :
  well_formed e = true -> map normalize (lexemes e) = infix e.
Proof.
  induction e as [l | c | o a IHa b IHb | e IH | f e IH | e IH];
    cbn [lexemes infix well_formed map]; intros Hw.
  - now rewrite normalize_literal.
  - now rewrite normalize_constant.
  - apply andb_prop in Hw as [Hw _]. apply andb_prop in Hw as [Ha Hb].
    rewrite map_app. cbn [map]. rewrite IHa, IHb by assumption.
    now destruct o.
  - rewrite map_app. rewrite IH by assumption. reflexivity.
  - rewrite map_app. rewrite IH by assumption. now rewrite normalize_func.
  - apply andb_prop in Hw as [Hw _].
    rewrite map_app. rewrite IH by assumption. reflexivity.
Qed.

(** ** Shunting-yard on an expression *)

Lemma pop_while_all (cond : string -> bool) (xs : list string) :
  forall output ops,
  Forall (fun x => cond x = true) xs ->
  match ops with [] => True | top :: _ => cond top = false end ->
  pop_while cond output (xs ++ ops) = (output ++ xs, ops).
Proof.
  induction xs as [| x xs IH]; intros output ops Hxs Hops; simpl.
  - rewrite app_nil_r. destruct ops as [| top ops]; [reflexivity|].
    simpl. now rewrite Hops.
  - inversion Hxs as [| ? ? Hx Hxs']; subst. rewrite Hx.
    rewrite IH by assumption. now rewrite <- app_assoc.
Qed.

Lemma shunt_literal (l : literal) (output ops : list string) :
  literal_ok l = true ->
  shunt (output, ops) (literal_text l) = (output ++ [literal_text l], ops).
Proof.
  intros Hl. unfold shunt. rewrite (isNumber_literal l Hl).
  destruct l; reflexivity.
Qed.

Lemma shunt_constant (c : constant) (output ops : list string) :
  shunt (output, ops) (constant_token c) = (output ++ [constant_token c], ops).
Proof. rewrite constant_token_text. destruct c; reflexivity. Qed.

Lemma shunt_func (f : func) (output ops : list string) :
  shunt (output, ops) (func_text f) = (output, func_text f :: ops).
Proof. destruct f; reflexivity. Qed.

Lemma shunt_operator (o : binop) (output ops : list string) :
  shunt (output, ops) (op_text o)
  = (let (output1, ops1) := pop_while (yields (op_text o)) output ops in
     (output1, op_text o :: ops1)).
Proof. destruct o; reflexivity. Qed.

Lemma shunt_close (output ops : list string) :
  shunt (output, ops) ")"
  = (let (output1, ops1) := pop_while not_open output ops in
     match tl ops1 with
     | top :: ops3 =>
         if isFunctionName top then (output1 ++ [top], ops3)
         else (output1, tl ops1)
     | [] => (output1, tl ops1)
     end).
Proof. reflexivity. Qed.

Lemma yields_gives_way (o top : binop) :
  yields (op_text o) (op_text top) = gives_way o top.
Proof. destruct o, top; reflexivity. Qed.

Lemma yields_open (o : binop) : yields (op_text o) "(" = false.
Proof. destruct o; reflexivity. Qed.

Lemma not_open_operator (o : binop) : not_open (op_text o) = true.
Proof. destruct o; reflexivity. Qed.

Lemma operator_no_function (o : binop) : isFunctionName (op_text o) = false.
Proof. destruct o; reflexivity. Qed.

Lemma func_is_function (f : func) : isFunctionName (func_text f) = true.
Proof. destruct f; reflexivity. Qed.

Lemma pending_level (e : expr) :
  well_formed e = true ->
  Forall (fun o => (level e <= op_level o)%nat) (pending e).
Proof.
  induction e as [l | c | o a IHa b IHb | e IH | f e IH | e IH];
    cbn [pending well_formed level]; intros Hw; try constructor.
  apply andb_prop in Hw as [Hw Hg]. apply andb_prop in Hw as [Ha Hb].
  apply Forall_app. split; [| repeat constructor].
  specialize (IHb Hb). eapply Forall_impl; [| exact IHb].
  intros o' Ho'. cbv beta in Ho'.
  destruct (groups_right o); apply andb_prop in Hg as [H1 H2];
    [apply Nat.leb_le in H2 | apply Nat.ltb_lt in H2]; lia.
Qed.

Lemma left_spine_level (e : expr) :
  well_formed e = true ->
  Forall (fun o => (level e <= op_level o)%nat) (left_spine e).
Proof.
  induction e as [l | c | o a IHa b IHb | e IH | f e IH | e IH];
    cbn [left_spine well_formed level]; intros Hw; try constructor.
  - lia.
  - apply andb_prop in Hw as [Hw Hg]. apply andb_prop in Hw as [Ha Hb].
    specialize (IHa Ha). eapply Forall_impl; [| exact IHa].
    intros o' Ho'. cbv beta in Ho'.
    destruct (groups_right o); apply andb_prop in Hg as [H1 H2];
      [apply Nat.ltb_lt in H1 | apply Nat.leb_le in H1]; lia.
Qed.

(** What binds tightest leaves no operator behind. *)
Lemma tightest_alone (e : expr) :
  level e = 4%nat -> pending e = [] /\ left_spine e = [].
Proof. destruct e as [| | o a b | | |]; auto. destruct o; discriminate. Qed.

(** The operators left on [ops] by the left operand all give way to the
    operator that follows it. *)
Lemma left_operand_gives_way (o : binop) (a b : expr) :
  well_formed (Bin o a b) = true ->
  Forall (fun x => yields (op_text o) x = true) (map op_text (pending a)).
Proof.
  cbn [well_formed]. intros Hw.
  apply andb_prop in Hw as [Hw Hg]. apply andb_prop in Hw as [Ha Hb].
  apply Forall_map. eapply Forall_impl; [| exact (pending_level a Ha)].
  intros o' Ho'. cbv beta in Ho'. rewrite yields_gives_way. unfold gives_way.
  destruct (groups_right o); apply andb_prop in Hg as [H1 H2].
  - apply Nat.ltb_lt in H1. apply Nat.ltb_lt. lia.
  - apply Nat.leb_le in H1. apply Nat.leb_le. lia.
Qed.

Lemma same_level_groups_right (o o' : binop) :
  groups_right o = true -> (op_level o <= op_level o')%nat ->
  gives_way o' o = false.
Proof.
  destruct o; try discriminate.
  destruct o'; simpl; intros; (reflexivity || lia).
Qed.

(** No operator down the left of the right operand makes the operator
    before it give way. *)
Lemma right_operand_waits (o : binop) (a b : expr) :
  well_formed (Bin o a b) = true ->
  Forall (fun o' => yields (op_text o') (op_text o) = false) (left_spine b).
Proof.
  cbn [well_formed]. intros Hw.
  apply andb_prop in Hw as [Hw Hg]. apply andb_prop in Hw as [Ha Hb].
  eapply Forall_impl; [| exact (left_spine_level b Hb)].
  intros o' Ho'. cbv beta in Ho'. rewrite yields_gives_way.
  destruct (groups_right o) eqn:Ho; apply andb_prop in Hg as [H1 H2].
  - apply Nat.leb_le in H2. apply same_level_groups_right; [exact Ho | lia].
  - apply Nat.ltb_lt in H2. unfold gives_way.
    destruct (groups_right o'); [apply Nat.ltb_ge | apply Nat.leb_gt]; lia.
Qed.

Lemma emitted_pending (e : expr) :
  emitted e ++ map op_text (pending e) = postfix e.
Proof.
  induction e as [l | c | o a IHa b IHb | e IH | f e IH | e IH];
    cbn [emitted pending postfix map]; try apply app_nil_r.
  rewrite map_app. cbn [map]. rewrite <- IHa, <- IHb.
  now rewrite <- !app_assoc.
Qed.

Lemma calm_open (e : expr) (ops : list string) : calm e ("(" :: ops).
Proof.
  split; [reflexivity|]. apply Forall_forall. intros o _. apply yields_open.
Qed.

(** Reading up to the closing parenthesis: the operators of [e] that are
    left go to [output], and the opening parenthesis goes away. *)
Lemma shunt_closing (e : expr) (output ops : list string) :
  pop_while not_open (output ++ emitted e) (map op_text (pending e) ++ "(" :: ops)
  = (output ++ postfix e, "(" :: ops).
Proof.
  rewrite pop_while_all.
  - now rewrite <- app_assoc, emitted_pending.
  - apply Forall_map, Forall_forall. intros o _. apply not_open_operator.
  - reflexivity.
Qed.

Lemma shunt_expr (e : expr) :
  well_formed e = true ->
  forall output ops rest, calm e ops ->
  fold_left shunt (infix e ++ rest) (output, ops)
  = fold_left shunt rest (output ++ emitted e, map op_text (pending e) ++ ops).
Proof.
  induction e as [l | c | o a IHa b IHb | e IH | f e IH | e IH];
    intros Hw output ops rest Hc.
  - cbn [infix emitted postfix pending map app fold_left].
    now rewrite shunt_literal.
  - cbn [infix emitted postfix pending map app fold_left].
    now rewrite shunt_constant.
  - assert (Hgw := left_operand_gives_way o a b Hw).
    assert (Hrw := right_operand_waits o a b Hw).
    cbn [well_formed] in Hw.
    apply andb_prop in Hw as [Hw Hg]. apply andb_prop in Hw as [Ha Hb].
    cbn [infix emitted pending]. rewrite <- app_assoc.
    rewrite IHa; [| exact Ha |].
    2:{ destruct ops as [| top ops']; [exact I|]. destruct Hc as [Hf Hs].
        split; [exact Hf|]. now inversion Hs. }
    cbn [app fold_left]. rewrite shunt_operator.
    rewrite pop_while_all; [| exact Hgw |].
    2:{ destruct ops as [| top ops']; [exact I|]. destruct Hc as [_ Hs].
        now inversion Hs. }
    rewrite IHb; [| exact Hb |].
    2:{ split; [apply operator_no_function | exact Hrw]. }
    rewrite map_app. cbn [map]. now rewrite <- !app_assoc.
  - cbn [well_formed] in Hw. cbn [infix emitted pending map app fold_left].
    change (shunt (output, ops) "(") with (output, "(" :: ops).
    rewrite <- app_assoc. rewrite IH; [| exact Hw | apply calm_open].
    cbn [app fold_left]. f_equal.
    rewrite shunt_close, shunt_closing. cbn [tl].
    destruct ops as [| top ops']; [reflexivity|].
    destruct Hc as [-> _]. reflexivity.
  - cbn [well_formed] in Hw. cbn [infix emitted pending map app fold_left].
    rewrite shunt_func.
    change (shunt (output, func_text f :: ops) "(")
      with (output, "(" :: func_text f :: ops).
    rewrite <- app_assoc. rewrite IH; [| exact Hw | apply calm_open].
    cbn [app fold_left]. f_equal.
    rewrite shunt_close, shunt_closing. cbn [tl].
    rewrite func_is_function. cbn [postfix]. now rewrite app_assoc.
  - cbn [well_formed] in Hw. apply andb_prop in Hw as [Hw Hl].
    apply Nat.eqb_eq in Hl. destruct (tightest_alone e Hl) as [Hp Hs].
    assert (He : emitted e = postfix e).
    { rewrite <- (emitted_pending e), Hp. cbn [map]. now rewrite app_nil_r. }
    cbn [infix emitted postfix pending map app fold_left]. rewrite <- app_assoc.
    rewrite IH; [| exact Hw |].
    2:{ destruct ops as [| top ops']; [exact I|]. destruct Hc as [Hf _].
        split; [exact Hf|]. rewrite Hs. constructor. }
    rewrite Hp, He. cbn [map app fold_left]. f_equal.
    change (shunt (output ++ postfix e, ops) "!")
      with ((output ++ postfix e) ++ ["!"], ops).
    now rewrite <- app_assoc.
Qed.

Lemma to_rpn_infix (e : expr) :
  well_formed e = true -> to_rpn (infix e) = postfix e.
Proof.
  intros Hw. unfold to_rpn.
  rewrite <- (app_nil_r (infix e)). rewrite shunt_expr by (auto; exact I).
  cbn [fold_left app]. rewrite app_nil_r. apply emitted_pending.
Qed.

(** ** Evaluating the postfix form of an expression *)

Section Postfix.

Context {M : MathLib}.

Lemma apply_number (t : string) (stack : list JS.number) :
  isNumber t = true -> apply_token t stack = Ok (Parse.parseFloat t :: stack).
Proof. intros H. unfold apply_token. now rewrite H. Qed.

Lemma apply_literal (l : literal) (stack : list JS.number) :
  literal_ok l = true ->
  apply_token (literal_text l) stack = Ok (literal_value l :: stack).
Proof.
  intros Hl. unfold apply_token. rewrite (isNumber_literal l Hl).
  destruct l as [d | d f | f].
  - now rewrite parseFloat_literal by (auto; now rewrite isNumber_literal).
  - now rewrite parseFloat_literal by (auto; now rewrite isNumber_literal).
  - simpl in Hl. cbn -[Parse.Number].
    rewrite Number_fraction by exact Hl. now rewrite of_decimal_not_NaN.
Qed.

Lemma apply_constant (c : constant) (stack : list JS.number) :
  apply_token (constant_token c) stack = Ok (constant_value c :: stack).
Proof.
  rewrite constant_token_text.
  destruct c; (rewrite apply_number by reflexivity; f_equal; f_equal; by_computation).
Qed.

Lemma apply_operator (o : binop) (a b : JS.number) (stack : list JS.number) :
  apply_token (op_text o) (b :: a :: stack) = Ok (op_fun o a b :: stack).
Proof. destruct o; reflexivity. Qed.

Lemma apply_func (f : func) (a : JS.number) (stack : list JS.number) :
  apply_token (func_text f) (a :: stack) = Ok (func_fun f a :: stack).
Proof. destruct f; reflexivity. Qed.

Lemma apply_factorial (a : JS.number) (stack : list JS.number) :
  apply_token "!" (a :: stack) = Ok (factorialFn (JS.num a) :: stack).
Proof. reflexivity. Qed.

Lemma run_app (xs ys : list string) :
  forall stack,
  run (xs ++ ys) stack
  = match run xs stack with Ok stack' => run ys stack' | Throw e => Throw e end.
Proof.
  induction xs as [| x xs IH]; intros stack; simpl; [reflexivity|].
  destruct (apply_token x stack); [apply IH | reflexivity].
Qed.

Lemma run_postfix (e : expr) :
  well_formed e = true ->
  forall stack, run (postfix e) stack = Ok (denote e :: stack).
Proof.
  induction e as [l | c | o a IHa b IHb | e IH | f e IH | e IH];
    cbn [well_formed postfix denote]; intros Hw stack.
  - cbn [run]. now rewrite apply_literal.
  - cbn [run]. now rewrite apply_constant.
  - apply andb_prop in Hw as [Hw _]. apply andb_prop in Hw as [Ha Hb].
    rewrite run_app, IHa by assumption.
    rewrite run_app, IHb by assumption.
    cbn [run]. now rewrite apply_operator.
  - now apply IH.
  - rewrite run_app, IH by assumption. cbn [run]. now rewrite apply_func.
  - apply andb_prop in Hw as [Hw _].
    rewrite run_app, IH by assumption. cbn [run]. now rewrite apply_factorial.
Qed.

(** Every expression in infix form evaluates to its value, whatever
    blanks separate its tokens. *)
Lemma evaluation_correct (sep : string) (e : expr) :
  all_chars is_blank sep = true -> well_formed e = true ->
  evaluateExpression (text sep e) = Ok (denote e).
Proof.
  intros Hs Hw. unfold evaluateExpression.
  rewrite tokens_of_expr, normalize_lexemes, to_rpn_infix, run_postfix
    by assumption.
  reflexivity.
Qed.

End Postfix.
(** ** Parentheses *)

Lemma count_open_cons (t : string) (ops : list string) :
  count_open (t :: ops)
  = if (t =? "(")%string then S (count_open ops) else count_open ops.
Proof.
  unfold count_open. cbn [filter]. rewrite (String.eqb_sym "(" t).
  now destruct (t =? "(")%string.
Qed.

Lemma count_open_other (t : string) (ops : list string) :
  (t =? "(")%string = false -> count_open (t :: ops) = count_open ops.
Proof. intros H. now rewrite count_open_cons, H. Qed.

Lemma pop_while_count (cond : string -> bool) :
  (cond "(" = false) ->
  forall ops output,
  count_open (snd (pop_while cond output ops)) = count_open ops.
Proof.
  intros Hc.
  induction ops as [| top ops IH]; intros output; cbn [pop_while];
    [reflexivity|].
  destruct (cond top) eqn:Ht; [| reflexivity].
  rewrite IH. symmetry. apply count_open_other.
  apply String.eqb_neq. intros ->. congruence.
Qed.

Lemma pop_while_stops (cond : string -> bool) :
  forall ops output,
  match snd (pop_while cond output ops) with
  | top :: _ => cond top = false
  | [] => True
  end.
Proof.
  induction ops as [| top ops IH]; intros output; cbn [pop_while];
    [exact I|].
  destruct (cond top) eqn:Ht; [apply IH | exact Ht].
Qed.

Lemma yields_no_open (t : string) : yields t "(" = false.
Proof. reflexivity. Qed.

Lemma paren_step_neither (t : string) (depth : nat) :
  (t =? "(")%string = false -> (t =? ")")%string = false ->
  paren_step depth t = depth.
Proof. intros H1 H2. unfold paren_step. now rewrite H1, H2. Qed.

Lemma function_no_paren (t : string) :
  isFunctionName t = true -> (t =? "(")%string = false /\ (t =? ")")%string = false.
Proof.
  intros H. split; apply String.eqb_neq; intros ->; discriminate.
Qed.

Lemma shunt_count (st : list string * list string) (t : string) :
  count_open (snd (shunt st t)) = paren_step (count_open (snd st)) t.
Proof.
  destruct st as [output ops]. unfold shunt. cbn [snd].
  destruct (isNumber t) eqn:Hn.
  { rewrite paren_step_neither; [reflexivity | |];
      apply String.eqb_neq; intros ->; discriminate. }
  destruct (isFunctionName t) eqn:Hf.
  { destruct (function_no_paren t Hf) as [H1 H2]. cbn [snd].
    now rewrite paren_step_neither, count_open_other. }
  destruct (String.eqb_spec t ",") as [-> | _].
  { now rewrite pop_while_count. }
  destruct (String.eqb_spec t "(") as [-> | Hopen].
  { reflexivity. }
  apply String.eqb_neq in Hopen.
  destruct (String.eqb_spec t ")") as [-> | Hclose].
  { assert (Hc := pop_while_count not_open eq_refl ops output).
    assert (Hs := pop_while_stops not_open ops output).
    destruct (pop_while not_open output ops) as [output1 ops1].
    cbn [snd] in Hc, Hs. rewrite <- Hc.
    change (paren_step (count_open ops1) ")") with (pred (count_open ops1)).
    destruct ops1 as [| top ops2]; [reflexivity|].
    unfold not_open in Hs. apply negb_false_iff, String.eqb_eq in Hs. subst top.
    cbn [tl]. rewrite count_open_cons. cbn [String.eqb Ascii.eqb Bool.eqb pred].
    destruct ops2 as [| top ops3]; [reflexivity|].
    destruct (isFunctionName top) eqn:Hf'; [| reflexivity].
    cbn [snd]. destruct (function_no_paren top Hf') as [H1 _].
    now rewrite count_open_other. }
  apply String.eqb_neq in Hclose.
  rewrite paren_step_neither by assumption.
  destruct (String.eqb_spec t "!") as [-> | _]; [reflexivity|].
  destruct (is_operator t) eqn:Ho; [| reflexivity].
  assert (Hc := pop_while_count (yields t) (yields_no_open t) ops output).
  destruct (pop_while (yields t) output ops) as [output1 ops1].
  cbn [snd] in Hc |- *. now rewrite count_open_other.
Qed.

Lemma fold_shunt_count (tokens : list string) :
  forall st,
  count_open (snd (fold_left shunt tokens st))
  = fold_left paren_step tokens (count_open (snd st)).
Proof.
  induction tokens as [| t tokens IH]; intros st; simpl; [reflexivity|].
  now rewrite IH, shunt_count.
Qed.

Lemma count_open_In (ops : list string) :
  (0 < count_open ops)%nat -> In "(" ops.
Proof.
  induction ops as [| t ops IH]; [cbn; lia|].
  rewrite count_open_cons.
  destruct (String.eqb_spec t "(") as [-> | _]; [now left | right; auto].
Qed.

(** An opening parenthesis left on [ops] ends up in the postfix form. *)
Lemma to_rpn_open (tokens : list string) :
  (0 < fold_left paren_step tokens 0)%nat -> In "(" (to_rpn tokens).
Proof.
  intros H. unfold to_rpn.
  assert (Hc := fold_shunt_count tokens ([], [])).
  destruct (fold_left shunt tokens ([], [])) as [output ops].
  cbn [snd] in Hc. change (count_open []) with 0%nat in Hc.
  apply in_or_app. right. apply count_open_In. lia.
Qed.

Section Throws.

Context {M : MathLib}.

Lemma apply_token_throws (t : string) (stack : list JS.number) (e : error) :
  apply_token t stack = Throw e -> e = InvalidToken t.
Proof.
  unfold apply_token.
  repeat match goal with
         | |- context [if ?c then _ else _] => destruct c
         end; intros H; try discriminate.
  now injection H.
Qed.

Lemma run_throws (output : list string) :
  forall stack e, run output stack = Throw e -> exists t, e = InvalidToken t.
Proof.
  induction output as [| t output IH]; intros stack e; simpl; [discriminate|].
  destruct (apply_token t stack) as [stack' |e'] eqn:Ht.
  - apply IH.
  - intros [= <-]. exists t. now apply apply_token_throws in Ht.
Qed.

Lemma run_open (output : list string) :
  In "(" output ->
  forall stack, exists t, run output stack = Throw (InvalidToken t).
Proof.
  induction output as [| t output IH]; intros Hin stack; [contradiction|].
  simpl. destruct (apply_token t stack) as [stack' |e'] eqn:Ht.
  - destruct Hin as [-> | Hin]; [discriminate | now apply IH].
  - exists t. now rewrite (apply_token_throws _ _ _ Ht).
Qed.

End Throws.

(** ** Parentheses of the input and of its tokens *)

Lemma unclosed_skip (t rest : string) (depth : nat) :
  all_chars no_paren t = true -> unclosed depth (t ++ rest) = unclosed depth rest.
Proof.
  induction t as [| c t IH]; [reflexivity|]. simpl. intros H.
  apply andb_prop in H as [Hc Ht]. unfold no_paren in Hc.
  apply andb_prop in Hc as [H1 H2]. rewrite negb_true_iff in H1, H2.
  rewrite H1, H2. auto.
Qed.

Lemma paren_step_other (c : ascii) (r : string) (depth : nat) :
  no_paren c = true -> paren_step depth (String c r) = depth.
Proof.
  intros H. unfold paren_step.
  rewrite !eqb_head; [reflexivity | |]; intros ->; discriminate.
Qed.

Lemma match_number_chars (s t r : string) :
  match_number s = Some (t, r) ->
  all_chars (fun c => is_digit c || (code c =? 46)%N) t = true.
Proof.
  unfold match_number.
  destruct (span is_digit s) as [d1 r1] eqn:H1.
  apply span_spec in H1 as (Hs & Hd1 & Hr1).
  assert (Hd : forall d, all_chars is_digit d = true ->
               all_chars (fun c => is_digit c || (code c =? 46)%N) d = true).
  { intros d. apply all_chars_impl. intros c ->. reflexivity. }
  assert (Happ : forall a b, all_chars (fun c => is_digit c || (code c =? 46)%N) a = true ->
                 all_chars (fun c => is_digit c || (code c =? 46)%N) b = true ->
                 all_chars (fun c => is_digit c || (code c =? 46)%N) (a ++ b) = true).
  { intros a b Ha Hb. induction a as [| x a IH]; [exact Hb|]. simpl in *.
    apply andb_prop in Ha as [-> Ha]. now apply IH. }
  destruct (is_empty d1) eqn:He; cbn [negb].
  - destruct s as [| c s']; [discriminate|].
    destruct (code c =? 46)%N eqn:Hc; [|discriminate].
    destruct (span is_digit s') as [d r'] eqn:H2.
    apply span_spec in H2 as (_ & Hd2 & _).
    destruct (is_empty d); [discriminate|].
    intros [= <- <-]. simpl. rewrite Hc, orb_true_r. now apply Hd.
  - destruct r1 as [| c r2].
    + intros [= <- <-]. now apply Hd.
    + destruct (code c =? 46)%N eqn:Hc.
      * destruct (span is_digit r2) as [d2 r3] eqn:H2.
        apply span_spec in H2 as (_ & Hd2 & _).
        intros [= <- <-]. apply Happ; [now apply Hd|].
        simpl. rewrite Hc, orb_true_r. now apply Hd.
      * intros [= <- <-]. now apply Hd.
Qed.

Lemma span_word_chars (s : string) :
  forall w r, span_word s = (w, r) -> all_chars word_char w = true.
Proof.
  induction s as [s IH] using (well_founded_induction
    (Wf_nat.well_founded_ltof _ String.length)).
  intros w r. destruct s as [| c s']; simpl.
  - intros [= <- <-]. reflexivity.
  - destruct (is_letter c) eqn:Hl.
    + destruct (span_word s') as [w' r'] eqn:H. intros [= <- <-].
      simpl. unfold word_char at 1. rewrite Hl. simpl.
      eapply IH; [| exact H]. unfold Wf_nat.ltof. simpl. lia.
    + destruct s' as [| c2 s2]; [intros [= <- <-]; reflexivity|].
      destruct ((code c =? 207)%N && (code c2 =? 128)%N) eqn:Hp.
      * destruct (span_word s2) as [w' r'] eqn:H. intros [= <- <-].
        apply andb_prop in Hp as [H1 H2].
        simpl. unfold word_char at 1 2. rewrite H1, H2, !orb_true_r. simpl.
        eapply IH; [| exact H]. unfold Wf_nat.ltof. simpl. lia.
      * intros [= <- <-]. reflexivity.
Qed.

Lemma ToString_PI : Print.ToString JS.Math_PI = "3.141592653589793".
Proof. by_computation. Qed.

Lemma ToString_E : Print.ToString JS.Math_E = "2.718281828459045".
Proof. by_computation. Qed.

Lemma lower_char_letter (c : ascii) :
  is_letter c = true -> is_lower (lower_char c) = true.
Proof.
  unfold lower_char, is_letter. destruct (is_upper c) eqn:Hu; [| now simpl].
  intros _. unfold is_lower, is_upper, code in *.
  rewrite N_ascii_embedding; [chars|].
  apply andb_prop in Hu as [_ Hu]. apply N.leb_le in Hu. lia.
Qed.

(** What a token turns into is one of the two constants, its lower case,
    or itself. *)
Lemma normalize_cases (t : string) :
  normalize t = "3.141592653589793" \/ normalize t = "2.718281828459045"
  \/ (is_name t = true /\ normalize t = toLowerCase t)
  \/ (is_name t = false /\ normalize t = t).
Proof.
  unfold normalize. rewrite ToString_PI, ToString_E.
  destruct ((t =? "π")%string || (t =? "pi")%string || (t =? "PI")%string).
  - left. reflexivity.
  - destruct (t =? "e")%string.
    + right. left. reflexivity.
    + right. right. destruct (is_name t); auto.
Qed.

Lemma word_char_no_paren (c : ascii) : word_char c = true -> no_paren c = true.
Proof. unfold word_char, no_paren. chars. Qed.

Lemma normalize_word_step (w : string) (depth : nat) :
  is_empty w = false -> all_chars word_char w = true ->
  paren_step depth (normalize w) = depth.
Proof.
  intros He Hw. destruct w as [| c r]; [discriminate|].
  simpl in Hw. apply andb_prop in Hw as [Hc _].
  destruct (normalize_cases (String c r)) as [-> | [-> | [[Hn ->] | [_ ->]]]];
    try reflexivity.
  - cbn [toLowerCase]. apply paren_step_other.
    unfold is_name in Hn. simpl in Hn. apply andb_prop in Hn as [Hl _].
    apply lower_char_letter in Hl. unfold no_paren. chars.
  - apply paren_step_other. now apply word_char_no_paren.
Qed.

Lemma normalize_number_step (t : string) (depth : nat) :
  is_empty t = false ->
  all_chars (fun c => is_digit c || (code c =? 46)%N) t = true ->
  paren_step depth (normalize t) = depth.
Proof.
  intros He Ht. destruct t as [| c r]; [discriminate|].
  simpl in Ht. apply andb_prop in Ht as [Hc _].
  rewrite normalize_other by chars.
  apply paren_step_other. unfold no_paren. chars.
Qed.

Lemma normalize_symbol (c : ascii) :
  is_symbol c = true -> normalize (String c "") = String c "".
Proof. intros H. apply normalize_other; chars. Qed.

Lemma paren_step_symbol (c : ascii) (depth : nat) :
  paren_step depth (String c "")
  = if (code c =? 40)%N then S depth
    else if (code c =? 41)%N then pred depth else depth.
Proof.
  unfold paren_step.
  destruct (N.eqb_spec (code c) 40) as [H | H].
  - replace c with "("%char; [reflexivity|].
    rewrite <- (ascii_N_embedding c). unfold code in H. now rewrite H.
  - rewrite eqb_head by (intros ->; apply H; reflexivity).
    destruct (N.eqb_spec (code c) 41) as [H' | H'].
    + replace c with ")"%char; [reflexivity|].
      rewrite <- (ascii_N_embedding c). unfold code in H'. now rewrite H'.
    + now rewrite eqb_head by (intros ->; apply H'; reflexivity).
Qed.

Lemma tokens_parens (fuel : nat) :
  forall s depth, (String.length s <= fuel)%nat ->
  fold_left paren_step (map normalize (tokenize fuel s)) depth = unclosed depth s.
Proof.
  induction fuel as [| fuel IH]; intros s depth Hl.
  - destruct s; [reflexivity | simpl in Hl; lia].
  - destruct s as [| c r]; [reflexivity|].
    cbn [tokenize]. simpl in Hl.
    destruct (match_number (String c r)) as [[t rest] |] eqn:Hn.
    + assert (Hc := match_number_chars _ _ _ Hn).
      apply match_number_spec in Hn as [Hs Ht].
      assert (Hlen := f_equal String.length Hs). rewrite length_append in Hlen.
      assert (Hpos := is_empty_length t Ht). simpl in Hlen.
      cbn [map fold_left]. rewrite normalize_number_step by assumption.
      rewrite IH by lia. rewrite Hs. symmetry. apply unclosed_skip.
      revert Hc. apply all_chars_impl. intros x Hx. unfold no_paren. chars.
    + destruct (span_word (String c r)) as [w rest] eqn:Hw.
      assert (Hc := span_word_chars _ _ _ Hw).
      assert (Hs := span_word_spec _ _ _ Hw).
      assert (Hlen := f_equal String.length Hs). rewrite length_append in Hlen.
      simpl in Hlen.
      destruct (is_empty w) eqn:He; cbn [negb].
      * apply is_empty_true in He. subst w. simpl in Hs. subst rest.
        destruct (is_symbol c) eqn:Hy.
        -- cbn [map fold_left]. rewrite normalize_symbol by exact Hy.
           rewrite paren_step_symbol, IH by lia. reflexivity.
        -- rewrite IH by lia. cbn [unclosed].
           replace (code c =? 40)%N with false by (symmetry; chars).
           replace (code c =? 41)%N with false by (symmetry; chars).
           reflexivity.
      * assert (Hpos := is_empty_length w He).
        cbn [map fold_left]. rewrite normalize_word_step by assumption.
        rewrite IH by lia. rewrite Hs. symmetry. apply unclosed_skip.
        revert Hc. apply all_chars_impl. apply word_char_no_paren.
Qed.

Section Unclosed.

Context {M : MathLib}.

(** An opening parenthesis that is never closed is flushed to the postfix
    form and rejected there as a token. *)
Lemma unclosed_throws (input : string) :
  (0 < unclosed 0 input)%nat ->
  exists t, evaluateExpression input = Throw (InvalidToken t).
Proof.
  intros H. unfold evaluateExpression.
  destruct (run_open (to_rpn (map normalize (tokens_of input)))) with (stack := @nil JS.number)
    as [t Ht].
  - apply to_rpn_open. unfold tokens_of. now rewrite tokens_parens.
  - exists t. now rewrite Ht.
Qed.

End Unclosed.

(** ** Whole evaluations *)

Section Whole.

Context {M : MathLib}.

(** A closing parenthesis with no opening one on [ops] empties [ops] into
    [output]. *)
Lemma shunt_stray_close (output ops : list string) :
  Forall (fun t => not_open t = true) ops ->
  shunt (output, ops) ")" = (output ++ ops, []).
Proof.
  intros H. rewrite shunt_close.
  rewrite <- (app_nil_r ops) at 1. rewrite pop_while_all by auto.
  reflexivity.
Qed.

Lemma stray_close_ignored (sep : string) (e : expr) :
  all_chars is_blank sep = true -> well_formed e = true ->
  evaluateExpression (text sep e ++ ")") = Ok (denote e).
Proof.
  intros Hs Hw. unfold evaluateExpression.
  rewrite tokens_of_text by auto.
  change (tokens_of ")") with [")"].
  rewrite map_app, normalize_lexemes by exact Hw.
  change (map normalize [")"]) with [")"].
  unfold to_rpn. rewrite shunt_expr by (auto; exact I).
  cbn [fold_left]. rewrite shunt_stray_close.
  - cbn [app]. rewrite !app_nil_r, emitted_pending, run_postfix by exact Hw.
    reflexivity.
  - rewrite app_nil_r. apply Forall_map, Forall_forall. intros o _.
    apply not_open_operator.
Qed.

(** A function name in any case, applied to an expression in
    parentheses. *)
Lemma call_any_case (t sep : string) (f : func) (e : expr) :
  is_name t = true -> toLowerCase t = func_text f ->
  all_chars is_blank sep = true -> well_formed e = true ->
  normalize t = func_text f
  /\ evaluateExpression (t ++ sep ++ "(" ++ sep ++ text sep e ++ sep ++ ")")
     = Ok (func_fun f (denote e)).
Proof.
  intros Hn Hf Hs Hw.
  assert (Hnorm : normalize t = func_text f).
  { destruct (normalize_cases t) as [H | [H | [[_ H] | [H _]]]].
    - unfold normalize in H. rewrite ToString_PI, ToString_E in H.
      destruct (String.eqb_spec t "π") as [-> | _]; [discriminate|].
      destruct (String.eqb_spec t "pi") as [-> | _]; [destruct f; discriminate|].
      destruct (String.eqb_spec t "PI") as [-> | _]; [destruct f; discriminate|].
      cbn [orb] in H.
      destruct (String.eqb_spec t "e") as [-> | _]; [destruct f; discriminate|].
      rewrite Hn, Hf in H. destruct f; discriminate.
    - unfold normalize in H. rewrite ToString_PI, ToString_E in H.
      destruct (String.eqb_spec t "π") as [-> | _]; [discriminate|].
      destruct (String.eqb_spec t "pi") as [-> | _]; [destruct f; discriminate|].
      destruct (String.eqb_spec t "PI") as [-> | _]; [destruct f; discriminate|].
      cbn [orb] in H.
      destruct (String.eqb_spec t "e") as [-> | _]; [destruct f; discriminate|].
      rewrite Hn, Hf in H. destruct f; discriminate.
    - congruence.
    - congruence. }
  split; [exact Hnorm|].
  unfold evaluateExpression.
  assert (Htok : tokens_of (t ++ sep ++ "(" ++ sep ++ text sep e ++ sep ++ ")")
                 = t :: "(" :: lexemes e ++ [")"]).
  { unfold is_name in Hn. apply andb_prop in Hn as [He Hl].
    destruct t as [| c w]; [discriminate|].
    rewrite tokens_of_letters; [| exact Hl | now apply boundary_symbol].
    cbn [append]. rewrite tokens_of_sep_symbol by auto. do 2 f_equal.
    rewrite tokens_of_blanks by exact Hs.
    rewrite tokens_of_text; [| exact Hs | exact Hw | now apply boundary_symbol].
    f_equal. now rewrite tokens_of_sep_symbol. }
  rewrite Htok. cbn [map]. rewrite Hnorm, map_app, normalize_lexemes by exact Hw.
  change (normalize "(") with "(". change (map normalize [")"]) with [")"].
  change (func_text f :: "(" :: infix e ++ [")"]) with (infix (Call f e)).
  rewrite to_rpn_infix, run_postfix by exact Hw. reflexivity.
Qed.

End Whole.
(** ** The tokens of any input *)

Lemma match_number_literal_inv (s t r : string) :
  match_number s = Some (t, r) ->
  exists l, literal_ok l = true /\ t = literal_text l.
Proof.
  unfold match_number.
  destruct (span is_digit s) as [d1 r1] eqn:H1.
  apply span_spec in H1 as (Hs & Hd1 & Hr1).
  destruct (is_empty d1) eqn:He; cbn [negb].
  - destruct s as [| c s']; [discriminate|].
    destruct (N.eqb_spec (code c) 46) as [Hc |]; [|discriminate].
    destruct (span is_digit s') as [d r'] eqn:H2.
    apply span_spec in H2 as (_ & Hd2 & _).
    destruct (is_empty d) eqn:Hd; [discriminate|].
    intros [= <- <-]. exists (Fraction d). split.
    + cbn. unfold some_digits. now rewrite Hd, Hd2.
    + cbn. f_equal. rewrite <- (ascii_N_embedding c). unfold code in Hc.
      now rewrite Hc.
  - destruct r1 as [| c r2].
    + intros [= <- <-]. exists (Whole d1). split; [| reflexivity].
      cbn. unfold some_digits. now rewrite He, Hd1.
    + destruct (N.eqb_spec (code c) 46) as [Hc |].
      * destruct (span is_digit r2) as [d2 r3] eqn:H2.
        apply span_spec in H2 as (_ & Hd2 & _).
        intros [= <- <-]. exists (Point d1 d2). split.
        -- cbn. unfold some_digits. now rewrite He, Hd1, Hd2.
        -- cbn. do 2 f_equal. rewrite <- (ascii_N_embedding c). unfold code in Hc.
           now rewrite Hc.
      * intros [= <- <-]. exists (Whole d1). split; [| reflexivity].
        cbn. unfold some_digits. now rewrite He, Hd1.
Qed.

Lemma tokenize_lexemes (fuel : nat) :
  forall s, Forall lexeme (tokenize fuel s).
Proof.
  induction fuel as [| fuel IH]; intros s; [constructor|].
  destruct s as [| c r]; [constructor|]. cbn [tokenize].
  destruct (match_number (String c r)) as [[t rest] |] eqn:Hn.
  - constructor; [| apply IH].
    destruct (match_number_literal_inv _ _ _ Hn) as (l & Hl & Ht).
    now apply (lexeme_number t l).
  - destruct (span_word (String c r)) as [w rest] eqn:Hw.
    assert (Hc := span_word_chars _ _ _ Hw).
    destruct (is_empty w) eqn:He; cbn [negb].
    + destruct (is_symbol c) eqn:Hy; [| apply IH].
      constructor; [| apply IH]. now apply (lexeme_symbol _ c).
    + constructor; [| apply IH]. now apply lexeme_word.
Qed.

(** ** Tokens the evaluator does not know *)

Lemma known_false (t : string) :
  known t = false ->
  isNumber t = false /\ isFunctionName t = false /\ is_operator t = false
  /\ (t =? "!")%string = false /\ (t =? "(")%string = false
  /\ (t =? ")")%string = false.
Proof.
  unfold known. intros H.
  repeat (apply orb_false_elim in H as [H ?]). auto 10.
Qed.

Lemma shunt_unknown (t : string) (output ops : list string) :
  known t = false -> (t =? ",")%string = false ->
  shunt (output, ops) t = (output ++ [t], ops).
Proof.
  intros H Hc. destruct (known_false t H) as (H1 & H2 & H3 & H4 & H5 & H6).
  unfold shunt. now rewrite H1, H2, Hc, H5, H6, H4, H3.
Qed.

Section Unknown.

Context {M : MathLib}.

Lemma apply_unknown (t : string) (stack : list JS.number) :
  known t = false ->
  apply_token t stack
  = if JS.isNaN (Parse.Number t) then Throw (InvalidToken t)
    else Ok (Parse.Number t :: stack).
Proof.
  intros H. destruct (known_false t H) as (H1 & H2 & H3 & H4 & _).
  unfold is_operator, isFunctionName in H2, H3. cbn [existsb] in H2, H3.
  repeat (apply orb_false_elim in H2 as [? H2]).
  repeat (apply orb_false_elim in H3 as [? H3]).
  unfold apply_token.
  repeat match goal with
         | Hx : (t =? ?k)%string = false |- _ => rewrite Hx; clear Hx
         end.
  rewrite H1. cbv zeta. now destruct (JS.isNaN (Parse.Number t)).
Qed.

End Unknown.


Lemma word_char_inert (c : ascii) : word_char c = true -> inert c = true.
Proof. unfold word_char. chars. Qed.

(** A word is a number only when it is [Infinity]. *)
Lemma Number_word (w : string) :
  is_empty w = false -> all_chars word_char w = true -> w <> "Infinity" ->
  Parse.Number w = JS.NaN.
Proof.
  intros He Hw Hinf. destruct w as [| c r]; [discriminate|].
  assert (Hc : word_char c = true) by (simpl in Hw; now apply andb_prop in Hw).
  unfold Parse.Number.
  rewrite trim_inert by (revert Hw; apply all_chars_impl, word_char_inert).
  cbn [is_empty].
  assert (Hnd : Parse.non_decimal (String c r) = None).
  { unfold Parse.non_decimal. destruct r as [| k d]; [reflexivity|].
    replace (code c =? 48)%N with false; [reflexivity|].
    symmetry. unfold word_char in Hc. chars. }
  rewrite Hnd. unfold Parse.scan_decimal.
  replace (code c =? 43)%N with false by (symmetry; unfold word_char in Hc; chars).
  replace (code c =? 45)%N with false by (symmetry; unfold word_char in Hc; chars).
  unfold Parse.scan_unsigned.
  destruct (Parse.strip_prefix "Infinity" (String c r)) as [rest |] eqn:Hp.
  - destruct rest as [| x rest]; [| reflexivity].
    exfalso. apply Hinf. clear -Hp.
    cbn [Parse.strip_prefix] in Hp.
    repeat match type of Hp with
           | (if Ascii.eqb ?a ?b then _ else _) = _ =>
               destruct (Ascii.eqb_spec a b); [subst | discriminate]
           | match ?s with "" => _ | String _ _ => _ end = _ =>
               destruct s; [discriminate|]
           end.
    now injection Hp as ->.
  - cbn [span]. replace (is_digit c) with false by (symmetry; unfold word_char in Hc; chars).
    replace (code c =? 46)%N with false by (symmetry; unfold word_char in Hc; chars).
    reflexivity.
Qed.

Lemma toLowerCase_letters (w : string) :
  all_chars is_letter w = true -> all_chars is_lower (toLowerCase w) = true.
Proof.
  induction w as [| c w IH]; [reflexivity|]. simpl. intros H.
  apply andb_prop in H as [Hc Hw]. now rewrite lower_char_letter, IH.
Qed.

Lemma toLowerCase_empty (w : string) : is_empty (toLowerCase w) = is_empty w.
Proof. now destruct w. Qed.



Lemma tokens_of_lexemes (input : string) : Forall lexeme (tokens_of input).
Proof. apply tokenize_lexemes. Qed.

(** ** Decimal digits *)

Lemma all_chars_app (p : ascii -> bool) (a b : string) :
  all_chars p (a ++ b) = all_chars p a && all_chars p b.
Proof.
  induction a as [| c a IH]; [reflexivity|]. simpl. rewrite IH.
  now rewrite andb_assoc.
Qed.

Lemma digits_value_app (b : Z) (x y : string) :
  forall acc, digits_value b acc (x ++ y) = digits_value b (digits_value b acc x) y.
Proof. induction x as [| c x IH]; intros acc; simpl; auto. Qed.

Lemma digit_char_digit (d : Z) :
  0 <= d < 10 ->
  is_digit (Print.digit_char d) = true /\ digit (Print.digit_char d) = d.
Proof.
  intros H. unfold Print.digit_char, is_digit, digit, code.
  rewrite N_ascii_embedding by lia.
  split; [| lia].
  apply andb_true_intro. split; apply N.leb_le; lia.
Qed.

Lemma digits_fuel_acc (fuel : nat) :
  forall n acc,
  Print.digits_fuel fuel n acc = (Print.digits_fuel fuel n "" ++ acc)%string.
Proof.
  induction fuel as [| fuel IH]; intros n acc; [reflexivity|].
  cbn [Print.digits_fuel]. destruct (n <? 10); [reflexivity|].
  rewrite IH. rewrite (IH _ (String _ "")). now rewrite append_assoc.
Qed.

(** With fuel for every digit, the digits are digits, they spell [n], and
    there are as many as [n] has decimal places. *)
Lemma digits_fuel_spec (fuel : nat) :
  forall n k, 0 <= n -> (k <= fuel)%nat -> (0 < k)%nat ->
  n < 10 ^ Z.of_nat k -> (k = 1%nat \/ 10 ^ (Z.of_nat k - 1) <= n) ->
  all_chars is_digit (Print.digits_fuel fuel n "") = true
  /\ digits_value 10 0 (Print.digits_fuel fuel n "") = n
  /\ String.length (Print.digits_fuel fuel n "") = k.
Proof.
  induction fuel as [| fuel IH]; intros n k Hn Hk Hk0 Hlt Hge; [lia|].
  cbn [Print.digits_fuel]. destruct (Z.ltb_spec n 10) as [H10 | H10].
  - destruct (digit_char_digit n) as [Hd Hv]; [lia|].
    simpl. rewrite Hd, Hv. repeat split; try lia.
    destruct Hge as [-> | Hge]; [reflexivity|].
    destruct k as [| [| k]]; [lia | reflexivity |].
    exfalso. assert (10 ^ 1 <= 10 ^ (Z.of_nat (S (S k)) - 1)).
    { apply Z.pow_le_mono_r; lia. } lia.
  - assert (Hk2 : (2 <= k)%nat).
    { destruct k as [| [| k]]; [lia | | lia]. simpl in Hlt. lia. }
    destruct (digit_char_digit (n mod 10)) as [Hd Hv].
    { apply Z.mod_pos_bound. lia. }
    rewrite digits_fuel_acc.
    destruct (IH (n / 10) (k - 1)%nat) as (Ha & Hval & Hlen).
    + apply Z.div_pos; lia.
    + lia.
    + lia.
    + apply Z.div_lt_upper_bound; [lia|].
      replace (10 * 10 ^ Z.of_nat (k - 1)) with (10 ^ Z.of_nat k); [exact Hlt|].
      replace (Z.of_nat k) with (Z.succ (Z.of_nat (k - 1))) by lia.
      rewrite Z.pow_succ_r by lia. reflexivity.
    + destruct (Nat.eq_dec (k - 1) 1) as [-> | Hne]; [now left | right].
      destruct Hge as [-> | Hge]; [lia|].
      apply Z.div_le_lower_bound; [lia|].
      replace (10 * 10 ^ (Z.of_nat (k - 1) - 1)) with (10 ^ (Z.of_nat k - 1)); [exact Hge|].
      replace (Z.of_nat k - 1) with (Z.succ (Z.of_nat (k - 1) - 1)) by lia.
      rewrite Z.pow_succ_r by lia. reflexivity.
    + rewrite all_chars_app, digits_value_app, length_append, Ha, Hval, Hlen.
      cbn [all_chars digits_value String.length andb]. rewrite Hd, Hv.
      split; [reflexivity|]. split; [| lia].
      rewrite (Z.div_mod n 10) at 3 by lia. reflexivity.
Qed.

Lemma pow10_gt_pow2 (x : Z) : 0 <= x -> 2 ^ x <= 10 ^ x.
Proof. intros H. apply Z.pow_le_mono_l. lia. Qed.

Lemma digits_spec (s k : Z) :
  0 < k -> 10 ^ (k - 1) <= s < 10 ^ k ->
  all_chars is_digit (Print.digits s) = true
  /\ digits_value 10 0 (Print.digits s) = s
  /\ String.length (Print.digits s) = Z.to_nat k.
Proof.
  intros Hk [Hlo Hhi]. unfold Print.digits.
  assert (Hs : 0 < s).
  { assert (0 < 10 ^ (k - 1)) by (apply Z.pow_pos_nonneg; lia). lia. }
  destruct (Z.log2_spec s Hs) as [Hl1 Hl2].
  assert (Hl0 := Z.log2_nonneg s).
  apply digits_fuel_spec.
  - lia.
  - (* k <= log2 s + 1 since 10^(k-1) <= s < 2^(log2 s + 1) *)
    assert (H2 : 2 ^ (k - 1) <= 10 ^ (k - 1)) by (apply pow10_gt_pow2; lia).
    assert (H3 : 2 ^ (k - 1) < 2 ^ Z.succ (Z.log2 s)) by lia.
    apply Z.pow_lt_mono_r_iff in H3; lia.
  - lia.
  - rewrite Z2Nat.id by lia. exact Hhi.
  - right. rewrite Z2Nat.id by lia. exact Hlo.
Qed.

Lemma digits_value_zeros (n : nat) :
  forall acc, digits_value 10 acc (Print.zeros n) = acc * 10 ^ Z.of_nat n.
Proof.
  induction n as [| n IH]; intros acc.
  - simpl. lia.
  - cbn [Print.zeros digits_value]. rewrite IH.
    change (digit "0") with 0. rewrite Nat2Z.inj_succ, Z.pow_succ_r by lia. lia.
Qed.

Lemma zeros_digits (n : nat) : all_chars is_digit (Print.zeros n) = true.
Proof. induction n; simpl; auto. Qed.

Lemma zeros_length (n : nat) : String.length (Print.zeros n) = n.
Proof. induction n; simpl; auto. Qed.

Lemma take_drop (n : nat) :
  forall s, (Print.take n s ++ Print.drop n s)%string = s.
Proof.
  induction n as [| n IH]; intros s; [reflexivity|].
  destruct s as [| c s]; [reflexivity|]. simpl. now rewrite IH.
Qed.

Lemma take_length (n : nat) :
  forall s, (n <= String.length s)%nat -> String.length (Print.take n s) = n.
Proof.
  induction n as [| n IH]; intros s H; [reflexivity|].
  destruct s as [| c s]; simpl in *; [lia|]. rewrite IH; lia.
Qed.

(** ** The string of a number *)

Lemma candidates_sound (x : JS.number) (num den n k s n' : Z)
  (rest : list (Z * Z)) :
  Print.candidates x num den n k = (s, n') :: rest ->
  10 ^ (k - 1) <= s < 10 ^ k /\ JS.of_decimal s (n' - k) = x.
Proof.
  unfold Print.candidates. intros H.
  match type of H with
  | filter ?P ?l = _ =>
      assert (Hin : In (s, n') (filter P l)) by (rewrite H; now left)
  end.
  apply filter_In in Hin as [_ Hp].
  apply andb_prop in Hp as [Hp Hsame]. apply andb_prop in Hp as [Hlo Hhi].
  apply Z.leb_le in Hlo. apply Z.ltb_lt in Hhi. apply same_eq in Hsame.
  auto.
Qed.

Lemma shortest_from_sound (fuel : nat) (x : JS.number) (num den n : Z) :
  forall k s k' n', 1 <= k ->
  Print.shortest_from fuel x num den n k = Some (s, k', n') ->
  1 <= k' /\ 10 ^ (k' - 1) <= s < 10 ^ k' /\ JS.of_decimal s (n' - k') = x.
Proof.
  induction fuel as [| fuel IH]; intros k s k' n' Hk; [discriminate|].
  cbn [Print.shortest_from].
  destruct (Print.candidates x num den n k) as [| [s0 n0] rest] eqn:Hc.
  - apply IH. lia.
  - intros [= <- <- <-].
    destruct (candidates_sound _ _ _ _ _ _ _ _ Hc). auto.
Qed.

Lemma shortest_sound (sg : bool) (m : positive) (e s k n : Z) :
  Print.shortest (S754_finite sg m e) = Some (s, k, n) ->
  1 <= k /\ 10 ^ (k - 1) <= s < 10 ^ k
  /\ JS.of_decimal s (n - k) = S754_finite false m e.
Proof. unfold Print.shortest. apply shortest_from_sound. lia. Qed.

Lemma isNumber_app_letter (d rest : string) (c : ascii) :
  all_chars is_digit d = true -> is_digit c = false -> (code c =? 46)%N = false ->
  isNumber (d ++ String c rest) = false.
Proof.
  intros Hd Hc Hp. unfold isNumber.
  rewrite span_app; [| exact Hd | simpl; now rewrite Hc].
  rewrite Hp. apply andb_false_r.
Qed.

Lemma all_chars_take (p : ascii -> bool) (n : nat) :
  forall s, all_chars p s = true -> all_chars p (Print.take n s) = true.
Proof.
  induction n as [| n IH]; intros s H; [reflexivity|].
  destruct s as [| c s]; [reflexivity|]. simpl in *.
  apply andb_prop in H as [-> H]. now apply IH.
Qed.

Lemma all_chars_drop (p : ascii -> bool) (n : nat) :
  forall s, all_chars p s = true -> all_chars p (Print.drop n s) = true.
Proof.
  induction n as [| n IH]; intros s H; [exact H|].
  destruct s as [| c s]; [reflexivity|]. simpl in *.
  apply andb_prop in H as [_ H]. now apply IH.
Qed.

Lemma isNumber_exponent_short (d rest : string) :
  all_chars is_digit d = true -> isNumber (d ++ "e" ++ rest) = false.
Proof. intros Hd. cbn [append]. now apply isNumber_app_letter. Qed.

(** The exponent form is no number for [isNumber]. *)
Lemma isNumber_exponent_form (d1 d2 rest : string) :
  all_chars is_digit d1 = true -> all_chars is_digit d2 = true ->
  isNumber (d1 ++ "." ++ d2 ++ "e" ++ rest) = false.
Proof.
  intros H1 H2. unfold isNumber.
  rewrite span_app; [| exact H1 | reflexivity].
  cbn [append]. change (code "." =? 46)%N with true.
  rewrite all_chars_app, H2. cbn. apply andb_false_r.
Qed.

(** A string of a number that [isNumber] accepts is a literal with the
    value of the digits. *)
Lemma format_literal (s k n : Z) :
  1 <= k -> 10 ^ (k - 1) <= s < 10 ^ k ->
  isNumber (Print.format s k n) = true ->
  exists l, literal_ok l = true /\ Print.format s k n = literal_text l
            /\ literal_value l = JS.of_decimal s (n - k).
Proof.
  intros Hk Hs. destruct (digits_spec s k ltac:(lia) Hs) as (Hd & Hv & Hl).
  assert (Hne : is_empty (Print.digits s) = false).
  { destruct (Print.digits s); [simpl in Hl; lia | reflexivity]. }
  unfold Print.format.
  destruct (Z.leb_spec k n) as [Hkn | Hkn]; cbn [andb].
  { destruct (Z.leb_spec n 21) as [Hn | Hn].
    - intros _. exists (Whole (Print.digits s ++ Print.zeros (Z.to_nat (n - k)))).
      split; [| split; [reflexivity|]].
      + cbn [literal_ok]. unfold some_digits.
        rewrite all_chars_app, Hd, zeros_digits.
        destruct (Print.digits s); [discriminate | reflexivity].
      + cbn [literal_value]. rewrite digits_value_app, Hv, digits_value_zeros.
        rewrite Z2Nat.id by lia. unfold JS.of_decimal.
        destruct (Z.leb_spec 0 (n - k)); [| lia].
        change (0 <=? 0) with true. cbv iota. f_equal. lia.
    - destruct (Z.ltb_spec 0 n); [| lia]. cbn [andb].
      destruct (Z.ltb_spec (-6) n); [| lia]. cbn [andb].
      destruct (Z.leb_spec n 0); [lia|].
      destruct (Z.eqb_spec k 1) as [-> | Hk1].
      + intros Hnum. rewrite isNumber_exponent_short in Hnum;
          [discriminate | exact Hd].
      + intros Hnum. rewrite isNumber_exponent_form in Hnum; [discriminate | |].
        * now apply all_chars_take.
        * now apply all_chars_drop. }
  destruct (Z.ltb_spec 0 n) as [H0n | H0n]; cbn [andb].
  { destruct (Z.leb_spec n 21) as [Hn | Hn].
    - intros _.
      exists (Point (Print.take (Z.to_nat n) (Print.digits s))
                    (Print.drop (Z.to_nat n) (Print.digits s))).
      assert (Hlt : (Z.to_nat n <= String.length (Print.digits s))%nat) by lia.
      assert (Htl := take_length _ _ Hlt).
      assert (Hdl : String.length (Print.drop (Z.to_nat n) (Print.digits s))
                    = Z.to_nat (k - n)).
      { assert (H := f_equal String.length (take_drop (Z.to_nat n) (Print.digits s))).
        rewrite length_append in H. lia. }
      split; [| split; [reflexivity|]].
      + cbn [literal_ok]. unfold some_digits.
        rewrite all_chars_take, all_chars_drop by exact Hd.
        destruct (Print.take (Z.to_nat n) (Print.digits s));
          [simpl in Htl; lia | reflexivity].
      + cbn [literal_value]. rewrite take_drop, Hv, Hdl. f_equal. lia.
    - destruct (Z.ltb_spec (-6) n); [| lia]. cbn [andb].
      destruct (Z.leb_spec n 0); [lia|].
      destruct (Z.eqb_spec k 1) as [-> | Hk1].
      + intros Hnum. rewrite isNumber_exponent_short in Hnum;
          [discriminate | exact Hd].
      + intros Hnum. rewrite isNumber_exponent_form in Hnum; [discriminate | |].
        * now apply all_chars_take.
        * now apply all_chars_drop. }
  destruct (Z.ltb_spec (-6) n) as [H6 | H6]; cbn [andb].
  { destruct (Z.leb_spec n 0); [| lia].
    intros _. exists (Point "0" (Print.zeros (Z.to_nat (- n)) ++ Print.digits s)).
    split; [| split; [reflexivity|]].
    - cbn [literal_ok]. now rewrite all_chars_app, zeros_digits, Hd.
    - cbn [literal_value append].
      cbn [digits_value]. change (10 * 0 + digit "0") with 0.
      rewrite digits_value_app, digits_value_zeros, Z.mul_0_l, Hv.
      rewrite length_append, zeros_length, Hl. f_equal. lia. }
  destruct (Z.eqb_spec k 1) as [-> | Hk1].
  - intros Hnum. rewrite isNumber_exponent_short in Hnum;
      [discriminate | exact Hd].
  - intros Hnum. rewrite isNumber_exponent_form in Hnum; [discriminate | |].
    + now apply all_chars_take.
    + now apply all_chars_drop.
Qed.

Section RoundTrip.

Context {M : MathLib}.

(** A number other than [-0] whose string is a number for [isNumber]
    evaluates, as a string, to itself. *)
Lemma string_reread (r : JS.number) :
  isNumber (Print.ToString r) = true -> Print.same r (S754_zero true) = false ->
  evaluateExpression (Print.ToString r) = Ok r.
Proof.
  destruct r as [sg | sg | | sg m e]; cbn [Print.ToString].
  - destruct sg; [discriminate|]. intros _ _. by_computation.
  - destruct sg; discriminate.
  - discriminate.
  - destruct (Print.shortest (S754_finite sg m e)) as [[[s k] n] |] eqn:Hs;
      [| discriminate].
    destruct (shortest_sound _ _ _ _ _ _ Hs) as (Hk & Hrange & Hround).
    destruct sg.
    + destruct (Print.format s k n); discriminate.
    + cbn [append]. intros Hnum _.
      destruct (format_literal s k n Hk Hrange Hnum) as (l & Hl & -> & Hv).
      change (literal_text l) with (text "" (Lit l)).
      rewrite evaluation_correct by auto. cbn [denote]. now rewrite Hv, Hround.
Qed.

End RoundTrip.
(** * The claims *)

(** C1: every well-formed expression of non-negative literals, the binary
    operators [+ - * / % ^] and parentheses evaluates to its value under
    the precedence table (levels 1, 2, 3), with [^] grouping to the right,
    the others to the left, and parentheses overriding; ["2+3*4"] is 14,
    ["2^3^2"] is 512 and ["(2+3)*4"] is 20. *)
Theorem infix_evaluation (M : MathLib) :
  (forall sep e,
     all_chars is_blank sep = true ->
     arithmetic e = true -> well_formed e = true ->
     evaluateExpression (text sep e) = Ok (denote e))
  /\ evaluateExpression "2+3*4" = Ok (JS.of_Z 14)
  /\ evaluateExpression "2^3^2" = Ok (JS.of_Z 512)
  /\ evaluateExpression "(2+3)*4" = Ok (JS.of_Z 20).
Proof.
  split; [intros sep e Hs _ Hw; now apply evaluation_correct|].
  split; [| split].
  - change "2+3*4"
      with (text "" (Bin Add (Lit (Whole "2"))
                       (Bin Mul (Lit (Whole "3")) (Lit (Whole "4"))))).
    rewrite evaluation_correct by reflexivity. by_computation.
  - change "2^3^2"
      with (text "" (Bin Pow (Lit (Whole "2"))
                       (Bin Pow (Lit (Whole "3")) (Lit (Whole "2"))))).
    rewrite evaluation_correct by reflexivity. cbn [denote op_fun].
    rewrite (Math_pow_integers (literal_value (Whole "3"))
               (literal_value (Whole "2")) 3 2 eq_refl eq_refl eq_refl).
    now rewrite (Math_pow_integers (literal_value (Whole "2")) (JS.of_Z (3 ^ 2))
                   2 9 eq_refl eq_refl eq_refl).
  - change "(2+3)*4"
      with (text "" (Bin Mul (Paren (Bin Add (Lit (Whole "2")) (Lit (Whole "3"))))
                       (Lit (Whole "4")))).
    rewrite evaluation_correct by reflexivity. by_computation.
Qed.

Lemma infix_evaluation_witness :
  every_host (fun M =>
    well_formed (Bin Sub (Lit (Point "7" "5")) (Bin Rem (Lit (Whole "10")) (Lit (Whole "4")))) = true
    /\ evaluateExpression "7.5 - 10 % 4" = Ok (JS.of_decimal 55 (-1))).
Proof.
  constructor. intros M. split; [reflexivity|].
  change "7.5 - 10 % 4"
    with (text " " (Bin Sub (Lit (Point "7" "5"))
                      (Bin Rem (Lit (Whole "10")) (Lit (Whole "4"))))).
  rewrite (proj1 (infix_evaluation M)) by reflexivity. by_computation.
Defined.

(** C2, as the code has it: an opening parenthesis that is never closed
    makes [evaluateExpression] throw (it is flushed to the postfix form and
    rejected as a token), as for ["(2+3"]; a closing parenthesis with no
    opening one on the operator stack is no error: the stack is emptied
    into the output and evaluation goes on, so an expression followed by a
    stray [")"] has the value of the expression, and ["2+3)"] is 5. *)
Theorem unbalanced_parentheses (M : MathLib) :
  (forall input, (0 < unclosed 0 input)%nat ->
     exists t, evaluateExpression input = Throw (InvalidToken t))
  /\ evaluateExpression "(2+3" = Throw (InvalidToken "(")
  /\ (forall output ops, Forall (fun t => not_open t = true) ops ->
        shunt (output, ops) ")" = (output ++ ops, []))
  /\ (forall sep e, all_chars is_blank sep = true -> well_formed e = true ->
        evaluateExpression (text sep e ++ ")") = Ok (denote e))
  /\ evaluateExpression "2+3)" = Ok (JS.of_Z 5).
Proof.
  split; [apply unclosed_throws|].
  split; [by_computation|].
  split; [apply shunt_stray_close|].
  split; [apply stray_close_ignored|].
  by_computation.
Qed.

Lemma unbalanced_parentheses_witness :
  every_host (fun M =>
    (0 < unclosed 0 "sin(2*(3+4)")%nat
    /\ exists t, evaluateExpression "sin(2*(3+4)" = Throw (InvalidToken t)).
Proof.
  constructor. intros M. split; [cbn; lia|].
  apply (proj1 (unbalanced_parentheses M)). cbn; lia.
Defined.

(** C2 fails as stated: ["2+3)"] has a closing parenthesis with no opening
    one, and evaluates to 5 without an error. *)
Lemma stray_close_accepted :
  every_host (fun M => evaluateExpression "2+3)" = Ok (JS.of_Z 5)).
Proof. constructor. intros M. by_computation. Qed.

(** C3, as the code has it: no arity is checked.  An operator or function
    that finds too few values on the stack takes [undefined] for the
    missing ones, pushes its result and evaluation goes on: [NaN] for
    [+ - * / %] and for the unary functions, [Math.pow] of [NaN] for [^],
    and 1 for the factorial; ["2+"] and ["*5"] return [NaN]. *)
Theorem missing_operands (M : MathLib) :
  (forall o, apply_token (op_text o) [] = Ok [op_fun o JS.NaN JS.NaN])
  /\ (forall o b, apply_token (op_text o) [b] = Ok [op_fun o JS.NaN b])
  /\ (forall o b, o <> Pow -> op_fun o JS.NaN b = JS.NaN)
  /\ apply_token "!" [] = Ok [JS.of_Z 1]
  /\ (forall f, apply_token (func_text f) [] = Ok [JS.NaN])
  /\ (forall t stack,
        is_operator t = true \/ t = "!" \/ isFunctionName t = true ->
        exists x stack', apply_token t stack = Ok (x :: stack'))
  /\ evaluateExpression "2+" = Ok JS.NaN
  /\ evaluateExpression "*5" = Ok JS.NaN.
Proof.
  split; [intros o; now destruct o|].
  split; [intros o b; now destruct o|].
  split; [intros o b Ho; destruct o; try reflexivity; try (now destruct b); congruence|].
  split; [reflexivity|].
  split.
  { intros f. destruct f.
    - change (apply_token (func_text Sin) []) with (Ok [Math_sin JS.NaN]).
      now rewrite Math_sin_NaN.
    - change (apply_token (func_text Cos) []) with (Ok [Math_cos JS.NaN]).
      now rewrite Math_cos_NaN.
    - change (apply_token (func_text Tan) []) with (Ok [Math_tan JS.NaN]).
      now rewrite Math_tan_NaN.
    - reflexivity.
    - change (apply_token (func_text Log) [])
        with (Ok [log10_or_fallback JS.NaN]).
      unfold log10_or_fallback. destruct Math_log10 as [g |] eqn:Hg.
      + now rewrite (Math_log10_NaN g Hg).
      + rewrite Math_log_NaN. reflexivity.
    - change (apply_token (func_text Ln) []) with (Ok [Math_log JS.NaN]).
      now rewrite Math_log_NaN. }
  split; [| split; by_computation].
  intros t stack H. unfold is_operator, isFunctionName in H. cbn [existsb] in H.
  rewrite !orb_true_iff, !String.eqb_eq in H.
  intuition subst; try discriminate;
    (destruct stack as [| b [| a stack]]; eexists; eexists; reflexivity).
Qed.

Lemma missing_operands_witness :
  every_host (fun M =>
    is_operator "/" = true
    /\ exists x stack', apply_token "/" [JS.of_Z 1] = Ok (x :: stack')).
Proof.
  constructor. intros M. split; [reflexivity|].
  apply (proj1 (proj2 (proj2 (proj2 (proj2 (proj2 (missing_operands M))))))).
  left. reflexivity.
Defined.

(** C3 fails as stated: ["2+"] and ["*5"] reach an operator with one value
    on the stack, and both return [NaN] instead of throwing. *)
Lemma missing_operand_no_error :
  every_host (fun M =>
    evaluateExpression "2+" = Ok JS.NaN /\ evaluateExpression "*5" = Ok JS.NaN).
Proof. constructor. intros M. split; by_computation. Qed.

(** C4, as the code has it: a result other than [-0] whose string is an
    unsigned decimal numeral (digits, with or without a point and more
    digits) evaluates, as a string, to itself: ["14"] after ["2+3*4"], and
    the fraction ["0.30000000000000004"] after ["0.1+0.2"].  A negative
    result does not: the string of [2-3] is ["-1"], which evaluates to
    [NaN]. *)
Theorem result_round_trip (M : MathLib) :
  (forall r,
     isNumber (Print.ToString r) = true ->
     Print.same r (S754_zero true) = false ->
     evaluateExpression (Print.ToString r) = Ok r)
  /\ (evaluateExpression "2+3*4" = Ok (JS.of_Z 14)
      /\ Print.ToString (JS.of_Z 14) = "14"
      /\ evaluateExpression "14" = Ok (JS.of_Z 14))
  /\ (evaluateExpression "0.1+0.2"
      = Ok (JS.add (JS.of_decimal 1 (-1)) (JS.of_decimal 2 (-1)))
      /\ Print.ToString (JS.add (JS.of_decimal 1 (-1)) (JS.of_decimal 2 (-1)))
         = "0.30000000000000004"
      /\ evaluateExpression "0.30000000000000004"
         = Ok (JS.add (JS.of_decimal 1 (-1)) (JS.of_decimal 2 (-1))))
  /\ (evaluateExpression "2-3" = Ok (JS.of_Z (-1))
      /\ Print.ToString (JS.of_Z (-1)) = "-1"
      /\ evaluateExpression "-1" = Ok JS.NaN).
Proof.
  split; [apply string_reread|].
  repeat split; by_computation.
Qed.

Lemma result_round_trip_witness :
  every_host (fun M =>
    (isNumber (Print.ToString (JS.div (JS.of_Z 1) (JS.of_Z 3))) = true
     /\ Print.same (JS.div (JS.of_Z 1) (JS.of_Z 3)) (S754_zero true) = false)
    /\ evaluateExpression "0.3333333333333333"
       = Ok (JS.div (JS.of_Z 1) (JS.of_Z 3))).
Proof.
  constructor. intros M. split; [split; by_computation|].
  change "0.3333333333333333"
    with (Print.ToString (S754_finite false 6004799503160661 (-54))).
  apply (proj1 (result_round_trip M)); reflexivity.
Defined.

(** C4 fails as stated: ["2-3"] evaluates to -1, the string of -1 is
    ["-1"], and ["-1"] evaluates to [NaN]. *)
Lemma negative_result_not_reread :
  every_host (fun M =>
    evaluateExpression "2-3" = Ok (JS.of_Z (-1))
    /\ Print.ToString (JS.of_Z (-1)) = "-1"
    /\ evaluateExpression "-1" = Ok JS.NaN).
Proof. constructor. intros M. repeat split; by_computation. Qed.

(** C5, as the code has it: the postfix [!] pops one operand [n] and
    pushes [factorialFn n]: [Infinity] when [n < 0] or [n > 170], and
    otherwise the product [1 * 2 * ... * floor n] multiplied out by the
    loop in number arithmetic, each multiplication rounded (the loop
    leaves by its condition whatever the fuel), with [0! = 1].  That is
    the integer product itself up to 22!, the number nearest to it up to
    27!, and always within [2^-50] of it, relatively; ["0!"] is 1, ["5!"]
    is 120 and ["171!"] is [Infinity]. *)
Theorem factorial_operator (M : MathLib) :
  (forall n stack,
     apply_token "!" (n :: stack) = Ok (factorialFn (JS.num n) :: stack))
  /\ (forall sep e, all_chars is_blank sep = true -> well_formed (Fact e) = true ->
        evaluateExpression (text sep (Fact e))
        = Ok (factorialFn (JS.num (denote e))))
  /\ (forall n, JS.lt n (JS.of_Z 0) = true \/ JS.lt (JS.of_Z 170) n = true ->
        factorialFn (JS.num n) = JS.Infinity)
  /\ (forall n, valid_binary JS.prec JS.emax n = true ->
        JS.lt n (JS.of_Z 0) = false -> JS.lt (JS.of_Z 170) n = false ->
        JS.isNaN n = false ->
        0 <= floor_int n <= 170
        /\ factorialFn (JS.num n) = product_upto (Z.to_nat (floor_int n)))
  /\ (forall n extra, valid_binary JS.prec JS.emax n = true ->
        JS.lt n (JS.of_Z 0) = false -> JS.lt (JS.of_Z 170) n = false ->
        factorial_loop (170 + extra) (JS.Math_floor n) (JS.of_Z 2) (JS.of_Z 1)
        = factorial_loop 170 (JS.Math_floor n) (JS.of_Z 2) (JS.of_Z 1))
  /\ (forall k, (k <= 22)%nat ->
        product_upto k = JS.of_Z (factorial k)
        /\ within 0 (product_upto k) (factorial k) = true)
  /\ (forall k, (k <= 27)%nat -> product_upto k = JS.of_Z (factorial k))
  /\ (forall k, (k <= 170)%nat -> within 8 (product_upto k) (factorial k) = true)
  /\ evaluateExpression "0!" = Ok (JS.of_Z 1)
  /\ evaluateExpression "5!" = Ok (JS.of_Z 120)
  /\ evaluateExpression "171!" = Ok JS.Infinity.
Proof.
  assert (Hnearest : forall k, (k <= 27)%nat ->
                     product_upto k = JS.of_Z (factorial k)).
  { intros k Hk. apply same_eq.
    apply (proj1 (forallb_forall _ _) factorial_exact_table k).
    apply in_seq. lia. }
  split; [reflexivity|].
  split; [intros sep e Hs Hw; now rewrite evaluation_correct|].
  split.
  { intros n H. unfold factorialFn. cbn [JS.ToNumber].
    destruct H as [-> | ->]; [reflexivity | now rewrite orb_true_r]. }
  split; [apply factorialFn_product|].
  split; [intros n extra; apply factorial_loop_fuel|].
  split.
  { intros k Hk. split; [apply Hnearest; lia|].
    apply (products_within_spec 0 23 0 _ _ products_exact_table eq_refl eq_refl).
    lia. }
  split; [exact Hnearest|].
  split; [| repeat split; by_computation].
  intros k Hk.
  apply (products_within_spec 8 171 0 _ _ products_near_table eq_refl eq_refl).
  lia.
Qed.

Lemma factorial_operator_witness :
  every_host (fun M =>
    (valid_binary JS.prec JS.emax (JS.of_decimal 45 (-1)) = true
     /\ JS.lt (JS.of_decimal 45 (-1)) (JS.of_Z 0) = false
     /\ JS.lt (JS.of_Z 170) (JS.of_decimal 45 (-1)) = false
     /\ JS.isNaN (JS.of_decimal 45 (-1)) = false)
    /\ factorialFn (JS.num (JS.of_decimal 45 (-1))) = JS.of_Z 24).
Proof.
  constructor. intros M. split; [repeat split|].
  destruct (proj1 (proj2 (proj2 (proj2 (factorial_operator M))))
              (JS.of_decimal 45 (-1)) eq_refl eq_refl eq_refl eq_refl)
    as [_ ->].
  reflexivity.
Defined.

(** C5 fails as stated: the number pushed is not the integer product.
    ["23!"] is [6163601097794766 * 2^22], which is
    25852016738884978212864, while the integer product is
    25852016738884976640000 and no number; and ["28!"], rounded at every
    multiplication, is the number below the one nearest to the integer
    product. *)
Lemma factorial_not_integer_product :
  every_host (fun M =>
    evaluateExpression "23!" = Ok (S754_finite false 6163601097794766 22)
    /\ 6163601097794766 * 2 ^ 22 = 25852016738884978212864
    /\ factorial 23 = 25852016738884976640000
    /\ within 0 (S754_finite false 6163601097794766 22) (factorial 23) = false
    /\ evaluateExpression "28!" = Ok (S754_finite false 8665447939271014 45)
    /\ JS.of_Z (factorial 28) = S754_finite false 8665447939271015 45).
Proof. constructor. intros M. repeat split; by_computation. Qed.

(** C6: when the loop over the postfix form is through, a stack of exactly
    one value gives that value as the result, and any other stack (none,
    or two or more values, as for ["2 3"]) makes [evaluateExpression]
    throw ['Invalid expression'], which is thrown in no other way. *)
Theorem termination_contract (M : MathLib) :
  (forall input stack,
     run (to_rpn (map normalize (tokens_of input))) [] = Ok stack ->
     (List.length stack = 1%nat ->
      exists x, stack = [x] /\ evaluateExpression input = Ok x)
     /\ (List.length stack <> 1%nat ->
         evaluateExpression input = Throw InvalidExpression))
  /\ (forall input x,
        evaluateExpression input = Ok x ->
        run (to_rpn (map normalize (tokens_of input))) [] = Ok [x])
  /\ (forall input,
        evaluateExpression input = Throw InvalidExpression ->
        exists stack,
          run (to_rpn (map normalize (tokens_of input))) [] = Ok stack
          /\ List.length stack <> 1%nat)
  /\ evaluateExpression "2 3" = Throw InvalidExpression
  /\ evaluateExpression "" = Throw InvalidExpression.
Proof.
  split; [| split; [| split; [| split; by_computation]]].
  - intros input stack H. unfold evaluateExpression. rewrite H.
    destruct stack as [| x [| y stack]]; cbn [finish List.length]; split;
      intros Hl; try lia; try reflexivity.
    exists x. auto.
  - intros input x. unfold evaluateExpression.
    destruct (run _ []) as [[| y [| z stack]] | e]; cbn [finish]; congruence.
  - intros input. unfold evaluateExpression.
    destruct (run _ []) as [stack | e] eqn:Hrun.
    + intros H. exists stack. split; [reflexivity|].
      destruct stack as [| y [| z stack]]; cbn [finish List.length] in *;
        [lia | discriminate | lia].
    + destruct (run_throws _ _ _ Hrun) as [t ->]. cbn [finish]. discriminate.
Qed.

Lemma termination_contract_witness :
  every_host (fun M =>
    run (to_rpn (map normalize (tokens_of "2 3 4"))) []
    = Ok [JS.of_Z 4; JS.of_Z 3; JS.of_Z 2]
    /\ evaluateExpression "2 3 4" = Throw InvalidExpression).
Proof.
  constructor. intros M.
  assert (H : run (to_rpn (map normalize (tokens_of "2 3 4"))) []
              = Ok [JS.of_Z 4; JS.of_Z 3; JS.of_Z 2]) by by_computation.
  split; [exact H|].
  apply (proj1 (termination_contract M) "2 3 4" _ H). cbn. lia.
Defined.

(** The tokenizer steps over the square-root symbol. *)
Lemma tokens_of_sqrt_symbol (rest : string) :
  tokens_of ("√" ++ rest) = tokens_of rest.
Proof. cbn [append]. now rewrite !tokens_of_blank. Qed.

(** A function is pushed, and goes to [output] right after the closing
    parenthesis of its argument. *)
Lemma shunt_call (f : func) (e : expr) (output ops rest : list string) :
  well_formed e = true ->
  fold_left shunt (func_text f :: "(" :: infix e ++ ")" :: rest) (output, ops)
  = fold_left shunt rest (output ++ postfix e ++ [func_text f], ops).
Proof.
  intros Hw. cbn [fold_left]. rewrite shunt_func.
  change (shunt (output, func_text f :: ops) "(")
    with (output, "(" :: func_text f :: ops).
  rewrite shunt_expr; [| exact Hw | apply calm_open].
  cbn [fold_left]. f_equal.
  rewrite shunt_close, shunt_closing. cbn [tl].
  rewrite func_is_function. now rewrite app_assoc.
Qed.

(** C7, as the code has it: the named functions are function tokens, pushed
    onto the operator stack and moved to the output right after the closing
    parenthesis of their argument, so that ["sqrt(16)"] is 4.  The symbol
    [√] is none of them and matches no class of the tokenizer, which steps
    over it: an input evaluates as it does without the symbol, and
    ["√(16)"] is 16. *)
Theorem square_root_symbol (M : MathLib) :
  (forall rest, tokens_of ("√" ++ rest) = tokens_of rest)
  /\ (forall rest, evaluateExpression ("√" ++ rest) = evaluateExpression rest)
  /\ isFunctionName "√" = false
  /\ (forall f output ops,
        isFunctionName (func_text f) = true
        /\ shunt (output, ops) (func_text f) = (output, func_text f :: ops))
  /\ (forall f e output ops rest, well_formed e = true ->
        fold_left shunt (func_text f :: "(" :: infix e ++ ")" :: rest) (output, ops)
        = fold_left shunt rest (output ++ postfix e ++ [func_text f], ops))
  /\ (forall sep e, all_chars is_blank sep = true -> well_formed e = true ->
        evaluateExpression (text sep (Call Sqrt e)) = Ok (JS.Math_sqrt (denote e))
        /\ evaluateExpression ("√" ++ text sep (Paren e)) = Ok (denote e))
  /\ evaluateExpression "sqrt(16)" = Ok (JS.of_Z 4)
  /\ evaluateExpression "√(16)" = Ok (JS.of_Z 16).
Proof.
  assert (Hskip : forall rest,
            evaluateExpression ("√" ++ rest) = evaluateExpression rest).
  { intros rest. unfold evaluateExpression. now rewrite tokens_of_sqrt_symbol. }
  split; [apply tokens_of_sqrt_symbol|].
  split; [exact Hskip|].
  split; [reflexivity|].
  split; [intros f output ops; split; [apply func_is_function | apply shunt_func]|].
  split; [intros f e output ops rest; apply shunt_call|].
  split; [| split; by_computation].
  intros sep e Hs Hw. split.
  - now rewrite evaluation_correct.
  - rewrite Hskip. now rewrite evaluation_correct.
Qed.

Lemma square_root_symbol_witness :
  every_host (fun M =>
    well_formed (Bin Add (Lit (Whole "9")) (Lit (Whole "16"))) = true
    /\ evaluateExpression "sqrt(9+16)" = Ok (JS.of_Z 5)
    /\ evaluateExpression "√(9+16)" = Ok (JS.of_Z 25)).
Proof.
  constructor. intros M. split; [reflexivity|].
  destruct (proj1 (proj2 (proj2 (proj2 (proj2 (proj2 (square_root_symbol M))))))
              "" (Bin Add (Lit (Whole "9")) (Lit (Whole "16"))) eq_refl eq_refl)
    as [H1 H2].
  split.
  - change "sqrt(9+16)"
      with (text "" (Call Sqrt (Bin Add (Lit (Whole "9")) (Lit (Whole "16"))))).
    rewrite H1. by_computation.
  - change "√(9+16)"
      with ("√" ++ text "" (Paren (Bin Add (Lit (Whole "9")) (Lit (Whole "16")))))%string.
    rewrite H2. by_computation.
Defined.

(** C7 fails as stated: the symbol is dropped, the parenthesised argument
    is all that is evaluated, and ["√(16)"] is 16, not 4. *)
Lemma square_root_symbol_dropped :
  every_host (fun M =>
    tokens_of "√(16)" = ["("; "16"; ")"]
    /\ evaluateExpression "√(16)" = Ok (JS.of_Z 16)).
Proof. constructor. intros M. split; by_computation. Qed.



(** C9: a unary function pops one operand and pushes the host's function
    of it, with no conversion of the argument (radians); [log] is
    [Math.log10] (or [Math.log(a) / Math.LN10] on a host without it) and
    [ln] is [Math.log]; ["sin(0)"] is 0, ["cos(0)"] is 1, ["sqrt(16)"] is
    4, ["log(100)"] is 2 and ["ln(1)"] is 0. *)
Theorem unary_functions (M : MathLib) :
  (forall f a stack,
     apply_token (func_text f) (a :: stack) = Ok (func_fun f a :: stack))
  /\ (forall sep f e, all_chars is_blank sep = true -> well_formed e = true ->
        evaluateExpression (text sep (Call f e)) = Ok (func_fun f (denote e)))
  /\ (forall a, func_fun Sin a = Math_sin a /\ func_fun Cos a = Math_cos a
                /\ func_fun Tan a = Math_tan a /\ func_fun Ln a = Math_log a
                /\ func_fun Sqrt a = JS.Math_sqrt a)
  /\ (forall log10 a, Math_log10 = Some log10 -> func_fun Log a = log10 a)
  /\ (forall a, Math_log10 = None ->
        func_fun Log a = JS.div (Math_log a) Math_LN10)
  /\ evaluateExpression "sin(0)" = Ok (JS.of_Z 0)
  /\ evaluateExpression "cos(0)" = Ok (JS.of_Z 1)
  /\ evaluateExpression "sqrt(16)" = Ok (JS.of_Z 4)
  /\ (forall log10, Math_log10 = Some log10 ->
        evaluateExpression "log(100)" = Ok (JS.of_Z 2))
  /\ evaluateExpression "ln(1)" = Ok (JS.of_Z 0).
Proof.
  split; [apply apply_func|].
  split; [intros sep f e Hs Hw; now rewrite evaluation_correct|].
  split; [intros a; repeat split|].
  split; [intros log10 a H; cbn [func_fun]; unfold log10_or_fallback; now rewrite H|].
  split; [intros a H; cbn [func_fun]; unfold log10_or_fallback; now rewrite H|].
  split.
  { change "sin(0)" with (text "" (Call Sin (Lit (Whole "0")))).
    rewrite evaluation_correct by reflexivity. cbn [denote func_fun].
    change (literal_value (Whole "0")) with (S754_zero false).
    now rewrite Math_sin_zero. }
  split.
  { change "cos(0)" with (text "" (Call Cos (Lit (Whole "0")))).
    rewrite evaluation_correct by reflexivity. cbn [denote func_fun].
    change (literal_value (Whole "0")) with (S754_zero false).
    now rewrite Math_cos_zero. }
  split; [by_computation|].
  split.
  { intros log10 H.
    change "log(100)" with (text "" (Call Log (Lit (Whole "100")))).
    rewrite evaluation_correct by reflexivity. cbn [denote func_fun].
    unfold log10_or_fallback. rewrite H.
    rewrite (Math_log10_pow10 log10 (literal_value (Whole "100")) 2 H eq_refl);
      [reflexivity | lia]. }
  change "ln(1)" with (text "" (Call Ln (Lit (Whole "1")))).
  rewrite evaluation_correct by reflexivity. cbn [denote func_fun].
  change (literal_value (Whole "1")) with (JS.of_Z 1).
  now rewrite Math_log_one.
Qed.

Lemma unary_functions_witness :
  @Math_log10 exact_points_host = Some Host.exact_log10
  /\ @evaluateExpression exact_points_host "log(100)" = Ok (JS.of_Z 2).
Proof.
  split; [reflexivity|].
  apply (proj1 (proj2 (proj2 (proj2 (proj2 (proj2 (proj2 (proj2 (proj2
           (unary_functions exact_points_host))))))))) Host.exact_log10).
  reflexivity.
Defined.

(** C10: the constants are replaced before the names are lowercased, so
    they are recognised in the spellings [pi], [PI], [π] and [e] only:
    these evaluate to [Math.PI] and [Math.E], while ["Pi"], ["pI"] and
    ["E"] reach evaluation in lower case and are rejected as tokens;
    function names are recognised in any case, as in ["SIN(0)"]. *)
Theorem constant_case_sensitivity (M : MathLib) :
  evaluateExpression "pi" = Ok JS.Math_PI
  /\ evaluateExpression "PI" = Ok JS.Math_PI
  /\ evaluateExpression "π" = Ok JS.Math_PI
  /\ evaluateExpression "e" = Ok JS.Math_E
  /\ normalize "Pi" = "pi" /\ normalize "pI" = "pi" /\ normalize "E" = "e"
  /\ evaluateExpression "Pi" = Throw (InvalidToken "pi")
  /\ evaluateExpression "pI" = Throw (InvalidToken "pi")
  /\ evaluateExpression "E" = Throw (InvalidToken "e")
  /\ (forall t sep f e,
        is_name t = true -> toLowerCase t = func_text f ->
        all_chars is_blank sep = true -> well_formed e = true ->
        normalize t = func_text f
        /\ evaluateExpression (t ++ sep ++ "(" ++ sep ++ text sep e ++ sep ++ ")")
           = Ok (func_fun f (denote e)))
  /\ evaluateExpression "SIN(0)" = Ok (JS.of_Z 0).
Proof.
  do 10 (split; [by_computation|]).
  split; [intros t sep f e; apply call_any_case|].
  destruct (call_any_case "SIN" "" Sin (Lit (Whole "0")) eq_refl eq_refl eq_refl eq_refl)
    as [_ H].
  change ("SIN" ++ "" ++ "(" ++ "" ++ text "" (Lit (Whole "0")) ++ "" ++ ")")%string
    with "SIN(0)" in H.
  rewrite H. cbn [denote func_fun].
  change (literal_value (Whole "0")) with (S754_zero false).
  now rewrite Math_sin_zero.
Qed.

Lemma constant_case_sensitivity_witness :
  every_host (fun M =>
    (is_name "SqRt" = true /\ toLowerCase "SqRt" = func_text Sqrt)
    /\ evaluateExpression "SqRt ( pi )" = Ok (JS.Math_sqrt JS.Math_PI)).
Proof.
  constructor. intros M. split; [split; reflexivity|].
  apply (proj1 (proj2 (proj2 (proj2 (proj2 (proj2 (proj2 (proj2 (proj2 (proj2
           (proj2 (constant_case_sensitivity M)))))))))))
           "SqRt" " " Sqrt (Const LowerPi)); reflexivity.
Defined.
(** * The keys, and the evaluator on any input *)

(** ** Characters and substrings *)

Lemma code_eqb (a b : ascii) : Ascii.eqb a b = (code a =? code b)%N.
Proof.
  unfold code. destruct (Ascii.eqb_spec a b) as [-> | Hn].
  - now rewrite N.eqb_refl.
  - symmetry. apply N.eqb_neq. intros H. apply Hn.
    now rewrite <- (ascii_N_embedding a), <- (ascii_N_embedding b), H.
Qed.

Lemma has_app (n : N) (a b : string) :
  has n (a ++ b) = has n a || has n b.
Proof.
  induction a as [| c a IH]; [reflexivity|].
  cbn [append has]. now rewrite IH, orb_assoc.
Qed.

Lemma has_all_chars (n : N) (p : ascii -> bool) (s : string) :
  (forall c, p c = true -> (code c =? n)%N = false) ->
  all_chars p s = true -> has n s = false.
Proof.
  intros Hp. induction s as [| c s IH]; [reflexivity|].
  cbn [all_chars has]. intros H. apply andb_prop in H as [Hc Hs].
  now rewrite (Hp c Hc), IH.
Qed.

(** Two strings differ when a character is in one and not in the other. *)
Lemma differs_by (n : N) (a b : string) :
  has n a = true -> has n b = false -> (a =? b)%string = false.
Proof.
  intros Ha Hb. destruct (String.eqb_spec a b) as [-> |]; [| reflexivity].
  rewrite Ha in Hb. discriminate.
Qed.

Lemma strip_prefix_spec (p : string) :
  forall s r, Parse.strip_prefix p s = Some r -> s = (p ++ r)%string.
Proof.
  induction p as [| a p IH]; intros s r; cbn [Parse.strip_prefix append].
  - now intros [= ->].
  - destruct s as [| b s]; [discriminate|].
    destruct (Ascii.eqb_spec a b) as [-> | _]; [| discriminate].
    intros H. now rewrite (IH s r H).
Qed.

Lemma strip_prefix_head (p0 c : ascii) (ps r : string) :
  (code c =? code p0)%N = false ->
  Parse.strip_prefix (String p0 ps) (String c r) = None.
Proof.
  intros H. cbn [Parse.strip_prefix]. rewrite code_eqb, N.eqb_sym. now rewrite H.
Qed.

Lemma contains_absent (p0 : ascii) (ps s : string) :
  has (code p0) s = false -> contains (String p0 ps) s = false.
Proof.
  induction s as [| c s IH]; [reflexivity|].
  cbn [has]. intros H. apply orb_false_elim in H as [Hc Hs].
  cbn [contains]. rewrite (strip_prefix_head _ _ _ _ Hc). now apply IH.
Qed.

(** ** Replacing a literal pattern *)

Lemma replace_from_skip (pat rep : string) (a : string) :
  forall b,
  Text.replace_from pat rep (String.length a) (a ++ b)
  = Text.replace_from pat rep 0 b.
Proof.
  induction a as [| c a IH]; intros b; [reflexivity|].
  cbn [String.length append Text.replace_from]. apply IH.
Qed.

(** At a match, the replacement is put out and the search goes on behind
    the match. *)
Lemma replace_all_match (p0 : ascii) (ps rep s rest : string) :
  Parse.strip_prefix (String p0 ps) s = Some rest ->
  Text.replace_all (String p0 ps) rep s
  = (rep ++ Text.replace_all (String p0 ps) rep rest)%string.
Proof.
  intros H. assert (Hs := strip_prefix_spec _ _ _ H). subst s.
  unfold Text.replace_all. cbn [append].
  cbn [Text.replace_from]. cbn [append] in H. rewrite H.
  replace (String.length (String p0 ps) - 1)%nat with (String.length ps)
    by (cbn [String.length]; lia).
  now rewrite replace_from_skip.
Qed.

(** Where there is no match, the character is kept. *)
Lemma replace_all_miss (pat rep : string) (c : ascii) (r : string) :
  Parse.strip_prefix pat (String c r) = None ->
  Text.replace_all pat rep (String c r)
  = String c (Text.replace_all pat rep r).
Proof. intros H. unfold Text.replace_all. cbn [Text.replace_from]. now rewrite H. Qed.

(** A string without a match is left as it is. *)
Lemma replace_all_none (p0 : ascii) (ps rep s : string) :
  contains (String p0 ps) s = false ->
  Text.replace_all (String p0 ps) rep s = s.
Proof.
  induction s as [| c s IH]; [reflexivity|].
  cbn [contains].
  destruct (Parse.strip_prefix (String p0 ps) (String c s)) eqn:Hp; [discriminate|].
  intros H. rewrite replace_all_miss by exact Hp. now rewrite IH.
Qed.

Lemma replace_all_absent (p0 : ascii) (ps rep s : string) :
  has (code p0) s = false -> Text.replace_all (String p0 ps) rep s = s.
Proof. intros H. apply replace_all_none. now apply contains_absent. Qed.

(** The part before the first character of the pattern is kept. *)
Lemma replace_all_app (p0 : ascii) (ps rep a s : string) :
  has (code p0) a = false ->
  Text.replace_all (String p0 ps) rep (a ++ s)
  = (a ++ Text.replace_all (String p0 ps) rep s)%string.
Proof.
  induction a as [| c a IH]; [reflexivity|].
  cbn [has append]. intros H. apply orb_false_elim in H as [Hc Ha].
  rewrite replace_all_miss by (now apply strip_prefix_head).
  now rewrite IH.
Qed.

(** ** The replacement of factorials *)

Lemma replace_factorials_skip (a : string) :
  forall b,
  Calculator.replace_factorials (String.length a) (a ++ b)
  = Calculator.replace_factorials 0 b.
Proof.
  induction a as [| c a IH]; intros b; [reflexivity|].
  cbn [String.length append Calculator.replace_factorials]. apply IH.
Qed.

(** A string without [!] is left as it is. *)
Lemma replace_factorials_absent (s : string) :
  has 33 s = false -> Calculator.replace_factorials 0 s = s.
Proof.
  induction s as [| c s IH]; [reflexivity|].
  intros H. cbn [Calculator.replace_factorials].
  destruct (span is_digit (String c s)) as [d rest] eqn:Hspan.
  destruct (span_spec _ _ _ _ Hspan) as (Hs & _ & _).
  assert (Hrest : has 33 rest = false).
  { rewrite Hs, has_app in H. now apply orb_false_elim in H. }
  replace (match rest with String b _ => (code b =? 33)%N | "" => false end)
    with false.
  - rewrite andb_false_r. f_equal. apply IH.
    cbn [has] in H. now apply orb_false_elim in H.
  - destruct rest as [| b rest]; [reflexivity|].
    cbn [has] in Hrest. now apply orb_false_elim in Hrest.
Qed.

(** A run of digits with [!] behind it is replaced by the string of the
    factorial of its number. *)
Lemma replace_factorials_match (d rest : string) :
  some_digits d = true -> stops is_digit ("!" ++ rest) = true ->
  Calculator.replace_factorials 0 (d ++ "!" ++ rest)
  = (Print.ToString (Calculator.factorial (Text.parseInt d))
     ++ Calculator.replace_factorials 0 rest)%string.
Proof.
  intros Hd Hstop.
  destruct (some_digits_spec d Hd) as (c & r & -> & Hc & Hr).
  cbn [append Calculator.replace_factorials].
  change (String c (r ++ String "!" rest)) with (String c r ++ String "!" rest)%string.
  rewrite span_app; [| cbn [all_chars]; now rewrite Hc, Hr | exact Hstop].
  cbn [is_empty negb andb]. change (code "!" =? 33)%N with true. cbv iota.
  f_equal.
  change (r ++ String "!" rest)%string with (r ++ ("!" ++ rest))%string.
  replace (String.length (String c r)) with (String.length (r ++ "!")).
  - rewrite <- replace_factorials_skip with (a := (r ++ "!")%string).
    now rewrite append_assoc.
  - rewrite length_append. cbn [String.length]. lia.
Qed.

(** ** The text handed to the evaluator *)

Lemma plain_no (n : N) :
  forallb (fun k => negb (k =? n)%N) [40; 41; 42; 43; 45; 46; 47; 48; 49; 50; 51; 52; 53; 54; 55; 56; 57]%N = true ->
  forall c, plain c = true -> (code c =? n)%N = false.
Proof.
  cbn [forallb]. rewrite !andb_true_iff, !negb_true_iff, !N.eqb_neq.
  intros H c Hc. unfold plain, is_digit in Hc.
  rewrite !orb_true_iff, !andb_true_iff, !N.eqb_eq, !N.leb_le in Hc.
  apply N.eqb_neq. lia.
Qed.

(** A display of digits, points, [+ - * /] and parentheses goes to the
    evaluator as it is. *)
Lemma expr_of_plain (s : string) :
  all_chars plain s = true -> Calculator.expr_of s = s.
Proof.
  intros H. unfold Calculator.expr_of.
  assert (Hno : forall n : N,
            forallb (fun k => negb (k =? n)%N)
              [40; 41; 42; 43; 45; 46; 47; 48; 49; 50; 51; 52; 53; 54; 55; 56; 57]%N
            = true -> has n s = false).
  { intros n Hn. apply (has_all_chars n plain); [now apply plain_no | exact H]. }
  do 9 (rewrite (replace_all_absent _ _ _ s) by (apply Hno; reflexivity)).
  rewrite replace_factorials_absent by (apply Hno; reflexivity).
  now rewrite replace_all_absent by (apply Hno; reflexivity).
Qed.

Lemma all_digits_plain (d : string) :
  all_chars is_digit d = true -> all_chars plain d = true.
Proof.
  apply all_chars_impl. intros c Hc. unfold plain. now rewrite Hc.
Qed.

Lemma literal_plain (l : literal) :
  literal_ok l = true -> all_chars plain (literal_text l) = true.
Proof.
  destruct l as [d | d f | f]; cbn [literal_ok literal_text]; unfold some_digits;
    rewrite ?andb_true_iff.
  - intros [_ H]. now apply all_digits_plain.
  - intros [[_ Hd] Hf]. rewrite all_chars_app. cbn [all_chars].
    now rewrite !all_digits_plain.
  - intros [_ H]. cbn [all_chars]. now rewrite all_digits_plain.
Qed.

Lemma text_plain (e : expr) :
  standard e = true -> well_formed e = true -> all_chars plain (text "" e) = true.
Proof.
  induction e as [l | c | o a IHa b IHb | e IH | f e IH | e IH];
    cbn [standard well_formed text]; try discriminate.
  - intros _. apply literal_plain.
  - intros Hs Hw.
    apply andb_prop in Hs as [Hs Hsb]. apply andb_prop in Hs as [Ho Hsa].
    apply andb_prop in Hw as [Hw _]. apply andb_prop in Hw as [Hwa Hwb].
    rewrite !all_chars_app. rewrite (IHa Hsa Hwa), (IHb Hsb Hwb).
    now destruct o.
  - intros Hs Hw. cbn [append all_chars]. rewrite all_chars_app, (IH Hs Hw).
    reflexivity.
Qed.

Lemma plain_not_error (s : string) :
  all_chars plain s = true ->
  (s =? "Error")%string = false /\ (s =? "Infinity")%string = false.
Proof.
  intros H. split.
  - destruct (String.eqb_spec s "Error") as [-> |]; [discriminate | reflexivity].
  - destruct (String.eqb_spec s "Infinity") as [-> |]; [discriminate | reflexivity].
Qed.

Lemma isNumber_plain (t : string) :
  isNumber t = true -> all_chars plain t = true.
Proof.
  unfold isNumber. destruct (span is_digit t) as [d r] eqn:Hspan.
  destruct (span_spec _ _ _ _ Hspan) as (-> & Hd & _).
  intros H. apply andb_prop in H as [_ H].
  rewrite all_chars_app, (all_digits_plain d Hd).
  destruct r as [| c r]; [reflexivity|].
  apply andb_prop in H as [Hc Hr]. cbn [all_chars andb].
  rewrite (all_digits_plain r Hr). unfold plain. now rewrite Hc, !orb_true_r.
Qed.

Section Equals.

Context {M : MathLib}.

(** The [=] key on a display that is neither ['Error'] nor ['Infinity']. *)
Lemma equals_key (display : string) :
  (display =? "Error")%string = false -> (display =? "Infinity")%string = false ->
  Calculator.handleButtonClick display "="
  = match evaluateExpression (Calculator.expr_of display) with
    | Ok result => Print.ToString result
    | Throw _ => "Error"
    end.
Proof.
  intros H1 H2. unfold Calculator.handleButtonClick. now rewrite H1, H2.
Qed.

Lemma equals_plain (s : string) :
  all_chars plain s = true ->
  Calculator.handleButtonClick s "="
  = match evaluateExpression s with
    | Ok result => Print.ToString result
    | Throw _ => "Error"
    end.
Proof.
  intros H. destruct (plain_not_error s H) as [H1 H2].
  now rewrite equals_key, expr_of_plain.
Qed.

End Equals.

(** ** The string of a number *)

Lemma is_empty_app (a b : string) :
  is_empty (a ++ b) = is_empty a && is_empty b.
Proof. now destruct a. Qed.

Lemma digits_fuel_digits (fuel : nat) :
  forall n acc, 0 <= n -> all_chars is_digit acc = true ->
  all_chars is_digit (Print.digits_fuel fuel n acc) = true.
Proof.
  induction fuel as [| fuel IH]; intros n acc Hn Hacc; [exact Hacc|].
  cbn [Print.digits_fuel]. destruct (Z.ltb_spec n 10) as [Hlt | Hge].
  - cbn [all_chars]. rewrite Hacc.
    now rewrite (proj1 (digit_char_digit n (conj Hn Hlt))).
  - apply IH; [apply Z.div_pos; lia|].
    cbn [all_chars]. rewrite Hacc.
    rewrite (proj1 (digit_char_digit (n mod 10) (Z.mod_pos_bound n 10 eq_refl))).
    reflexivity.
Qed.

Lemma digits_digits (n : Z) : 0 <= n -> all_chars is_digit (Print.digits n) = true.
Proof. intros Hn. now apply digits_fuel_digits. Qed.

Lemma digits_nonempty (n : Z) : is_empty (Print.digits n) = false.
Proof.
  unfold Print.digits. cbn [Print.digits_fuel].
  destruct (n <? 10); [reflexivity|].
  rewrite digits_fuel_acc, is_empty_app. apply andb_false_r.
Qed.

Lemma digit_result (c : ascii) : is_digit c = true -> result_char c = true.
Proof. intros H. unfold result_char. now rewrite H. Qed.

Lemma digits_result (d : string) :
  all_chars is_digit d = true -> all_chars result_char d = true.
Proof. apply all_chars_impl, digit_result. Qed.

Lemma format_chars (s k n : Z) :
  0 <= s -> all_chars result_char (Print.format s k n) = true.
Proof.
  intros Hs. assert (Hd := digits_digits s Hs).
  assert (Hz : forall m, all_chars result_char (Print.zeros m) = true)
    by (intros m; apply digits_result, zeros_digits).
  assert (He : all_chars result_char (Print.digits (Z.abs (n - 1))) = true)
    by (apply digits_result, digits_digits; lia).
  unfold Print.format.
  repeat match goal with
         | |- context [if ?c then _ else _] => destruct c
         end;
    cbn [append]; rewrite ?all_chars_app; cbn [all_chars];
    rewrite ?all_chars_app; cbn [all_chars];
    rewrite ?Hz, ?He, ?(digits_result _ Hd),
      ?(digits_result _ (all_chars_take _ _ _ Hd)),
      ?(digits_result _ (all_chars_drop _ _ _ Hd));
    reflexivity.
Qed.

Lemma format_nonempty (s k n : Z) : is_empty (Print.format s k n) = false.
Proof.
  assert (Hd := digits_nonempty s).
  unfold Print.format.
  repeat match goal with
         | |- context [if ?c then _ else _] => destruct c
         end;
    rewrite ?is_empty_app, ?Hd; cbn [append is_empty andb];
    rewrite ?andb_false_r; reflexivity.
Qed.

(** The string of a number is written with digits, [. e + -] and the
    letters of [NaN] and [Infinity]. *)
Lemma ToString_chars (x : JS.number) :
  all_chars result_char (Print.ToString x) = true.
Proof.
  destruct x as [sg | sg | | sg m e]; cbn [Print.ToString];
    try reflexivity; try (now destruct sg).
  destruct (Print.shortest (S754_finite sg m e)) as [[[s k] n] |] eqn:Hsh;
    [| reflexivity].
  destruct (shortest_sound _ _ _ _ _ _ Hsh) as (Hk & Hs & _).
  assert (0 <= s).
  { assert (0 < 10 ^ (k - 1)) by (apply Z.pow_pos_nonneg; lia). lia. }
  rewrite all_chars_app, format_chars by assumption. now destruct sg.
Qed.

Lemma ToString_nonempty (x : JS.number) : is_empty (Print.ToString x) = false.
Proof.
  destruct x as [sg | sg | | sg m e]; cbn [Print.ToString];
    try reflexivity; try (now destruct sg).
  destruct (Print.shortest (S754_finite sg m e)) as [[[s k] n] |]; [| reflexivity].
  rewrite is_empty_app, format_nonempty. apply andb_false_r.
Qed.

Lemma ToString_has (n : N) (x : JS.number) :
  (forall c, result_char c = true -> (code c =? n)%N = false) ->
  has n (Print.ToString x) = false.
Proof. intros H. apply (has_all_chars n result_char _ H), ToString_chars. Qed.

Lemma result_char_no (n : N) :
  forallb (fun k => negb (k =? n)%N)
    [43; 45; 46; 48; 49; 50; 51; 52; 53; 54; 55; 56; 57;
     73; 78; 97; 101; 102; 105; 110; 116; 121]%N = true ->
  forall c, result_char c = true -> (code c =? n)%N = false.
Proof.
  cbn [forallb]. rewrite !andb_true_iff, !negb_true_iff, !N.eqb_neq.
  intros H c Hc. unfold result_char, is_digit in Hc. cbn [existsb] in Hc.
  rewrite !orb_true_iff, !andb_true_iff, !N.eqb_eq, !N.leb_le in Hc.
  apply N.eqb_neq. lia.
Qed.

Lemma ToString_not_Error (x : JS.number) : Print.ToString x <> "Error".
Proof.
  intros H. assert (Hr := ToString_has 114 x (result_char_no 114 eq_refl)).
  rewrite H in Hr. discriminate.
Qed.

(** ** Deleting the last character *)

Lemma slice_last_app (d : string) (c : ascii) (r : string) :
  Text.is_continuation c = false -> all_chars Text.is_continuation r = true ->
  Text.slice_last (d ++ String c r) = d.
Proof.
  intros Hc Hr. induction d as [| a d IH]; cbn [append Text.slice_last].
  - now rewrite Hr.
  - rewrite all_chars_app. cbn [all_chars]. rewrite Hc, andb_false_r.
    now rewrite IH.
Qed.

(** ** The display *)

Section Display.

Context {M : MathLib}.

Lemma click_nonempty (display value : string) :
  is_empty value = false ->
  is_empty (Calculator.handleButtonClick display value) = false.
Proof.
  intros Hv. unfold Calculator.handleButtonClick.
  repeat match goal with
         | |- context [if ?c then _ else _] => destruct c eqn:?
         | |- context [match ?c with Ok _ => _ | Throw _ => _ end] => destruct c
         end;
    rewrite ?is_empty_app, ?Hv, ?ToString_nonempty; cbn [is_empty andb];
    rewrite ?andb_false_r; try reflexivity; assumption.
Qed.

Lemma typing_key_click (display value : string) :
  In value typing_keys ->
  (display =? "Error")%string = false -> (display =? "Infinity")%string = false ->
  Calculator.handleButtonClick display value
  = if (display =? "0")%string && negb (value =? ".")%string then value
    else (display ++ value)%string.
Proof.
  intros Hin H1 H2. unfold Calculator.handleButtonClick. rewrite H1, H2.
  cbn in Hin.
  repeat (destruct Hin as [<- | Hin]; [reflexivity|]). contradiction.
Qed.

Lemma delete_click (display : string) :
  (display =? "Error")%string = false -> (display =? "Infinity")%string = false ->
  Calculator.handleButtonClick display "DEL"
  = if is_empty (Text.slice_last display) then "0" else Text.slice_last display.
Proof.
  intros H1 H2. unfold Calculator.handleButtonClick. now rewrite H1, H2.
Qed.

(** A typing key is one character, which neither ['Error'] nor
    ['Infinity'] holds. *)
Lemma typing_key_shape (value : string) :
  In value typing_keys ->
  exists c r,
    value = String c r /\ Text.is_continuation c = false
    /\ all_chars Text.is_continuation r = true
    /\ has (code c) "Error" = false /\ has (code c) "Infinity" = false
    /\ Text.slice_last value = ""
    /\ (value =? "Error")%string = false /\ (value =? "Infinity")%string = false.
Proof.
  intros Hin. cbn in Hin.
  repeat (destruct Hin as [<- | Hin];
          [eexists; eexists; repeat split; reflexivity|]).
  contradiction.
Qed.

End Display.

(** ** Operands and what the keys rewrite *)

(** A standard expression that binds tightest is a literal or a
    parenthesised expression: nothing of it waits on [ops]. *)
Lemma shunt_operand (e : expr) (output ops rest : list string) :
  well_formed e = true -> level e = 4%nat ->
  match ops with [] => True | top :: _ => isFunctionName top = false end ->
  fold_left shunt (infix e ++ rest) (output, ops)
  = fold_left shunt rest (output ++ postfix e, ops).
Proof.
  intros Hw Hl Hops. destruct (tightest_alone e Hl) as [Hp Hs].
  rewrite shunt_expr; [| exact Hw |].
  - rewrite <- (emitted_pending e), Hp. cbn [map]. now rewrite !app_nil_r.
  - unfold calm. destruct ops as [| top ops]; [exact I|].
    split; [exact Hops|]. rewrite Hs. constructor.
Qed.

Lemma has_plain (n : N) (s : string) :
  forallb (fun k => negb (k =? n)%N)
    [40; 41; 42; 43; 45; 46; 47; 48; 49; 50; 51; 52; 53; 54; 55; 56; 57]%N = true ->
  all_chars plain s = true -> has n s = false.
Proof. intros Hn. apply has_all_chars. now apply plain_no. Qed.

Section Power.

Context {M : MathLib}.

(** Two [*] between two operands: each finds one value on the stack. *)
Lemma evaluate_two_stars (a b : expr) :
  well_formed a = true -> well_formed b = true ->
  level a = 4%nat -> level b = 4%nat ->
  evaluateExpression (text "" a ++ "**" ++ text "" b) = Ok JS.NaN.
Proof.
  intros Hwa Hwb Hla Hlb. unfold evaluateExpression.
  rewrite (tokens_of_text "" a eq_refl Hwa) by reflexivity.
  change ("**" ++ text "" b)%string with (String "*" (String "*" (text "" b))).
  rewrite !tokens_of_symbol by reflexivity.
  rewrite (tokens_of_expr "" b eq_refl Hwb).
  rewrite map_app. cbn [map].
  rewrite !normalize_lexemes by assumption.
  change (normalize "*") with "*".
  unfold to_rpn.
  rewrite (shunt_operand a [] [] _ Hwa Hla I).
  cbn [app fold_left].
  change (shunt (postfix a, []) "*") with (postfix a, ["*"]).
  change (shunt (postfix a, ["*"]) "*") with (postfix a ++ ["*"], ["*"]).
  rewrite <- (app_nil_r (infix b)).
  rewrite (shunt_operand b _ _ [] Hwb Hlb) by reflexivity.
  cbn [fold_left].
  rewrite !run_app, (run_postfix a Hwa).
  change (run ["*"] [denote a]) with (Ok (A := list JS.number) [JS.NaN]).
  cbv iota. rewrite (run_postfix b Hwb). reflexivity.
Qed.

End Power.

Section PowerKeys.

Context {M : MathLib}.

Lemma expr_of_power (a b : string) :
  all_chars plain a = true -> all_chars plain b = true ->
  Calculator.expr_of (a ++ "^" ++ b) = (a ++ "**" ++ b)%string.
Proof.
  intros Ha Hb. unfold Calculator.expr_of.
  assert (Hno : forall n : N,
            forallb (fun k => negb (k =? n)%N)
              [40; 41; 42; 43; 45; 46; 47; 48; 49; 50; 51; 52; 53; 54; 55; 56; 57]%N
            = true -> (n =? 94)%N = false -> has n (a ++ "^" ++ b) = false).
  { intros n Hn H94. rewrite !has_app, (has_plain n a Hn Ha), (has_plain n b Hn Hb).
    change (has n "^") with ((94 =? n)%N || false).
    now rewrite (N.eqb_sym 94 n), H94. }
  do 8 (rewrite (replace_all_absent _ _ _ (a ++ "^" ++ b))
         by (apply Hno; reflexivity)).
  rewrite replace_all_app by (now apply has_plain).
  rewrite (replace_all_match "^" "" "**" ("^" ++ b) b) by reflexivity.
  rewrite (replace_all_absent _ _ _ b) by (now apply has_plain).
  assert (Hno' : forall n : N,
            forallb (fun k => negb (k =? n)%N)
              [40; 41; 42; 43; 45; 46; 47; 48; 49; 50; 51; 52; 53; 54; 55; 56; 57]%N
            = true -> has n (a ++ "**" ++ b) = false).
  { intros n Hn. rewrite !has_app, (has_plain n a Hn Ha), (has_plain n b Hn Hb).
    change (has n "**") with ((42 =? n)%N || ((42 =? n)%N || false)).
    cbn [forallb] in Hn. rewrite !andb_true_iff, !negb_true_iff in Hn.
    replace (42 =? n)%N with false; [reflexivity | symmetry; tauto]. }
  rewrite replace_factorials_absent by (apply Hno'; reflexivity).
  now rewrite replace_all_absent by (apply Hno'; reflexivity).
Qed.

End PowerKeys.

(** ** The two factorials *)

Lemma digits2_pos_le (m : positive) : 2 ^ (Zpos (digits2_pos m) - 1) <= Zpos m.
Proof.
  induction m as [p IH | p IH |]; simpl digits2_pos.
  - rewrite Pos2Z.inj_succ.
    replace (Z.succ (Zpos (digits2_pos p)) - 1)
      with (Z.succ (Zpos (digits2_pos p) - 1)) by lia.
    rewrite Z.pow_succ_r by lia. lia.
  - rewrite Pos2Z.inj_succ.
    replace (Z.succ (Zpos (digits2_pos p)) - 1)
      with (Z.succ (Zpos (digits2_pos p) - 1)) by lia.
    rewrite Z.pow_succ_r by lia. lia.
  - simpl. lia.
Qed.

(** A number above the subnormal range has a full mantissa. *)
Lemma valid_normal (s : bool) (m : positive) (e : Z) :
  valid_binary JS.prec JS.emax (S754_finite s m e) = true -> -1074 < e ->
  2 ^ 52 <= Zpos m.
Proof.
  cbv [valid_binary bounded canonical_mantissa fexp emin JS.prec JS.emax].
  intros H He. apply andb_prop in H as [H _]. apply Z.eqb_eq in H.
  assert (Hd : Zpos (digits2_pos m) = 53) by lia.
  assert (Hm := digits2_pos_le m). rewrite Hd in Hm. exact Hm.
Qed.

(** The integers from 2 to 171 as numbers, and their successors. *)
Lemma small_integers_table :
  forallb
    (fun i =>
       let j := Z.of_nat i in
       let t := Z.log2 j in
       (1 <=? t) && (t <=? 7) && (2 ^ t <=? j) && (j <? 2 ^ (t + 1))
       && Print.same (JS.of_Z j)
            (S754_finite false (Z.to_pos (j * 2 ^ (52 - t))) (t - 52))
       && Print.same (JS.add (JS.of_Z j) (JS.of_Z 1)) (JS.of_Z (j + 1)))
    (seq 2 170) = true.
Proof. by_computation. Qed.

Lemma small_integer (j : Z) :
  2 <= j <= 171 ->
  exists t,
    1 <= t <= 7 /\ 2 ^ t <= j < 2 ^ (t + 1)
    /\ JS.of_Z j = S754_finite false (Z.to_pos (j * 2 ^ (52 - t))) (t - 52)
    /\ JS.add (JS.of_Z j) (JS.of_Z 1) = JS.of_Z (j + 1).
Proof.
  intros Hj.
  assert (H := proj1 (forallb_forall _ _) small_integers_table (Z.to_nat j)).
  cbv beta zeta in H. rewrite Z2Nat.id in H by lia.
  rewrite !andb_true_iff in H.
  destruct H as [[[[[H1 H2] H3] H4] H5] H6]; [apply in_seq; lia|].
  exists (Z.log2 j).
  apply Z.leb_le in H1, H2, H3. apply Z.ltb_lt in H4.
  apply same_eq in H5, H6. auto.
Qed.

(** An integer from 2 to 171 is at most a number up to 170 when it is at
    most its integer part. *)
Lemma le_small_integer (j : Z) (m : positive) (e : Z) :
  2 <= j <= 171 ->
  valid_binary JS.prec JS.emax (S754_finite false m e) = true ->
  JS.lt (JS.of_Z 170) (S754_finite false m e) = false ->
  JS.le (JS.of_Z j) (S754_finite false m e)
  = (j <=? floor_int (S754_finite false m e)).
Proof.
  intros Hj Hv H170.
  destruct (small_integer j Hj) as (t & Ht & Hjt & -> & _).
  assert (Hm := valid_mantissa_lt _ _ _ Hv).
  apply lt_170_finite in H170.
  assert (He : e <= -45) by lia.
  unfold floor_int. destruct (Z.leb_spec 0 e) as [H0 | _]; [lia|].
  cbn [cond_Zopp].
  unfold JS.le, SFleb, SFcompare.
  destruct (Z.lt_ge_cases e (-52)) as [Hsmall | Hbig].
  - replace (t - 52 ?= e) with Gt by (symmetry; apply Z.compare_gt_iff; lia).
    symmetry. apply Z.leb_gt.
    rewrite Z.div_small; [lia|].
    split; [lia|]. apply Z.lt_le_trans with (2 ^ 53); [exact Hm|].
    apply Z.pow_le_mono_r; lia.
  - assert (Hn := valid_normal _ _ _ Hv ltac:(lia)).
    assert (Hpos : 0 < j * 2 ^ (52 - t)).
    { apply Z.mul_pos_pos; [lia|]. apply Z.pow_pos_nonneg; lia. }
    assert (He8 : e = -52 \/ e = -51 \/ e = -50 \/ e = -49 \/ e = -48
                  \/ e = -47 \/ e = -46 \/ e = -45) by lia.
    assert (Ht7 : t = 1 \/ t = 2 \/ t = 3 \/ t = 4 \/ t = 5 \/ t = 6 \/ t = 7)
      by lia.
    rewrite Pos.compare_cont_spec. unfold Pos.switch_Eq.
    rewrite Pos2Z.inj_compare, Z2Pos.id by exact Hpos.
    destruct He8 as [-> | [-> | [-> | [-> | [-> | [-> | [-> | ->]]]]]]];
      destruct Ht7 as [-> | [-> | [-> | [-> | [-> | [-> | ->]]]]]];
      cbn [Z.sub Z.add Z.opp Z.pos_sub Pos.pred_double Z.succ_double Z.pred_double
           Z.double Z.compare Pos.compare Pos.compare_cont Pos.succ Pos.add] in *;
      match goal with
      | |- context [?a ?= ?b] => destruct (Z.compare_spec a b)
      | _ => idtac
      end;
      symmetry; rewrite ?Z.leb_le, ?Z.leb_gt;
      change (2 ^ 52) with 4503599627370496 in *;
      change (2 ^ 53) with 9007199254740992 in *;
      repeat match goal with
             | H : context [2 ^ ?k] |- _ =>
                 let v := eval vm_compute in (2 ^ k) in change (2 ^ k) with v in *
             | |- context [2 ^ ?k] =>
                 let v := eval vm_compute in (2 ^ k) in change (2 ^ k) with v in *
             end;
      Z.to_euclidean_division_equations; lia.
Qed.

(** The integers from 1 to 170 as limits of the loop. *)
Lemma integer_limits_table :
  forallb
    (fun i =>
       let k := Z.of_nat i in
       match JS.of_Z k with
       | S754_finite false _ _ =>
           valid_binary JS.prec JS.emax (JS.of_Z k)
           && negb (JS.lt (JS.of_Z 170) (JS.of_Z k))
           && (floor_int (JS.of_Z k) =? k)
       | _ => false
       end)
    (seq 1 170) = true.
Proof. by_computation. Qed.

Lemma le_integers (j k : Z) :
  2 <= j <= 171 -> 0 <= k <= 170 ->
  JS.le (JS.of_Z j) (JS.of_Z k) = (j <=? k).
Proof.
  intros Hj Hk. destruct (Z.eq_dec k 0) as [-> | Hk0].
  - destruct (small_integer j Hj) as (t & _ & _ & -> & _).
    symmetry. apply Z.leb_gt. lia.
  - assert (H := proj1 (forallb_forall _ _) integer_limits_table (Z.to_nat k)).
    cbv beta zeta in H. rewrite Z2Nat.id in H by lia.
    destruct (JS.of_Z k) as [| | | [|] m e] eqn:Hof;
      try (discriminate H; apply in_seq; lia).
    rewrite !andb_true_iff, negb_true_iff in H.
    destruct H as [[Hv H170] Hf]; [apply in_seq; lia|].
    apply Z.eqb_eq in Hf. rewrite <- Hf.
    now apply le_small_integer.
Qed.

(** The loop with the limit [n] takes the turns of the loop with the
    integer part of [n] for its limit. *)
Lemma factorial_loop_limit (n : JS.number) (k : Z) :
  0 <= k <= 170 ->
  (forall i, 2 <= i <= 171 -> JS.le (JS.of_Z i) n = (i <=? k)) ->
  forall fuel j r, 2 <= j <= 171 ->
  factorial_loop fuel n (JS.of_Z j) r
  = factorial_loop fuel (JS.of_Z k) (JS.of_Z j) r.
Proof.
  intros Hk Hn. induction fuel as [| fuel IH]; intros j r Hj; [reflexivity|].
  cbn [factorial_loop]. rewrite Hn, le_integers by assumption.
  destruct (Z.leb_spec j k) as [Hle | _]; [| reflexivity].
  destruct (small_integer j Hj) as (_ & _ & _ & _ & ->).
  apply IH. lia.
Qed.

Lemma factorial_finite (m : positive) (e : Z) :
  valid_binary JS.prec JS.emax (S754_finite false m e) = true ->
  JS.lt (JS.of_Z 170) (S754_finite false m e) = false ->
  forall fuel,
  factorial_loop fuel (S754_finite false m e) (JS.of_Z 2) (JS.of_Z 1)
  = factorial_loop fuel (JS.Math_floor (S754_finite false m e))
      (JS.of_Z 2) (JS.of_Z 1).
Proof.
  intros Hv H170 fuel.
  destruct (floor_in_range m e Hv H170) as [Hk ->].
  apply factorial_loop_limit; [exact Hk | | lia].
  intros i Hi. now apply le_small_integer.
Qed.

(** The helper of the component returns what [factorialFn] returns, and
    its loop leaves by its condition. *)
Lemma factorial_agrees (n : JS.number) :
  valid_binary JS.prec JS.emax n = true ->
  Calculator.factorial n = factorialFn (JS.num n)
  /\ (JS.lt n (JS.of_Z 0) = false -> JS.lt (JS.of_Z 170) n = false ->
      forall extra,
      factorial_loop (170 + extra) n (JS.of_Z 2) (JS.of_Z 1)
      = factorial_loop 170 n (JS.of_Z 2) (JS.of_Z 1)).
Proof.
  intros Hv. destruct n as [s | s | | s m e].
  - split; [now destruct s | intros _ _ extra; now destruct s].
  - split; [now destruct s | now destruct s].
  - split; [reflexivity | intros _ _ extra; reflexivity].
  - destruct s.
    + split; [reflexivity | discriminate].
    + unfold Calculator.factorial, factorialFn. cbn [JS.ToNumber].
      change (JS.lt (S754_finite false m e) (JS.of_Z 0)) with false.
      change (JS.strict_eq (S754_finite false m e) (JS.of_Z 0)) with false.
      cbn [orb].
      destruct (JS.lt (JS.of_Z 170) (S754_finite false m e)) eqn:H170.
      * split; [reflexivity | discriminate].
      * split; [now apply factorial_finite|].
        intros _ _ extra. rewrite !factorial_finite by assumption.
        now apply factorial_loop_fuel.
Qed.

(** The helper on the integers up to 170. *)
Lemma factorial_integer (k : Z) :
  0 <= k <= 170 -> Calculator.factorial (JS.of_Z k) = product_upto (Z.to_nat k).
Proof.
  intros Hk. destruct (Z.eq_dec k 0) as [-> | Hk0]; [reflexivity|].
  assert (H := proj1 (forallb_forall _ _) integer_limits_table (Z.to_nat k)).
  cbv beta zeta in H. rewrite Z2Nat.id in H by lia.
  destruct (JS.of_Z k) as [| | | [|] m e] eqn:Hof;
    try (discriminate H; apply in_seq; lia).
  rewrite !andb_true_iff, negb_true_iff in H.
  destruct H as [[Hv H170] Hf]; [apply in_seq; lia|].
  apply Z.eqb_eq in Hf.
  rewrite (proj1 (factorial_agrees _ Hv)).
  destruct (factorialFn_product (S754_finite false m e) Hv eq_refl H170 eq_refl)
    as [_ ->].
  now rewrite Hf.
Qed.

(** ** Strings with an exponent *)

Lemma candidates_exponent (x : JS.number) (num den n k s n' : Z)
  (rest : list (Z * Z)) :
  Print.candidates x num den n k = (s, n') :: rest -> n' = n \/ n' = n + 1.
Proof.
  unfold Print.candidates. intros H.
  assert (Hin : In (s, n') ((s, n') :: rest)) by (left; reflexivity).
  rewrite <- H in Hin. apply filter_In in Hin as [Hin _].
  apply in_map_iff in Hin as (c & Hc & _).
  destruct (c =? 10 ^ k); injection Hc as _ <-; auto.
Qed.

Lemma shortest_from_exponent (fuel : nat) (x : JS.number) (num den n : Z) :
  forall k s k' n',
  Print.shortest_from fuel x num den n k = Some (s, k', n') ->
  n' = n \/ n' = n + 1.
Proof.
  induction fuel as [| fuel IH]; intros k s k' n'; [discriminate|].
  cbn [Print.shortest_from].
  destruct (Print.candidates x num den n k) as [| [s0 n0] rest] eqn:Hc.
  - apply IH.
  - intros [= <- <- <-]. now apply candidates_exponent in Hc.
Qed.

Lemma shortest_exponent (sg : bool) (m : positive) (e s k n : Z) :
  Print.shortest (S754_finite sg m e) = Some (s, k, n) ->
  n = decimal_exponent_of (S754_finite sg m e)
  \/ n = decimal_exponent_of (S754_finite sg m e) + 1.
Proof. apply shortest_from_exponent. Qed.

(** Above 21 and from -6 down, the decimal exponent is written out. *)
Lemma format_exponent (s k n : Z) :
  1 <= k -> 10 ^ (k - 1) <= s < 10 ^ k -> 21 < n \/ n <= -6 ->
  exists l o xd,
    literal_ok l = true /\ isNumber (literal_text l) = true
    /\ some_digits xd = true
    /\ Print.format s k n = (literal_text l ++ "e" ++ op_text o ++ xd)%string.
Proof.
  intros Hk Hs Hn.
  destruct (digits_spec s k ltac:(lia) Hs) as (Hd & _ & Hlen).
  assert (Hne := digits_nonempty s).
  assert (Hx : some_digits (Print.digits (Z.abs (n - 1))) = true).
  { unfold some_digits. rewrite digits_nonempty, digits_digits by lia. reflexivity. }
  unfold Print.format.
  replace ((k <=? n) && (n <=? 21)) with false
    by (symmetry; apply andb_false_iff;
        destruct Hn; [right | left]; apply Z.leb_gt; lia).
  replace ((0 <? n) && (n <=? 21)) with false
    by (symmetry; apply andb_false_iff;
        destruct Hn; [right; apply Z.leb_gt | left; apply Z.ltb_ge]; lia).
  replace ((-6 <? n) && (n <=? 0)) with false
    by (symmetry; apply andb_false_iff;
        destruct Hn; [right; apply Z.leb_gt | left; apply Z.ltb_ge]; lia).
  cbv zeta.
  exists (if k =? 1 then Whole (Print.digits s)
          else Point (Print.take 1 (Print.digits s)) (Print.drop 1 (Print.digits s))).
  exists (if 0 <=? n - 1 then Add else Sub).
  exists (Print.digits (Z.abs (n - 1))).
  destruct (Print.digits s) as [| c ds] eqn:Hds; [discriminate|].
  cbn [all_chars] in Hd. apply andb_prop in Hd as [Hc Hdd].
  destruct (k =? 1); destruct (0 <=? n - 1);
    cbn [literal_ok literal_text op_text Print.take Print.drop append];
    (split; [unfold some_digits; cbn [is_empty negb all_chars];
             now rewrite ?Hc, ?Hdd |]);
    (split; [| split; [exact Hx|]]).
  all: try (rewrite ?append_assoc; cbn [append]; reflexivity).
  all: try (apply (isNumber_literal (Whole (String c ds)));
            unfold literal_ok, some_digits; cbn [is_empty negb all_chars];
            now rewrite Hc, Hdd).
  all: apply (isNumber_literal (Point (String c "") ds));
       unfold literal_ok, some_digits; cbn [is_empty negb all_chars];
       now rewrite Hc, Hdd.
Qed.

Lemma match_number_before_letter (l : literal) (x : ascii) (rest : string) :
  literal_ok l = true -> is_letter x = true ->
  match_number (literal_text l ++ String x rest)
  = Some (literal_text l, String x rest).
Proof.
  intros Hl Hx.
  assert (Hd : stops is_digit (String x rest) = true).
  { cbn [stops]. apply negb_true_iff. revert Hx. chars. }
  assert (Hp : (code x =? 46)%N = false) by (revert Hx; chars).
  unfold match_number.
  destruct l as [d | d f | f]; simpl in Hl |- *.
  - destruct (some_digits_spec d Hl) as (c & r & -> & Hc & Hdr).
    rewrite span_app; [| simpl; now rewrite Hc | exact Hd].
    cbn [is_empty negb]. now rewrite Hp.
  - apply andb_prop in Hl as [Hl Hf].
    destruct (some_digits_spec d Hl) as (c & r & -> & Hc & Hdr).
    rewrite append_assoc.
    rewrite span_app; [| simpl; now rewrite Hc | reflexivity].
    cbn [is_empty negb append].
    change (code "." =? 46)%N with true. cbv iota.
    rewrite span_app by assumption. reflexivity.
  - destruct (some_digits_spec f Hl) as (c & r & -> & Hc & Hdr).
    change (span is_digit (String "." (String c r ++ String x rest)))
      with ("", String "." (String c r ++ String x rest)).
    cbn [is_empty negb]. change (code "." =? 46)%N with true. cbv iota.
    rewrite span_app; [reflexivity | simpl; now rewrite Hc | exact Hd].
Qed.

Section Exponent.

Context {M : MathLib}.

(** A numeral with an exponent is no number for the evaluator: [e] is the
    constant, and two values are left on the stack. *)
Lemma evaluate_exponent_form (l : literal) (o : binop) (xd : string) :
  literal_ok l = true -> isNumber (literal_text l) = true ->
  some_digits xd = true ->
  evaluateExpression (literal_text l ++ "e" ++ op_text o ++ xd)
  = Throw InvalidExpression.
Proof.
  intros Hl Hnum Hx. unfold evaluateExpression.
  cbn [append].
  rewrite (tokens_of_number _ _ _ (match_number_before_letter l "e" _ Hl eq_refl)).
  destruct (op_text_symbol o) as (c & Ho & Hc). rewrite Ho. cbn [append].
  change (String "e" (String c xd)) with ("e" ++ String c xd)%string.
  rewrite (tokens_of_letters "e" "" (String c xd) eq_refl)
    by (cbn [boundary]; now rewrite Hc).
  rewrite tokens_of_symbol by exact Hc.
  change (tokens_of xd) with (tokens_of (text "" (Lit (Whole xd)))).
  rewrite (tokens_of_expr "" (Lit (Whole xd)) eq_refl Hx).
  cbn [lexemes map].
  rewrite (normalize_literal l Hl), (normalize_literal (Whole xd) Hx).
  change (normalize "e") with (normalize (constant_text Euler)).
  rewrite (normalize_constant Euler), (normalize_symbol c Hc).
  cbn [literal_text]. rewrite <- Ho.
  unfold to_rpn. cbn [fold_left].
  rewrite (shunt_literal l [] [] Hl), shunt_constant.
  rewrite shunt_operator. cbn [pop_while app].
  rewrite (shunt_literal (Whole xd) _ _ Hx). cbn [app literal_text].
  cbn [run].
  rewrite (apply_literal l [] Hl), apply_constant.
  rewrite (apply_literal (Whole xd) _ Hx), apply_operator.
  reflexivity.
Qed.

(** The string of a positive number whose decimal exponent is above 21
    makes the evaluator throw. *)
Lemma large_number_string (m : positive) (e : Z) :
  21 < decimal_exponent_of (S754_finite false m e) ->
  exists err,
    evaluateExpression (Print.ToString (S754_finite false m e)) = Throw err.
Proof.
  intros Hn. cbn [Print.ToString].
  destruct (Print.shortest (S754_finite false m e)) as [[[s k] n] |] eqn:Hsh.
  - destruct (shortest_sound _ _ _ _ _ _ Hsh) as (Hk & Hs & _).
    apply shortest_exponent in Hsh.
    destruct (format_exponent s k n Hk Hs ltac:(lia))
      as (l & o & xd & Hl & Hnum & Hx & ->).
    exists InvalidExpression. cbn [append]. now apply evaluate_exponent_form.
  - exists (InvalidToken "nan"). by_computation.
Qed.

End Exponent.

Lemma exponents_above_spec (count : nat) :
  forall k product,
  exponents_above count k product = true ->
  product = product_upto k ->
  forall j, (k < j <= k + count)%nat ->
  exists m e,
    product_upto j = S754_finite false m e
    /\ 21 < decimal_exponent_of (S754_finite false m e).
Proof.
  induction count as [| count IH]; intros k product H Hp j Hj; [lia|].
  cbn [exponents_above] in H. cbv zeta in H.
  apply andb_prop in H as [Hnext Hrest].
  assert (Hs : JS.mul product (JS.of_Z (Z.of_nat (S k))) = product_upto (S k))
    by (now rewrite Hp).
  destruct (Nat.eq_dec j (S k)) as [-> | Hne].
  - rewrite <- Hs.
    destruct (JS.mul product (JS.of_Z (Z.of_nat (S k)))) as [| | | [|] m e];
      try discriminate.
    exists m, e. split; [reflexivity | now apply Z.ltb_lt].
  - apply (IH (S k) _ Hrest Hs). lia.
Qed.

Lemma large_factorials_table :
  exponents_above 149 21 (product_upto 21) = true.
Proof. by_computation. Qed.

(** What the [=] key shows for the string of [k!], for [k] up to 21. *)
Lemma small_factorials_table (M : MathLib) :
  forallb
    (fun k =>
       String.eqb
         match evaluateExpression (Print.ToString (product_upto k)) with
         | Ok result => Print.ToString result
         | Throw _ => "Error"
         end
         (Print.digits (factorial k)))
    (seq 0 22) = true.
Proof. by_computation. Qed.

(** ** The factorial key *)

Lemma parseInt_digits (d : string) :
  some_digits d = true ->
  Text.parseInt d = JS.of_Z (digits_value 10 0 d).
Proof.
  intros Hd. destruct (some_digits_spec d Hd) as (c & r & -> & Hc & Hr).
  unfold Text.parseInt.
  rewrite trim_start_inert by now apply digit_inert.
  destruct (digit_no_sign c Hc) as [-> ->].
  rewrite span_all by (cbn [all_chars]; now rewrite Hc, Hr).
  cbn [is_empty]. unfold JS.of_decimal. cbn [Z.leb Z.compare Z.pow].
  now rewrite Z.mul_1_r.
Qed.

(** ** What the replacements keep and what they take away *)

(** A character that the pattern does not hold stays in the string. *)
Lemma replace_all_keeps (n : N) (p0 : ascii) (ps rep : string) :
  has n (String p0 ps) = false ->
  forall size s, (String.length s <= size)%nat -> has n s = true ->
  has n (Text.replace_all (String p0 ps) rep s) = true.
Proof.
  intros Hp. induction size as [| size IH]; intros s Hlen Hs.
  - destruct s; [discriminate | cbn [String.length] in Hlen; lia].
  - destruct s as [| c r]; [discriminate|].
    destruct (Parse.strip_prefix (String p0 ps) (String c r)) as [rest |] eqn:Hm.
    + rewrite (replace_all_match _ _ _ _ _ Hm), has_app.
      assert (Hsplit := strip_prefix_spec _ _ _ Hm).
      rewrite Hsplit, has_app, Hp in Hs. cbn [orb] in Hs.
      rewrite IH; [apply orb_true_r | | exact Hs].
      apply (f_equal String.length) in Hsplit.
      rewrite length_append in Hsplit. cbn [String.length] in *. lia.
    + rewrite (replace_all_miss _ _ _ _ Hm). cbn [has] in *.
      destruct (code c =? n)%N; [reflexivity|].
      apply IH; [cbn [String.length] in Hlen; lia | exact Hs].
Qed.

(** Where the pattern is found, the characters of the replacement are in
    the result. *)
Lemma replace_all_puts (n : N) (p0 : ascii) (ps rep s : string) :
  has n rep = true -> contains (String p0 ps) s = true ->
  has n (Text.replace_all (String p0 ps) rep s) = true.
Proof.
  intros Hrep. induction s as [| c r IH]; [discriminate|].
  cbn [contains].
  destruct (Parse.strip_prefix (String p0 ps) (String c r)) as [rest |] eqn:Hm.
  - intros _. rewrite (replace_all_match _ _ _ _ _ Hm), has_app, Hrep.
    reflexivity.
  - intros H. rewrite (replace_all_miss _ _ _ _ Hm). cbn [has].
    rewrite (IH H). apply orb_true_r.
Qed.

(** A character that neither the string nor the replacement holds is not
    in the result. *)
Lemma replace_from_adds (n : N) (pat rep : string) :
  has n rep = false ->
  forall s skip, has n s = false ->
  has n (Text.replace_from pat rep skip s) = false.
Proof.
  intros Hrep. induction s as [| c r IH]; intros skip Hs; [reflexivity|].
  cbn [has] in Hs. apply orb_false_elim in Hs as [Hc Hr].
  cbn [Text.replace_from]. destruct skip as [| skip]; [| now apply IH].
  destruct (Parse.strip_prefix pat (String c r)).
  - rewrite has_app, Hrep. now apply IH.
  - cbn [has]. rewrite Hc. now apply IH.
Qed.

(** A pattern of one character is nowhere in the result when the
    replacement does not hold it. *)
Lemma replace_all_removes (c : ascii) (rep s : string) :
  has (code c) rep = false ->
  has (code c) (Text.replace_all (String c "") rep s) = false.
Proof.
  intros Hrep. induction s as [| a r IH]; [reflexivity|].
  destruct (Parse.strip_prefix (String c "") (String a r)) as [rest |] eqn:Hm.
  - rewrite (replace_all_match _ _ _ _ _ Hm), has_app, Hrep.
    cbn [Parse.strip_prefix] in Hm.
    destruct (Ascii.eqb c a); [| discriminate].
    destruct r; injection Hm as <-; exact IH.
  - rewrite (replace_all_miss _ _ _ _ Hm). cbn [has]. rewrite IH, orb_false_r.
    cbn [Parse.strip_prefix] in Hm. rewrite code_eqb in Hm.
    rewrite N.eqb_sym. now destruct (code c =? code a)%N; [destruct r|].
Qed.

Lemma replace_factorials_adds (n : N) :
  (forall c, result_char c = true -> (code c =? n)%N = false) ->
  forall s skip, has n s = false ->
  has n (Calculator.replace_factorials skip s) = false.
Proof.
  intros Hn. induction s as [| c r IH]; intros skip Hs; [reflexivity|].
  cbn [has] in Hs. apply orb_false_elim in Hs as [Hc Hr].
  cbn [Calculator.replace_factorials]. destruct skip as [| skip]; [| now apply IH].
  destruct (span is_digit (String c r)) as [d rest].
  destruct (negb (is_empty d)
            && match rest with String b _ => (code b =? 33)%N | "" => false end).
  - rewrite has_app, (ToString_has n _ Hn). now apply IH.
  - cbn [has]. rewrite Hc. now apply IH.
Qed.

(** One turn of the replacement of factorials. *)
Lemma replace_factorials_step (c : ascii) (r : string) :
  (exists d rest,
      some_digits d = true /\ String c r = (d ++ "!" ++ rest)%string
      /\ Calculator.replace_factorials 0 (String c r)
         = (Print.ToString (Calculator.factorial (Text.parseInt d))
            ++ Calculator.replace_factorials 0 rest)%string)
  \/ Calculator.replace_factorials 0 (String c r)
     = String c (Calculator.replace_factorials 0 r).
Proof.
  destruct (span is_digit (String c r)) as [d rest] eqn:Hspan.
  destruct (span_spec _ _ _ _ Hspan) as (Hs & Hd & Hstop).
  destruct (negb (is_empty d)
            && match rest with String b _ => (code b =? 33)%N | "" => false end)
    eqn:Hcond.
  - left. apply andb_prop in Hcond as [Hne Hbang].
    destruct rest as [| b rest]; [discriminate|].
    apply N.eqb_eq in Hbang.
    assert (Hb : b = "!"%char).
    { rewrite <- (ascii_N_embedding b). unfold code in Hbang. now rewrite Hbang. }
    subst b. exists d, rest.
    assert (Hsd : some_digits d = true) by (unfold some_digits; now rewrite Hne, Hd).
    split; [exact Hsd|]. split; [exact Hs|].
    rewrite Hs. now apply replace_factorials_match.
  - right. cbn [Calculator.replace_factorials]. now rewrite Hspan, Hcond.
Qed.

(** A character that is no digit and not [!] stays in the string. *)
Lemma replace_factorials_keeps (n : N) :
  (forall c, is_digit c = true -> (code c =? n)%N = false) -> (33 =? n)%N = false ->
  forall size s, (String.length s <= size)%nat -> has n s = true ->
  has n (Calculator.replace_factorials 0 s) = true.
Proof.
  intros Hdig Hbang. induction size as [| size IH]; intros s Hlen Hs.
  - destruct s; [discriminate | cbn [String.length] in Hlen; lia].
  - destruct s as [| c r]; [discriminate|].
    destruct (replace_factorials_step c r) as [(d & rest & Hd & Hsplit & ->) | ->].
    + rewrite has_app. rewrite Hsplit, !has_app in Hs.
      unfold some_digits in Hd. apply andb_prop in Hd as [Hne Hd].
      rewrite (has_all_chars n is_digit d Hdig Hd) in Hs.
      change (has n "!") with ((33 =? n)%N || false) in Hs. rewrite Hbang in Hs.
      cbn [orb] in Hs.
      rewrite IH; [apply orb_true_r | | exact Hs].
      apply (f_equal String.length) in Hsplit.
      rewrite !length_append in Hsplit. cbn [String.length] in *. lia.
    + cbn [has] in *. destruct (code c =? n)%N; [reflexivity|].
      apply IH; [cbn [String.length] in Hlen; lia | exact Hs].
Qed.

Lemma replace_factorials_stays (n : N) (s : string) :
  (forall c, is_digit c = true -> (code c =? n)%N = false) -> (33 =? n)%N = false ->
  has n s = true -> has n (Calculator.replace_factorials 0 s) = true.
Proof.
  intros Hd Hb. now apply (replace_factorials_keeps n Hd Hb (String.length s)).
Qed.

Lemma replace_all_stays (n : N) (p0 : ascii) (ps rep s : string) :
  has n (String p0 ps) = false -> has n s = true ->
  has n (Text.replace_all (String p0 ps) rep s) = true.
Proof.
  intros Hp. now apply (replace_all_keeps n p0 ps rep Hp (String.length s)).
Qed.

(** ** A word the evaluator does not know *)

(** A capital letter M of the input is in a word among the tokens. *)
Lemma tokenize_capital (fuel : nat) :
  forall s, (String.length s <= fuel)%nat -> has 77 s = true ->
  exists w,
    In w (tokenize fuel s) /\ has 77 w = true
    /\ is_empty w = false /\ all_chars word_char w = true.
Proof.
  induction fuel as [| fuel IH]; intros s Hlen Hs.
  - destruct s; [discriminate | cbn [String.length] in Hlen; lia].
  - destruct s as [| c r]; [discriminate|].
    cbn [tokenize String.length] in *.
    destruct (match_number (String c r)) as [[t rest] |] eqn:Hnum.
    + destruct (match_number_spec _ _ _ Hnum) as [Hsplit Hne].
      assert (Ht := match_number_chars _ _ _ Hnum).
      assert (HtM : has 77 t = false).
      { apply (has_all_chars 77 _ t) in Ht; [exact Ht|]. intros x. chars. }
      rewrite Hsplit, has_app, HtM in Hs. cbn [orb] in Hs.
      apply is_empty_length in Hne.
      apply (f_equal String.length) in Hsplit. rewrite length_append in Hsplit.
      cbn [String.length] in Hsplit.
      destruct (IH rest ltac:(lia) Hs) as (w & Hin & Hw).
      exists w. split; [now right | exact Hw].
    + destruct (span_word (String c r)) as [w rest] eqn:Hword.
      assert (Hsplit := span_word_spec _ _ _ Hword).
      assert (Hchars := span_word_chars _ _ _ Hword).
      destruct (is_empty w) eqn:Hne; cbn [negb].
      * apply is_empty_true in Hne. subst w.
        assert (Hc : (code c =? 77)%N = false).
        { cbn [span_word] in Hword. destruct (is_letter c) eqn:Hl.
          - destruct (span_word r); discriminate.
          - revert Hl. chars. }
        cbn [has] in Hs. rewrite Hc in Hs. cbn [orb] in Hs.
        destruct (IH r ltac:(lia) Hs) as (w & Hin & Hw).
        exists w. split; [| exact Hw].
        destruct (is_symbol c); [now right | exact Hin].
      * destruct (has 77 w) eqn:HwM.
        -- exists w. split; [now left | auto].
        -- rewrite Hsplit, has_app, HwM in Hs. cbn [orb] in Hs.
           apply is_empty_length in Hne.
           apply (f_equal String.length) in Hsplit. rewrite length_append in Hsplit.
           cbn [String.length] in Hsplit.
           destruct (IH rest ltac:(lia) Hs) as (w' & Hin & Hw).
           exists w'. split; [now right | exact Hw].
Qed.

Lemma toLowerCase_capital (w : string) :
  has 77 w = true -> has 109 (toLowerCase w) = true.
Proof.
  induction w as [| c w IH]; [discriminate|].
  cbn [has toLowerCase]. destruct (code c =? 77)%N eqn:Hc.
  - intros _. apply N.eqb_eq in Hc.
    assert (c = "M"%char).
    { rewrite <- (ascii_N_embedding c). unfold code in Hc. now rewrite Hc. }
    now subst c.
  - cbn [orb]. intros H. rewrite (IH H). apply orb_true_r.
Qed.

Lemma isNumber_word (t : string) :
  is_empty t = false -> all_chars word_char t = true -> isNumber t = false.
Proof.
  destruct t as [| c t]; [discriminate|]. intros _ H.
  cbn [all_chars] in H. apply andb_prop in H as [Hc _].
  unfold isNumber. cbn [span].
  replace (is_digit c) with false; [reflexivity|].
  symmetry. revert Hc. unfold word_char. chars.
Qed.

(** A word with the letter [m], small or capital, is no token the
    evaluator knows, and no number. *)
Lemma unknown_word (t : string) :
  is_empty t = false -> all_chars word_char t = true ->
  has 77 t = true \/ has 109 t = true ->
  known t = false /\ (t =? ",")%string = false /\ Parse.Number t = JS.NaN.
Proof.
  intros Hne Hw Hm.
  assert (Hdiff : forall name,
            has 77 name = false -> has 109 name = false ->
            (t =? name)%string = false).
  { intros name H1 H2.
    destruct Hm; [now apply (differs_by 77) | now apply (differs_by 109)]. }
  split; [| split].
  - unfold known, isFunctionName, is_operator. cbn [existsb].
    rewrite (isNumber_word t Hne Hw).
    now rewrite !Hdiff by reflexivity.
  - now apply Hdiff.
  - apply Number_word; [exact Hne | exact Hw |].
    intros ->. destruct Hm; discriminate.
Qed.

Lemma normalize_capital (w : string) :
  is_empty w = false -> all_chars word_char w = true -> has 77 w = true ->
  is_empty (normalize w) = false /\ all_chars word_char (normalize w) = true
  /\ (has 77 (normalize w) = true \/ has 109 (normalize w) = true).
Proof.
  intros Hne Hw HM. unfold normalize.
  rewrite !(differs_by 77 w) by (exact HM || reflexivity).
  cbn [orb].
  destruct (is_name w) eqn:Hname.
  - unfold is_name in Hname. apply andb_prop in Hname as [_ Hl].
    rewrite toLowerCase_empty, Hne.
    split; [reflexivity|]. split; [| right; now apply toLowerCase_capital].
    apply (all_chars_impl is_lower).
    + intros c Hc. unfold word_char, is_letter. now rewrite Hc, orb_true_r.
    + now apply toLowerCase_letters.
  - auto.
Qed.

(** ** Tokens that reach the postfix form *)

Lemma pop_while_output (cond : string -> bool) (x : string) :
  forall ops output, In x output -> In x (fst (pop_while cond output ops)).
Proof.
  induction ops as [| top ops IH]; intros output Hin; [exact Hin|].
  cbn [pop_while]. destruct (cond top); [| exact Hin].
  apply IH, in_or_app. now left.
Qed.

Lemma shunt_keeps (x : string) (st : list string * list string) (t : string) :
  In x (fst st) -> In x (fst (shunt st t)).
Proof.
  destruct st as [output ops]. cbn [fst]. intros Hin. unfold shunt.
  repeat match goal with
         | |- context [if ?c then _ else _] => destruct c
         end;
    cbn [fst]; try (apply in_or_app; now left); try exact Hin.
  - now apply pop_while_output.
  - assert (H := pop_while_output not_open x ops output Hin).
    destruct (pop_while not_open output ops) as [output1 ops1]. cbn [fst] in H.
    destruct (tl ops1) as [| top ops3]; [exact H|].
    destruct (isFunctionName top); [apply in_or_app; now left | exact H].
  - assert (H := pop_while_output (yields t) x ops output Hin).
    now destruct (pop_while (yields t) output ops).
Qed.

Lemma fold_shunt_keeps (x : string) (tokens : list string) :
  forall st, In x (fst st) -> In x (fst (fold_left shunt tokens st)).
Proof.
  induction tokens as [| t tokens IH]; intros st Hin; [exact Hin|].
  cbn [fold_left]. now apply IH, shunt_keeps.
Qed.

(** A token the evaluator does not know is in the postfix form. *)
Lemma unknown_reaches_rpn (t : string) (tokens : list string) :
  In t tokens -> known t = false -> (t =? ",")%string = false ->
  In t (to_rpn tokens).
Proof.
  intros Hin Hk Hc. unfold to_rpn.
  assert (H : forall st, In t (fst (fold_left shunt tokens st))).
  { induction tokens as [| t' tokens IH]; [contradiction|].
    intros [output ops]. cbn [fold_left]. destruct Hin as [-> | Hin].
    - apply fold_shunt_keeps. rewrite shunt_unknown by assumption.
      cbn [fst]. apply in_or_app. right. now left.
    - now apply IH. }
  specialize (H ([], [])).
  destruct (fold_left shunt tokens ([], [])) as [output ops].
  apply in_or_app. now left.
Qed.

Section Rejects.

Context {M : MathLib}.

(** A token that is rejected on every stack makes the loop throw. *)
Lemma run_rejects (t : string) (output : list string) :
  In t output ->
  (forall stack, exists e, apply_token t stack = Throw e) ->
  forall stack, exists e, run output stack = Throw e.
Proof.
  intros Hin Ht. induction output as [| t' output IH]; [contradiction|].
  intros stack. cbn [run].
  destruct (apply_token t' stack) as [stack' | e] eqn:Happ.
  - destruct Hin as [-> | Hin].
    + destruct (Ht stack) as [e He]. rewrite He in Happ. discriminate.
    + now apply IH.
  - now exists e.
Qed.

(** An input with a capital letter M makes the evaluator throw. *)
Lemma capital_throws (input : string) :
  has 77 input = true -> exists e, evaluateExpression input = Throw e.
Proof.
  intros HM.
  destruct (tokenize_capital _ input (le_n _) HM) as (w & Hin & HwM & Hne & Hw).
  destruct (normalize_capital w Hne Hw HwM) as (Hne' & Hw' & Hm).
  destruct (unknown_word _ Hne' Hw' Hm) as (Hk & Hc & Hnan).
  assert (Hrpn : In (normalize w) (to_rpn (map normalize (tokens_of input)))).
  { apply unknown_reaches_rpn; [| exact Hk | exact Hc].
    apply in_map_iff. now exists w. }
  destruct (run_rejects _ _ Hrpn) with (stack := @nil JS.number) as [e He].
  - intros stack. exists (InvalidToken (normalize w)).
    rewrite apply_unknown by exact Hk. now rewrite Hnan.
  - exists e. unfold evaluateExpression. now rewrite He.
Qed.

End Rejects.

(** ** The keys that are rewritten to a [Math.] name *)

Lemma math_stage (p0 : ascii) (ps rep display s : string) (Q : Prop) :
  has 77 rep = true -> has 77 (String p0 ps) = false ->
  has 77 s = true \/ (s = display /\ Q) ->
  has 77 (Text.replace_all (String p0 ps) rep s) = true
  \/ (Text.replace_all (String p0 ps) rep s = display
      /\ (Q /\ contains (String p0 ps) display = false)).
Proof.
  intros Hrep Hpat [HM | [-> HQ]].
  - left. now apply replace_all_stays.
  - destruct (contains (String p0 ps) display) eqn:Hc.
    + left. now apply replace_all_puts.
    + right. split; [now apply replace_all_none | auto].
Qed.

(** When the display holds one of the texts that are rewritten to a
    [Math.] name, the rewritten display holds a capital letter M. *)
Lemma expr_of_math (display : string) :
  existsb (fun k => contains k display) math_keys = true ->
  has 77 (Calculator.expr_of display) = true.
Proof.
  intros Hkeys. unfold Calculator.expr_of.
  assert (H0 : has 77 display = true \/ (display = display /\ True)) by auto.
  apply (math_stage "226" (String "136" (String "154" "")) "Math.sqrt" display) in H0;
    [| reflexivity | reflexivity].
  apply (math_stage "s" "in" "Math.sin" display) in H0; [| reflexivity | reflexivity].
  apply (math_stage "c" "os" "Math.cos" display) in H0; [| reflexivity | reflexivity].
  apply (math_stage "t" "an" "Math.tan" display) in H0; [| reflexivity | reflexivity].
  apply (math_stage "l" "og" "Math.log10" display) in H0; [| reflexivity | reflexivity].
  apply (math_stage "l" "n" "Math.log" display) in H0; [| reflexivity | reflexivity].
  apply (math_stage "207" (String "128" "") "Math.PI" display) in H0;
    [| reflexivity | reflexivity].
  apply (math_stage "e" "" "Math.E" display) in H0; [| reflexivity | reflexivity].
  assert (HM : has 77
                 (Text.replace_all "e" "Math.E"
                    (Text.replace_all "π" "Math.PI"
                       (Text.replace_all "ln" "Math.log"
                          (Text.replace_all "log" "Math.log10"
                             (Text.replace_all "tan" "Math.tan"
                                (Text.replace_all "cos" "Math.cos"
                                   (Text.replace_all "sin" "Math.sin"
                                      (Text.replace_all "√" "Math.sqrt" display))))))))
               = true).
  { destruct H0 as [HM | [_ HQ]]; [exact HM|].
    unfold math_keys in Hkeys. cbn [existsb] in Hkeys.
    destruct HQ as [[[[[[[[_ C1] C2] C3] C4] C5] C6] C7] C8].
    change "√" with (String "226" (String "136" (String "154" ""))) in Hkeys.
    change "π" with (String "207" (String "128" "")) in Hkeys.
    rewrite C1, C2, C3, C4, C5, C6, C7, C8 in Hkeys. discriminate. }
  apply replace_all_stays; [reflexivity|].
  apply replace_factorials_stays; [intros c; chars | reflexivity |].
  now apply replace_all_stays.
Qed.

(** ** What never reaches the evaluator *)

Lemma tokenize_within (n : N) (fuel : nat) :
  forall s t, In t (tokenize fuel s) -> has n t = true -> has n s = true.
Proof.
  induction fuel as [| fuel IH]; intros s t; [contradiction|].
  destruct s as [| c r]; [contradiction|].
  cbn [tokenize].
  destruct (match_number (String c r)) as [[t0 rest] |] eqn:Hnum.
  - destruct (match_number_spec _ _ _ Hnum) as [-> _].
    rewrite has_app. intros [<- | Hin] Ht.
    + now rewrite Ht.
    + rewrite (IH _ _ Hin Ht). apply orb_true_r.
  - destruct (span_word (String c r)) as [w rest] eqn:Hword.
    assert (Hsplit := span_word_spec _ _ _ Hword).
    destruct (is_empty w) eqn:Hne; cbn [negb].
    + cbn [has]. destruct (is_symbol c).
      * intros [<- | Hin] Ht.
        -- cbn [has] in Ht. rewrite orb_false_r in Ht. now rewrite Ht.
        -- rewrite (IH _ _ Hin Ht). apply orb_true_r.
      * intros Hin Ht. rewrite (IH _ _ Hin Ht). apply orb_true_r.
    + rewrite Hsplit, has_app. intros [<- | Hin] Ht.
      * now rewrite Ht.
      * rewrite (IH _ _ Hin Ht). apply orb_true_r.
Qed.

(** The pass over the constants and the names brings in digits, the point
    and small letters only. *)
Lemma normalize_within (n : N) (t : string) :
  (forall c, is_digit c = true -> (code c =? n)%N = false) ->
  (forall c, is_lower c = true -> (code c =? n)%N = false) ->
  (46 =? n)%N = false ->
  has n (normalize t) = true -> has n t = true.
Proof.
  intros Hd Hl Hp.
  assert (Hnum : forall s,
            all_chars (fun c => is_digit c || (code c =? 46)%N) s = true ->
            has n s = false).
  { intros s. apply has_all_chars. intros c Hc. apply orb_prop in Hc as [Hc | Hc].
    - now apply Hd.
    - apply N.eqb_eq in Hc. now rewrite Hc. }
  destruct (normalize_cases t) as [-> | [-> | [[Hname ->] | [_ ->]]]].
  - now rewrite Hnum.
  - now rewrite Hnum.
  - unfold is_name in Hname. apply andb_prop in Hname as [_ Hletters].
    rewrite (has_all_chars n is_lower _ Hl (toLowerCase_letters t Hletters)).
    discriminate.
  - auto.
Qed.

(** ** The tokenizer on any input *)

Lemma keep_app (p : ascii -> bool) (a b : string) :
  keep p (a ++ b) = (keep p a ++ keep p b)%string.
Proof.
  induction a as [| c a IH]; [reflexivity|].
  cbn [append keep]. destruct (p c); cbn [append]; now rewrite IH.
Qed.

Lemma match_number_none (c : ascii) (r : string) :
  match_number (String c r) = None -> is_digit c = false.
Proof.
  unfold match_number. cbn [span]. destruct (is_digit c); [| reflexivity].
  destruct (span is_digit r) as [d1 r1]. cbn [is_empty negb].
  destruct r1 as [| x r2]; [discriminate|].
  destruct (code x =? 46)%N; [| discriminate].
  destruct (span is_digit r2); discriminate.
Qed.

Lemma span_word_none (c : ascii) (r rest : string) :
  span_word (String c r) = ("", rest) -> is_letter c = false.
Proof.
  cbn [span_word]. destruct (is_letter c); [| reflexivity].
  destruct (span_word r); discriminate.
Qed.

Lemma tokenize_keeps (fuel : nat) :
  forall s, (String.length s <= fuel)%nat ->
  keep significant (join (tokenize fuel s)) = keep significant s.
Proof.
  induction fuel as [| fuel IH]; intros s Hlen.
  - destruct s; [reflexivity | cbn [String.length] in Hlen; lia].
  - destruct s as [| c r]; [reflexivity|].
    cbn [tokenize String.length] in *.
    destruct (match_number (String c r)) as [[t rest] |] eqn:Hnum.
    + destruct (match_number_spec _ _ _ Hnum) as [Hsplit Hne].
      apply is_empty_length in Hne.
      assert (Hl := f_equal String.length Hsplit). rewrite length_append in Hl.
      cbn [String.length] in Hl.
      unfold join. cbn [fold_right]. fold (join (tokenize fuel rest)).
      rewrite Hsplit, !keep_app, IH by lia. reflexivity.
    + destruct (span_word (String c r)) as [w rest] eqn:Hword.
      assert (Hsplit := span_word_spec _ _ _ Hword).
      destruct (is_empty w) eqn:Hne; cbn [negb].
      * apply is_empty_true in Hne. subst w.
        assert (Hd := match_number_none _ _ Hnum).
        assert (Hl := span_word_none _ _ _ Hword).
        destruct (is_symbol c) eqn:Hs.
        -- assert (Hsig : significant c = true)
             by (unfold significant; now rewrite Hs, orb_true_r).
           unfold join. cbn [fold_right append]. fold (join (tokenize fuel r)).
           cbn [keep]. now rewrite Hsig, IH by lia.
        -- assert (Hsig : significant c = false)
             by (unfold significant; now rewrite Hd, Hl, Hs).
           cbn [keep]. rewrite Hsig. apply IH. lia.
      * apply is_empty_length in Hne.
        assert (Hl := f_equal String.length Hsplit). rewrite length_append in Hl.
        cbn [String.length] in Hl.
        unfold join. cbn [fold_right]. fold (join (tokenize fuel rest)).
        rewrite Hsplit, !keep_app, IH by lia. reflexivity.
Qed.

(** No token holds a comma. *)
Lemma lexeme_no_comma (t : string) : lexeme t -> has 44 t = false.
Proof.
  intros [l Hl -> | Hne Hw | c -> Hc].
  - apply (has_all_chars 44 plain); [now apply plain_no | now apply literal_plain].
  - apply (has_all_chars 44 word_char); [| exact Hw].
    intros c. unfold word_char. chars.
  - cbn [has]. rewrite orb_false_r. revert Hc. chars.
Qed.

(** ** What the shunting-yard loop passes on *)

Lemma pop_while_elements (cond : string -> bool) (x : string) :
  forall ops output,
  In x (fst (pop_while cond output ops) ++ snd (pop_while cond output ops)) ->
  In x (output ++ ops).
Proof.
  induction ops as [| top ops IH]; intros output; [auto|].
  cbn [pop_while]. destruct (cond top); [| auto].
  intros H. apply IH in H. rewrite <- app_assoc in H. exact H.
Qed.

(** What is on [output] or [ops] after a turn was there before, or is the
    token of the turn; a closing parenthesis is never put there. *)
Lemma shunt_elements (x : string) (output ops : list string) (t : string) :
  In x (fst (shunt (output, ops) t) ++ snd (shunt (output, ops) t)) ->
  In x (output ++ ops) \/ (x = t /\ (t =? ")")%string = false).
Proof.
  unfold shunt.
  destruct (isNumber t) eqn:Hnum.
  { cbn [fst snd]. rewrite <- app_assoc. intros H.
    apply in_app_or in H as [H | [<- | H]].
    - left. apply in_or_app. now left.
    - right. split; [reflexivity|].
      destruct (String.eqb_spec t ")") as [-> |]; [discriminate | reflexivity].
    - left. apply in_or_app. now right. }
  destruct (isFunctionName t) eqn:Hfun.
  { cbn [fst snd]. intros H. apply in_app_or in H as [H | [<- | H]].
    - left. apply in_or_app. now left.
    - right. split; [reflexivity|].
      destruct (String.eqb_spec t ")") as [-> |]; [discriminate | reflexivity].
    - left. apply in_or_app. now right. }
  destruct (t =? ",")%string.
  { intros H. left. now apply pop_while_elements in H. }
  destruct (t =? "(")%string eqn:Hopen.
  { cbn [fst snd]. intros H. apply in_app_or in H as [H | [<- | H]].
    - left. apply in_or_app. now left.
    - right. split; [reflexivity|]. apply String.eqb_eq in Hopen. now subst t.
    - left. apply in_or_app. now right. }
  destruct (t =? ")")%string eqn:Hclose.
  { intros H. left. apply (pop_while_elements not_open x ops output).
    destruct (pop_while not_open output ops) as [output1 ops1].
    cbn [fst snd] in *.
    destruct ops1 as [| top1 ops2]; cbn [tl] in H.
    - exact H.
    - assert (Hsub : In x (output1 ++ ops2) -> In x (output1 ++ top1 :: ops2)).
      { intros Hx. apply in_app_or in Hx as [Hx | Hx]; apply in_or_app;
          [now left | right; now right]. }
      destruct ops2 as [| top ops3]; [now apply Hsub|].
      destruct (isFunctionName top); cbn [fst snd] in H; [| now apply Hsub].
      apply Hsub. rewrite <- app_assoc in H. exact H. }
  destruct (t =? "!")%string eqn:Hbang.
  { cbn [fst snd]. rewrite <- app_assoc. intros H.
    apply String.eqb_eq in Hbang. subst t.
    apply in_app_or in H as [H | [<- | H]].
    - left. apply in_or_app. now left.
    - right. now split.
    - left. apply in_or_app. now right. }
  destruct (is_operator t).
  { intros H.
    assert (Hp := pop_while_elements (yields t) x ops output).
    destruct (pop_while (yields t) output ops) as [output1 ops1].
    cbn [fst snd] in *.
    apply in_app_or in H as [H | [<- | H]].
    - left. apply Hp, in_or_app. now left.
    - right. now split.
    - left. apply Hp, in_or_app. now right. }
  cbn [fst snd]. rewrite <- app_assoc. intros H.
  apply in_app_or in H as [H | [<- | H]].
  - left. apply in_or_app. now left.
  - right. now split.
  - left. apply in_or_app. now right.
Qed.

Lemma fold_shunt_elements (x : string) (tokens : list string) :
  forall output ops,
  In x (fst (fold_left shunt tokens (output, ops))
        ++ snd (fold_left shunt tokens (output, ops))) ->
  In x (output ++ ops) \/ (In x tokens /\ (x =? ")")%string = false).
Proof.
  induction tokens as [| t tokens IH]; intros output ops; [auto|].
  cbn [fold_left]. destruct (shunt (output, ops) t) as [output1 ops1] eqn:Hs.
  intros H. apply IH in H as [H | [H Hc]].
  - assert (Hs' := shunt_elements x output ops t). rewrite Hs in Hs'.
    destruct (Hs' H) as [Hx | [-> Hc]]; [now left | right].
    split; [now left | exact Hc].
  - right. split; [now right | exact Hc].
Qed.

(** The postfix form holds tokens of the input only, and no closing
    parenthesis. *)
Lemma rpn_elements (x : string) (tokens : list string) :
  In x (to_rpn tokens) -> In x tokens /\ (x =? ")")%string = false.
Proof.
  unfold to_rpn. intros H.
  assert (Hf := fold_shunt_elements x tokens [] []).
  destruct (fold_left shunt tokens ([], [])) as [output ops].
  destruct (Hf H) as [[] | Hx]. exact Hx.
Qed.

Section Taxonomy.

Context {M : MathLib}.

Lemma run_throws_at (output : list string) :
  forall stack t, run output stack = Throw (InvalidToken t) ->
  In t output /\ exists stack', apply_token t stack' = Throw (InvalidToken t).
Proof.
  induction output as [| t' output IH]; intros stack t; [discriminate|].
  cbn [run]. destruct (apply_token t' stack) as [stack' | e] eqn:Happ.
  - intros H. destruct (IH _ _ H) as [Hin Hex]. split; [now right | exact Hex].
  - intros [= ->]. assert (He := apply_token_throws _ _ _ Happ).
    injection He as <-. split; [now left | now exists stack].
Qed.

Lemma apply_function_name (t : string) (stack : list JS.number) :
  isFunctionName t = true -> exists stack', apply_token t stack = Ok stack'.
Proof.
  unfold isFunctionName. cbn [existsb]. rewrite !orb_true_iff, !String.eqb_eq.
  intros H. intuition subst; try discriminate; eexists; reflexivity.
Qed.

Lemma apply_symbol (c : ascii) (stack : list JS.number) :
  is_symbol c = true -> (code c =? 40)%N = false -> (code c =? 41)%N = false ->
  exists stack', apply_token (String c "") stack = Ok stack'.
Proof.
  intros Hc H40 H41.
  assert (Hn : In (code c) [43; 45; 42; 47; 94; 37; 33]%N).
  { cbn [In]. revert Hc H40 H41. unfold is_symbol.
    rewrite !orb_true_iff, !N.eqb_eq, !N.eqb_neq. lia. }
  assert (Hcases : In c ["+"; "-"; "*"; "/"; "^"; "%"; "!"]%char).
  { rewrite <- (ascii_N_embedding c). fold (code c). cbn [In] in Hn |- *.
    intuition (match goal with H : _ = code c |- _ => rewrite <- H end; auto 10). }
  cbn [In] in Hcases.
  intuition subst; eexists; reflexivity.
Qed.

End Taxonomy.

(** ** Typing an expression *)

Lemma plain_key (c : ascii) : plain c = true -> In (String c "") typing_keys.
Proof.
  intros Hc.
  assert (Hn : In (code c)
                 [40; 41; 42; 43; 45; 46; 47; 48; 49; 50; 51; 52; 53; 54; 55; 56; 57]%N).
  { cbn [In]. revert Hc. unfold plain, is_digit.
    rewrite !orb_true_iff, !andb_true_iff, !N.eqb_eq, !N.leb_le. lia. }
  rewrite <- (ascii_N_embedding c). fold (code c).
  cbn [In] in Hn.
  repeat (destruct Hn as [<- | Hn]; [cbn; tauto|]). contradiction.
Qed.

Section Typing.

Context {M : MathLib}.

(** On a display that is not ['0'], plain keys are put behind it. *)
Lemma press_plain (s : string) :
  forall display,
  all_chars plain s = true -> all_chars plain display = true ->
  is_empty display = false -> (display =? "0")%string = false ->
  Calculator.press display (keys_of s) = (display ++ s)%string.
Proof.
  induction s as [| c r IH]; intros display Hs Hd Hne H0.
  - cbn. now rewrite append_nil_r.
  - cbn [all_chars] in Hs. apply andb_prop in Hs as [Hc Hr].
    cbn [keys_of Calculator.press fold_left].
    destruct (plain_not_error display Hd) as [H1 H2].
    rewrite (typing_key_click display _ (plain_key c Hc) H1 H2), H0. cbn [andb].
    fold (Calculator.press (display ++ String c "") (keys_of r)).
    rewrite IH.
    + rewrite append_assoc. reflexivity.
    + exact Hr.
    + rewrite all_chars_app, Hd. cbn [all_chars]. now rewrite Hc.
    + rewrite is_empty_app, Hne. reflexivity.
    + destruct (String.eqb_spec (display ++ String c "") "0") as [E |];
        [| reflexivity].
      apply (f_equal String.length) in E. rewrite length_append in E.
      apply is_empty_length in Hne. cbn [String.length] in E. lia.
Qed.

Lemma press_from_zero (s : string) :
  all_chars plain s = true -> typed_as_written s = true ->
  Calculator.press "0" (keys_of s) = s.
Proof.
  destruct s as [| c r]; [discriminate|].
  intros Hs Ht. cbn [all_chars] in Hs. apply andb_prop in Hs as [Hc Hr].
  cbn [typed_as_written] in Ht. apply andb_prop in Ht as [Hpoint Hzero].
  apply negb_true_iff in Hpoint.
  cbn [keys_of Calculator.press fold_left].
  rewrite (typing_key_click "0" _ (plain_key c Hc) eq_refl eq_refl).
  replace (String c "" =? ".")%string with false.
  2:{ symmetry. apply (differs_by (code c)); cbn [has].
      - now rewrite N.eqb_refl.
      - rewrite N.eqb_sym. change (code ".") with 46%N. now rewrite Hpoint. }
  cbn [String.eqb Ascii.eqb Bool.eqb andb negb].
  change (fold_left Calculator.handleButtonClick (keys_of r) (String c ""))
    with (Calculator.press (String c "") (keys_of r)).
  destruct (code c =? 48)%N eqn:H48.
  - assert (c = "0"%char).
    { apply N.eqb_eq in H48. rewrite <- (ascii_N_embedding c). fold (code c).
      now rewrite H48. }
    subst c. cbn [negb orb] in Hzero.
    destruct r as [| c2 r2]; [reflexivity|].
    apply N.eqb_eq in Hzero.
    assert (c2 = "."%char).
    { rewrite <- (ascii_N_embedding c2). fold (code c2). now rewrite Hzero. }
    subst c2. cbn [all_chars] in Hr. apply andb_prop in Hr as [_ Hr2].
    cbn [keys_of Calculator.press fold_left].
    change (Calculator.handleButtonClick "0" ".") with "0.".
    fold (Calculator.press "0." (keys_of r2)).
    now rewrite press_plain.
  - rewrite press_plain; [reflexivity | exact Hr | | reflexivity |].
    + cbn [all_chars]. now rewrite Hc.
    + apply (differs_by (code c)); cbn [has].
      * now rewrite N.eqb_refl.
      * rewrite N.eqb_sym. change (code "0") with 48%N. now rewrite H48.
Qed.

Lemma press_app (display : string) (xs ys : list string) :
  Calculator.press display (xs ++ ys)
  = Calculator.press (Calculator.press display xs) ys.
Proof. apply fold_left_app. Qed.

End Typing.

(** ** An operator with nothing before it *)

Lemma graft_infix (o : binop) (z e : expr) :
  infix (graft o z e) = infix z ++ op_text o :: infix e.
Proof.
  induction e as [l | c | o1 a IHa b IHb | e IH | f e IH | e IH];
    cbn [graft]; try reflexivity.
  destruct (gives_way o1 o); [| reflexivity].
  cbn [infix]. rewrite IHa, <- app_assoc. reflexivity.
Qed.

Lemma graft_postfix (o : binop) (z e : expr) :
  postfix (graft o z e) = postfix z ++ lead o e.
Proof.
  induction e as [l | c | o1 a IHa b IHb | e IH | f e IH | e IH];
    cbn [graft lead]; try reflexivity.
  destruct (gives_way o1 o); [| reflexivity].
  cbn [postfix]. rewrite IHa, <- app_assoc. reflexivity.
Qed.

Lemma graft_level (o : binop) (z e : expr) :
  (Nat.min (level e) (op_level o) <= level (graft o z e))%nat.
Proof.
  destruct e as [l | c | o1 a b | e | f e | e]; cbn [graft level]; try lia.
  destruct (gives_way o1 o); cbn [level]; lia.
Qed.

Lemma graft_well_formed (o : binop) (z e : expr) :
  o <> Pow -> well_formed z = true -> level z = 4%nat -> well_formed e = true ->
  well_formed (graft o z e) = true.
Proof.
  intros Ho Hz Hlz.
  assert (Hleft : groups_right o = false)
    by (destruct o; try reflexivity; now elim Ho).
  assert (Hlo : (op_level o <= 2)%nat)
    by (destruct o; cbn [op_level]; try lia; now elim Ho).
  assert (Hon : forall e', well_formed e' = true -> (op_level o < level e')%nat ->
                 well_formed (Bin o z e') = true).
  { intros e' He' Hl. cbn [well_formed]. rewrite Hz, He', Hleft, Hlz. cbn [andb].
    apply andb_true_intro. split; [apply Nat.leb_le | apply Nat.ltb_lt]; lia. }
  induction e as [l | c | o1 a IHa b IHb | e IH | f e IH | e IH];
    intros Hw; cbn [graft]; try (apply Hon; [exact Hw | cbn [level]; lia]).
  destruct (gives_way o1 o) eqn:Hg.
  - assert (Hw' := Hw). cbn [well_formed] in Hw.
    apply andb_prop in Hw as [Hw Hlev]. apply andb_prop in Hw as [Hwa Hwb].
    unfold gives_way in Hg.
    destruct (groups_right o1) eqn:Hr.
    + apply Nat.ltb_lt in Hg. destruct o1; try discriminate. cbn in Hg. lia.
    + apply Nat.leb_le in Hg. apply andb_prop in Hlev as [Hla Hlb].
      cbn [well_formed]. rewrite (IHa Hwa), Hwb, Hr, Hlb. cbn [andb].
      rewrite andb_true_r. apply Nat.leb_le. apply Nat.leb_le in Hla.
      assert (H := graft_level o z a). lia.
  - apply Hon; [exact Hw|]. cbn [level]. unfold gives_way in Hg.
    destruct (groups_right o1) eqn:Hr.
    + destruct o1; try discriminate. cbn. lia.
    + apply Nat.leb_gt in Hg. lia.
Qed.

(** What a turn puts on [output] does not depend on what is there. *)
Lemma pop_while_behind (cond : string -> bool) :
  forall ops output,
  pop_while cond output ops
  = (output ++ fst (pop_while cond [] ops), snd (pop_while cond [] ops)).
Proof.
  induction ops as [| top ops IH]; intros output; cbn [pop_while].
  - now rewrite app_nil_r.
  - destruct (cond top); [| now rewrite app_nil_r].
    rewrite IH, (IH ([] ++ [top])). cbn [fst snd app].
    now rewrite <- app_assoc.
Qed.

Lemma shunt_behind (output ops : list string) (t : string) :
  shunt (output, ops) t
  = (output ++ fst (shunt ([], ops) t), snd (shunt ([], ops) t)).
Proof.
  unfold shunt.
  repeat match goal with
         | |- context [if ?c then _ else _] => destruct c
         end;
    cbn [fst snd app]; rewrite ?app_nil_r; try reflexivity.
  - apply pop_while_behind.
  - rewrite (pop_while_behind not_open ops output).
    destruct (pop_while not_open [] ops) as [output1 ops1]. cbn [fst snd].
    destruct (tl ops1) as [| top ops3]; [reflexivity|].
    destruct (isFunctionName top); cbn [fst snd]; [| reflexivity].
    now rewrite app_assoc.
  - rewrite (pop_while_behind (yields t) ops output).
    now destruct (pop_while (yields t) [] ops).
Qed.

Lemma fold_shunt_behind (tokens : list string) :
  forall output ops,
  fold_left shunt tokens (output, ops)
  = (output ++ fst (fold_left shunt tokens ([], ops)),
     snd (fold_left shunt tokens ([], ops))).
Proof.
  induction tokens as [| t tokens IH]; intros output ops; cbn [fold_left fst snd].
  - now rewrite app_nil_r.
  - rewrite (shunt_behind output ops t).
    destruct (shunt ([], ops) t) as [output1 ops1]. cbn [fst snd].
    rewrite IH, (IH output1). cbn [fst snd]. now rewrite app_assoc.
Qed.

Lemma to_rpn_literal (z : literal) (tokens : list string) :
  literal_ok z = true ->
  to_rpn (literal_text z :: tokens) = literal_text z :: to_rpn tokens.
Proof.
  intros Hz. unfold to_rpn. cbn [fold_left].
  rewrite (shunt_literal z [] [] Hz). cbn [app].
  rewrite fold_shunt_behind.
  destruct (fold_left shunt tokens ([], [])) as [output ops].
  reflexivity.
Qed.

(** The postfix form of an operator followed by an expression. *)
Lemma to_rpn_lead (o : binop) (e : expr) :
  o <> Pow -> well_formed e = true ->
  to_rpn (op_text o :: infix e) = lead o e.
Proof.
  intros Ho Hw.
  assert (Hg := to_rpn_infix (graft o (Lit (Whole "0")) e)
                  (graft_well_formed o (Lit (Whole "0")) e Ho eq_refl eq_refl Hw)).
  rewrite graft_infix, graft_postfix in Hg. cbn [infix postfix app] in Hg.
  rewrite (to_rpn_literal (Whole "0") _ eq_refl) in Hg.
  now injection Hg.
Qed.

Section Lead.

Context {M : MathLib}.

Lemma run_lead (o : binop) (e : expr) :
  o <> Pow -> well_formed e = true -> run (lead o e) [] = Ok [JS.NaN].
Proof.
  intros Ho.
  assert (Hnan : forall o' v, o' <> Pow -> op_fun o' JS.NaN v = JS.NaN).
  { intros o' v Ho'. destruct o'; try reflexivity; try (now destruct v). }
  assert (Hlast : forall e', well_formed e' = true ->
                   run (postfix e' ++ [op_text o]) [] = Ok [JS.NaN]).
  { intros e' He'. rewrite run_app, (run_postfix e' He').
    destruct o; try congruence; cbn [run op_text]; try reflexivity;
      now destruct (denote e'). }
  induction e as [l | c | o1 a IHa b IHb | e IH | f e IH | e IH];
    intros Hw; cbn [lead]; try (now apply Hlast).
  destruct (gives_way o1 o) eqn:Hg; [| now apply Hlast].
  cbn [well_formed] in Hw.
  apply andb_prop in Hw as [Hw _]. apply andb_prop in Hw as [Hwa Hwb].
  rewrite run_app, (IHa Hwa), run_app, (run_postfix b Hwb).
  cbn [run]. rewrite apply_operator. rewrite Hnan; [reflexivity|].
  intros ->. unfold gives_way in Hg. cbn [groups_right op_level] in Hg.
  apply Nat.ltb_lt in Hg. destruct o; cbn in Hg; lia.
Qed.

End Lead.

Section Leading.

Context {M : MathLib}.

(** An operator other than [^] followed by an expression: the postfix
    form, and the value. *)
Lemma evaluate_leading (sep : string) (o : binop) (e : expr) :
  o <> Pow -> all_chars is_blank sep = true -> well_formed e = true ->
  to_rpn (map normalize (tokens_of (op_text o ++ sep ++ text sep e))) = lead o e
  /\ (forall z, literal_ok z = true ->
      to_rpn (map normalize
                (tokens_of (text sep (graft o (Lit z) e))))
      = literal_text z :: lead o e)
  /\ evaluateExpression (op_text o ++ sep ++ text sep e) = Ok JS.NaN.
Proof.
  intros Ho Hsep Hw.
  assert (Hrpn : to_rpn (map normalize (tokens_of (op_text o ++ sep ++ text sep e)))
                 = lead o e).
  { destruct (op_text_symbol o) as (c & Hc & Hsym). rewrite Hc at 1.
    cbn [append]. rewrite tokens_of_symbol by exact Hsym.
    rewrite tokens_of_blanks by exact Hsep.
    rewrite (tokens_of_expr sep e Hsep Hw).
    cbn [map]. rewrite (normalize_symbol c Hsym), normalize_lexemes by exact Hw.
    rewrite <- Hc. now apply to_rpn_lead. }
  split; [exact Hrpn|]. split.
  - intros z Hz.
    assert (Hg := graft_well_formed o (Lit z) e Ho Hz eq_refl Hw).
    rewrite (tokens_of_expr sep _ Hsep Hg), normalize_lexemes by exact Hg.
    rewrite to_rpn_infix by exact Hg. now rewrite graft_postfix.
  - unfold evaluateExpression. now rewrite Hrpn, run_lead.
Qed.

End Leading.

(** ** A function name without parentheses *)

Lemma yields_function (o : binop) (f : func) :
  yields (op_text o) (func_text f) = false.
Proof. now destruct o, f. Qed.

Lemma shunt_factorial (output ops : list string) :
  shunt (output, ops) "!" = (output ++ ["!"], ops).
Proof. reflexivity. Qed.

(** An expression read over a function name: the name waits on [ops] until
    the loop is through, unless the expression opens with a parenthesis,
    which makes it the argument. *)
Lemma shunt_under_function (f : func) (e : expr) :
  well_formed e = true -> opens_with_parenthesis e = false ->
  forall output ops rest,
  fold_left shunt (infix e ++ rest) (output, func_text f :: ops)
  = fold_left shunt rest
      (output ++ emitted e, map op_text (pending e) ++ func_text f :: ops).
Proof.
  induction e as [l | c | o a IHa b IHb | e IH | g e IH | e IH];
    intros Hw Hopen output ops rest; cbn [opens_with_parenthesis] in Hopen;
    try discriminate.
  - cbn [infix app fold_left emitted postfix pending map].
    now rewrite shunt_literal.
  - cbn [infix app fold_left emitted postfix pending map].
    now rewrite shunt_constant.
  - assert (Hw' := Hw). cbn [well_formed] in Hw.
    apply andb_prop in Hw as [Hw _]. apply andb_prop in Hw as [Hwa Hwb].
    cbn [infix]. rewrite <- app_assoc. cbn [app].
    rewrite (IHa Hwa Hopen). cbn [fold_left].
    rewrite shunt_operator.
    rewrite pop_while_all;
      [| now apply (left_operand_gives_way o a b) | apply yields_function].
    rewrite (shunt_expr b Hwb).
    + cbn [emitted pending]. rewrite map_app. cbn [map].
      rewrite <- !app_assoc. reflexivity.
    + cbn [calm]. split; [apply operator_no_function|].
      now apply (right_operand_waits o a b).
  - cbn [infix app]. rewrite <- app_assoc. cbn [app].
    cbn [well_formed] in Hw. rewrite (shunt_call g e _ _ _ Hw).
    cbn [emitted postfix pending map app]. reflexivity.
  - cbn [well_formed] in Hw. apply andb_prop in Hw as [Hw Hl].
    apply Nat.eqb_eq in Hl. destruct (tightest_alone e Hl) as [Hp _].
    cbn [infix]. rewrite <- app_assoc. cbn [app].
    rewrite (IH Hw Hopen). cbn [fold_left]. rewrite shunt_factorial.
    rewrite Hp. cbn [map app emitted postfix pending].
    rewrite <- (emitted_pending e), Hp. cbn [map].
    now rewrite app_nil_r, <- app_assoc.
Qed.

Section NoParentheses.

Context {M : MathLib}.

Lemma evaluate_under_function (sep gap : string) (f : func) (e : expr) :
  all_chars is_blank sep = true -> all_chars is_blank gap = true ->
  is_empty gap = false ->
  well_formed e = true -> opens_with_parenthesis e = false ->
  to_rpn (map normalize (tokens_of (func_text f ++ gap ++ text sep e)))
  = postfix e ++ [func_text f]
  /\ evaluateExpression (func_text f ++ gap ++ text sep e)
     = Ok (func_fun f (denote e)).
Proof.
  intros Hsep Hgap Hne Hw Hopen.
  assert (Hrpn : to_rpn (map normalize
                           (tokens_of (func_text f ++ gap ++ text sep e)))
                 = postfix e ++ [func_text f]).
  { rewrite tokens_of_func.
    2:{ destruct gap as [| c gap]; [discriminate|].
        cbn [all_chars] in Hgap. apply andb_prop in Hgap as [Hc _].
        cbn [append boundary]. now rewrite Hc, orb_true_r. }
    rewrite tokens_of_blanks by exact Hgap.
    rewrite (tokens_of_expr sep e Hsep Hw).
    cbn [map]. rewrite normalize_func, normalize_lexemes by exact Hw.
    unfold to_rpn. cbn [fold_left]. rewrite shunt_func.
    rewrite <- (app_nil_r (infix e)).
    rewrite (shunt_under_function f e Hw Hopen).
    cbn [fold_left app]. rewrite app_assoc, emitted_pending. reflexivity. }
  split; [exact Hrpn|].
  unfold evaluateExpression.
  rewrite Hrpn, run_app, (run_postfix e Hw). cbn [run].
  now rewrite apply_func.
Qed.

End NoParentheses.

(** ** After a function or constant key *)

Lemma strip_prefix_app (p : string) :
  forall s t r, Parse.strip_prefix p s = Some r ->
  Parse.strip_prefix p (s ++ t) = Some (r ++ t)%string.
Proof.
  induction p as [| a p IH]; intros s t r; cbn [Parse.strip_prefix].
  - now intros [= ->].
  - destruct s as [| b s]; [discriminate|]. cbn [append].
    destruct (Ascii.eqb a b); [apply IH | discriminate].
Qed.

Lemma contains_step (pat s : string) :
  contains pat s
  = match Parse.strip_prefix pat s with
    | Some _ => true
    | None => match s with String _ r => contains pat r | "" => false end
    end.
Proof. now destruct s. Qed.

Lemma contains_app_l (pat s t : string) :
  contains pat s = true -> contains pat (s ++ t) = true.
Proof.
  induction s as [| c s IH]; rewrite (contains_step pat), (contains_step pat (_ ++ _));
    destruct (Parse.strip_prefix pat _) as [r |] eqn:Hp at 1.
  - intros _. now rewrite (strip_prefix_app pat _ t _ Hp).
  - discriminate.
  - intros _. now rewrite (strip_prefix_app pat _ t _ Hp).
  - intros H. cbn [append]. rewrite (IH H).
    now destruct (Parse.strip_prefix pat (String c (s ++ t))).
Qed.

Lemma contains_app_r (pat s t : string) :
  contains pat t = true -> contains pat (s ++ t) = true.
Proof.
  intros H. induction s as [| c s IH]; [exact H|].
  rewrite contains_step. cbn [append]. rewrite IH.
  now destruct (Parse.strip_prefix pat (String c (s ++ t))).
Qed.

Lemma holds_math_app_l (s t : string) :
  holds_math s = true -> holds_math (s ++ t) = true.
Proof.
  unfold holds_math. rewrite !existsb_exists.
  intros (k & Hin & Hk). exists k. split; [exact Hin|]. now apply contains_app_l.
Qed.

Lemma holds_math_app_r (s t : string) :
  holds_math t = true -> holds_math (s ++ t) = true.
Proof.
  unfold holds_math. rewrite !existsb_exists.
  intros (k & Hin & Hk). exists k. split; [exact Hin|]. now apply contains_app_r.
Qed.

(** A display that holds one of these texts is none of ['0'], ['Error']
    and ['Infinity']. *)
Lemma holds_math_display (display : string) :
  holds_math display = true ->
  (display =? "0")%string = false /\ (display =? "Error")%string = false
  /\ (display =? "Infinity")%string = false.
Proof.
  intros H. repeat split.
  - destruct (String.eqb_spec display "0") as [-> |]; [discriminate | reflexivity].
  - destruct (String.eqb_spec display "Error") as [-> |];
      [discriminate | reflexivity].
  - destruct (String.eqb_spec display "Infinity") as [-> |];
      [discriminate | reflexivity].
Qed.

Section Sticks.

Context {M : MathLib}.

Lemma math_key_click (display k : string) :
  In k math_keys -> holds_math (Calculator.handleButtonClick display k) = true.
Proof.
  intros Hin. unfold Calculator.handleButtonClick.
  destruct ((display =? "Error")%string || (display =? "Infinity")%string).
  - cbn in Hin.
    repeat (destruct Hin as [<- | Hin]; [reflexivity|]). contradiction.
  - cbn in Hin.
    repeat (destruct Hin as [<- | Hin];
            [cbn -[holds_math append]; destruct (display =? "0")%string;
             [reflexivity | now apply holds_math_app_r] |]).
    contradiction.
Qed.

Lemma appending_key_click (display value : string) :
  In value appending_keys -> holds_math display = true ->
  holds_math (Calculator.handleButtonClick display value) = true.
Proof.
  intros Hin Hd. destruct (holds_math_display _ Hd) as (H0 & H1 & H2).
  unfold Calculator.handleButtonClick. rewrite H0, H1, H2.
  cbn in Hin.
  repeat (destruct Hin as [<- | Hin];
          [cbn -[holds_math append]; now apply holds_math_app_l |]).
  contradiction.
Qed.

Lemma appending_keys_press (values : list string) :
  incl values appending_keys ->
  forall display, holds_math display = true ->
  holds_math (Calculator.press display values) = true.
Proof.
  induction values as [| v values IH]; intros Hin display Hd; [exact Hd|].
  cbn [Calculator.press fold_left]. apply IH.
  - intros x Hx. apply Hin. now right.
  - apply appending_key_click; [| exact Hd]. apply Hin. now left.
Qed.

Lemma equals_math (display : string) :
  holds_math display = true ->
  Calculator.handleButtonClick display "=" = "Error".
Proof.
  intros Hd. destruct (holds_math_display _ Hd) as (_ & H1 & H2).
  destruct (capital_throws _ (expr_of_math display Hd)) as [e He].
  now rewrite equals_key, He.
Qed.

Lemma press_math (display k : string) (values : list string) :
  In k math_keys -> incl values appending_keys ->
  holds_math (Calculator.press display (k :: values)) = true
  /\ Calculator.press display (k :: values ++ ["="]) = "Error".
Proof.
  intros Hk Hin.
  assert (H : holds_math (Calculator.press display (k :: values)) = true).
  { cbn [Calculator.press fold_left]. apply appending_keys_press; [exact Hin|].
    now apply math_key_click. }
  split; [exact H|].
  change (k :: values ++ ["="]) with ((k :: values) ++ ["="]).
  rewrite press_app. cbn [Calculator.press fold_left] in *.
  now apply equals_math.
Qed.

End Sticks.

(** * Further properties of the evaluator and of the keys *)

(** X1: the tokenizer loses no digit, letter or symbol: the tokens of an
    input, put together, hold the digits, the letters and the symbols
    [( ) + - * / ^ % !] of the input, all of them and in their order; what
    is stepped over is something else. *)
Theorem tokens_keep_significant (input : string) :
  keep significant (join (tokens_of input)) = keep significant input.
Proof. apply tokenize_keeps. apply le_n. Qed.

(** X2: a comma is never a token: the tokenizer has no class for it, so
    whatever the input, no token is [","] when the shunting-yard loop runs,
    and its branch for the comma is never taken. *)
Theorem comma_never_token (input : string) :
  existsb (String.eqb ",") (map normalize (tokens_of input)) = false
  /\ has 44 (join (map normalize (tokens_of input))) = false.
Proof.
  assert (H : forall t, In t (map normalize (tokens_of input)) -> has 44 t = false).
  { intros t Hin. apply in_map_iff in Hin as (t0 & <- & Hin).
    destruct (has 44 (normalize t0)) eqn:Hn; [| reflexivity].
    apply normalize_within in Hn; [| intros c; chars | intros c; chars | reflexivity].
    rewrite lexeme_no_comma in Hn; [discriminate|].
    apply (proj1 (Forall_forall _ _) (tokens_of_lexemes input)), Hin. }
  split.
  - destruct (existsb _ _) eqn:Hex; [| reflexivity].
    apply existsb_exists in Hex as (t & Hin & Ht).
    apply String.eqb_eq in Ht. subst t. now apply H in Hin.
  - induction (map normalize (tokens_of input)) as [| t l IH]; [reflexivity|].
    unfold join. cbn [fold_right]. fold (join l).
    rewrite has_app, (H t) by now left.
    apply IH. intros t' Hin. apply H. now right.
Qed.

(** X3: the tokens [evaluateExpression] rejects: when it throws
    ['Invalid expression token: ' + t], the token [t] is a token of the
    input (after the pass over constants and names) and is either an
    opening parenthesis that was never closed or a word of letters that is
    no function name; a number, an operator or a closing parenthesis is
    never rejected. *)
Theorem rejected_tokens (M : MathLib) (input t : string) :
  evaluateExpression input = Throw (InvalidToken t) ->
  In t (map normalize (tokens_of input))
  /\ (t = "("
      \/ (is_empty t = false /\ all_chars word_char t = true
          /\ isFunctionName t = false /\ isNumber t = false)).
Proof.
  unfold evaluateExpression. intros H.
  destruct (run (to_rpn (map normalize (tokens_of input))) [])
    as [[| x [| y stack]] | e] eqn:Hrun; try discriminate.
  cbn [finish] in H. injection H as ->.
  destruct (run_throws_at _ _ _ Hrun) as [Hin [stack Happ]].
  apply rpn_elements in Hin as [Hin Hclose].
  split; [exact Hin|].
  apply in_map_iff in Hin as (t0 & <- & Hin).
  assert (Hlex : lexeme t0)
    by (apply (proj1 (Forall_forall _ _) (tokens_of_lexemes input)), Hin).
  destruct Hlex as [l Hl -> | Hne Hw | c -> Hc].
  - rewrite (normalize_literal l Hl) in *.
    assert (Hok := apply_literal l stack Hl). rewrite Hok in Happ. discriminate.
  - right.
    assert (Hword : is_empty (normalize t0) = false
                    /\ all_chars word_char (normalize t0) = true).
    { destruct (normalize_cases t0) as [Hn | [Hn | [[Hname Hn] | [_ Hn]]]];
        rewrite Hn in *.
      - rewrite (apply_constant LowerPi) in Happ. discriminate.
      - rewrite (apply_constant Euler) in Happ. discriminate.
      - unfold is_name in Hname. apply andb_prop in Hname as [_ Hletters].
        rewrite toLowerCase_empty, Hne. split; [reflexivity|].
        apply (all_chars_impl is_lower).
        + intros c Hc. unfold word_char, is_letter. now rewrite Hc, orb_true_r.
        + now apply toLowerCase_letters.
      - auto. }
    destruct Hword as [Hne' Hw'].
    split; [exact Hne'|]. split; [exact Hw'|].
    split; [| now apply isNumber_word].
    destruct (isFunctionName (normalize t0)) eqn:Hfun; [| reflexivity].
    destruct (apply_function_name _ stack Hfun) as [stack' Hok].
    rewrite Hok in Happ. discriminate.
  - rewrite (normalize_symbol c Hc) in *.
    destruct (code c =? 40)%N eqn:H40.
    + left. apply N.eqb_eq in H40.
      rewrite <- (ascii_N_embedding c). fold (code c). now rewrite H40.
    + assert (H41 : (code c =? 41)%N = false).
      { destruct (code c =? 41)%N eqn:H41; [| reflexivity].
        apply N.eqb_eq in H41.
        assert (c = ")"%char)
          by (rewrite <- (ascii_N_embedding c); fold (code c); now rewrite H41).
        subst c. discriminate. }
      destruct (apply_symbol c stack Hc H40 H41) as [stack' Hok].
      rewrite Hok in Happ. discriminate.
Qed.

Lemma rejected_tokens_witness :
  every_host (fun M =>
    evaluateExpression "2*Foo(3)" = Throw (InvalidToken "foo")
    /\ In "foo" (map normalize (tokens_of "2*Foo(3)"))).
Proof.
  constructor. intros M.
  assert (H : evaluateExpression "2*Foo(3)" = Throw (InvalidToken "foo"))
    by by_computation.
  split; [exact H|]. exact (proj1 (rejected_tokens M "2*Foo(3)" "foo" H)).
Defined.

(** X4: no multiplication is implied: a literal, a constant, a
    parenthesised expression, a call or a factorial followed by another
    well-formed expression, set off by a blank or starting with a
    parenthesis, leaves two values on the stack, and [evaluateExpression]
    throws ['Invalid expression']. *)
Theorem no_implied_multiplication (M : MathLib) (sep gap : string) (a b : expr) :
  all_chars is_blank sep = true -> all_chars is_blank gap = true ->
  well_formed a = true -> well_formed b = true -> level a = 4%nat ->
  boundary (gap ++ text sep b) = true ->
  run (to_rpn (map normalize (tokens_of (text sep a ++ gap ++ text sep b)))) []
  = Ok [denote b; denote a]
  /\ evaluateExpression (text sep a ++ gap ++ text sep b) = Throw InvalidExpression.
Proof.
  intros Hsep Hgap Hwa Hwb Hla Hbound.
  assert (Hrun : run (to_rpn (map normalize
                        (tokens_of (text sep a ++ gap ++ text sep b)))) []
                 = Ok [denote b; denote a]).
  { rewrite (tokens_of_text sep a Hsep Hwa) by exact Hbound.
    rewrite tokens_of_blanks by exact Hgap.
    rewrite (tokens_of_expr sep b Hsep Hwb).
    rewrite map_app, !normalize_lexemes by assumption.
    unfold to_rpn.
    rewrite (shunt_operand a [] [] _ Hwa Hla I).
    rewrite <- (app_nil_r (infix b)).
    rewrite (shunt_expr b Hwb) by exact I.
    cbn [fold_left app]. rewrite app_nil_r, <- app_assoc, emitted_pending.
    rewrite run_app, (run_postfix a Hwa). now rewrite (run_postfix b Hwb). }
  split; [exact Hrun|]. unfold evaluateExpression. now rewrite Hrun.
Qed.

Lemma no_implied_multiplication_witness :
  every_host (fun M =>
    (all_chars is_blank "" = true /\ all_chars is_blank "" = true
     /\ well_formed (Lit (Whole "2")) = true
     /\ well_formed (Paren (Bin Add (Lit (Whole "3")) (Lit (Whole "4")))) = true
     /\ level (Lit (Whole "2")) = 4%nat
     /\ boundary ("" ++ text "" (Paren (Bin Add (Lit (Whole "3")) (Lit (Whole "4")))))
        = true)
    /\ evaluateExpression "2(3+4)" = Throw InvalidExpression).
Proof.
  constructor. intros M. split; [repeat split|].
  exact (proj2 (no_implied_multiplication M "" "" (Lit (Whole "2"))
                  (Paren (Bin Add (Lit (Whole "3")) (Lit (Whole "4"))))
                  eq_refl eq_refl eq_refl eq_refl eq_refl eq_refl)).
Defined.

(** X5: an operator with nothing before it: there is no sign, a leading
    [-] or [+] (or [*], [/], [%]) is the binary operator with its left
    operand missing: the operator followed by any well-formed expression
    is read as it would be with an operand before it, the operator finds
    [undefined] for that operand, and the result is [NaN], with no
    error. *)
Theorem leading_operator (M : MathLib) (sep : string) (o : binop) (e : expr) :
  o <> Pow -> all_chars is_blank sep = true -> well_formed e = true ->
  to_rpn (map normalize (tokens_of (op_text o ++ sep ++ text sep e))) = lead o e
  /\ (forall z, literal_ok z = true ->
      to_rpn (map normalize
                (tokens_of (text sep (graft o (Lit z) e))))
      = literal_text z :: lead o e)
  /\ evaluateExpression (op_text o ++ sep ++ text sep e) = Ok JS.NaN.
Proof.
  apply evaluate_leading.
Qed.

Lemma leading_operator_witness :
  every_host (fun M =>
    (Sub <> Pow /\ all_chars is_blank "" = true
     /\ well_formed (Bin Add (Lit (Whole "1")) (Lit (Whole "5"))) = true)
    /\ evaluateExpression "-1+5" = Ok JS.NaN).
Proof.
  constructor. intros M.
  assert (Ho : Sub <> Pow) by discriminate.
  split; [repeat split; exact Ho|].
  exact (proj2 (proj2 (leading_operator M "" Sub
                         (Bin Add (Lit (Whole "1")) (Lit (Whole "5")))
                         Ho eq_refl eq_refl))).
Defined.

(** X6: the two factorials of the file agree: the helper [factorial] of
    the component, whose loop runs while [i <= n], returns what
    [factorialFn] of the evaluator, whose loop runs while
    [i <= Math.floor(n)], returns, on every number; and its loop leaves by
    its condition within the 170 turns of the model whenever the guard
    lets it start. *)
Theorem factorial_helpers_agree (n : JS.number) :
  valid_binary JS.prec JS.emax n = true ->
  Calculator.factorial n = factorialFn (JS.num n)
  /\ (JS.lt n (JS.of_Z 0) = false -> JS.lt (JS.of_Z 170) n = false ->
      forall extra,
      factorial_loop (170 + extra) n (JS.of_Z 2) (JS.of_Z 1)
      = factorial_loop 170 n (JS.of_Z 2) (JS.of_Z 1)).
Proof.
  apply factorial_agrees.
Qed.

Lemma factorial_helpers_agree_witness :
  valid_binary JS.prec JS.emax (JS.of_decimal 45 (-1)) = true
  /\ Calculator.factorial (JS.of_decimal 45 (-1)) = JS.of_Z 24.
Proof.
  split; [reflexivity|].
  rewrite (proj1 (factorial_helpers_agree (JS.of_decimal 45 (-1)) eq_refl)).
  reflexivity.
Defined.

(** X7: the display is never empty: whatever the display, a click on a
    key with a label shows a string that is not empty, and so does every
    sequence of such clicks. *)
Theorem display_never_empty (M : MathLib) (display : string) (values : list string) :
  is_empty display = false -> Forall (fun v => is_empty v = false) values ->
  is_empty (Calculator.press display values) = false.
Proof.
  intros Hd Hv. revert display Hd.
  induction Hv as [| v values Hv _ IH]; intros display Hd; [exact Hd|].
  cbn [Calculator.press fold_left]. apply IH. now apply click_nonempty.
Qed.

Lemma display_never_empty_witness :
  every_host (fun M =>
    (is_empty "0" = false
     /\ Forall (fun v => is_empty v = false) ["7"; "DEL"; "DEL"; "="; "DEL"])
    /\ is_empty (Calculator.press "0" ["7"; "DEL"; "DEL"; "="; "DEL"]) = false).
Proof.
  constructor. intros M.
  assert (H : Forall (fun v => is_empty v = false) ["7"; "DEL"; "DEL"; "="; "DEL"])
    by (repeat constructor).
  split; [split; [reflexivity | exact H]|].
  apply (display_never_empty M); [reflexivity | exact H].
Defined.

(** X8: [DEL] undoes a typing key: on a display that is not empty and is
    neither ['Error'] nor ['Infinity'], a key that puts its label on the
    display (a digit, the point, an operator, a parenthesis, [π], [e],
    [^], [!], [%]) followed by [DEL] gives the display back. *)
Theorem delete_undoes_key (M : MathLib) (display value : string) :
  In value typing_keys -> is_empty display = false ->
  (display =? "Error")%string = false -> (display =? "Infinity")%string = false ->
  Calculator.handleButtonClick (Calculator.handleButtonClick display value) "DEL"
  = display.
Proof.
  intros Hin Hd H1 H2. rewrite (typing_key_click display value Hin H1 H2).
  destruct (typing_key_shape value Hin)
    as (c & r & Hv & Hc & Hr & He & Hi & Hs & Hve & Hvi).
  assert (Happ : Calculator.handleButtonClick (display ++ value) "DEL" = display).
  { rewrite delete_click.
    - subst value. rewrite slice_last_app by assumption. now rewrite Hd.
    - apply (differs_by (code c)); [| exact He].
      subst value. rewrite has_app. cbn [has]. now rewrite N.eqb_refl, orb_true_r.
    - apply (differs_by (code c)); [| exact Hi].
      subst value. rewrite has_app. cbn [has]. now rewrite N.eqb_refl, orb_true_r. }
  destruct ((display =? "0")%string && negb (value =? ".")%string) eqn:Hz;
    [| exact Happ].
  apply andb_prop in Hz as [Hz _]. apply String.eqb_eq in Hz. subst display.
  rewrite delete_click by assumption. now rewrite Hs.
Qed.

Lemma delete_undoes_key_witness :
  every_host (fun M =>
    (In "π" typing_keys /\ is_empty "2*" = false
     /\ ("2*" =? "Error")%string = false /\ ("2*" =? "Infinity")%string = false)
    /\ Calculator.press "2*" ["π"; "DEL"] = "2*").
Proof.
  constructor. intros M.
  assert (Hin : In "π" typing_keys) by (cbn; tauto).
  split; [repeat split; exact Hin|].
  apply (delete_undoes_key M "2*" "π" Hin); reflexivity.
Defined.

(** X9: typing and [=]: from the display ['0'], the keys of a text of
    digits, points, [+ - * /] and parentheses leave that text on the
    display, provided it does not start with a point (which keeps the
    zero) nor with a zero that something other than a point follows (which
    the next key replaces); for the text of a well-formed expression of
    the standard keys, the [=] key then shows the string of its value. *)
Theorem typed_expression (M : MathLib) (e : expr) :
  standard e = true -> well_formed e = true ->
  typed_as_written (text "" e) = true ->
  Calculator.press "0" (keys_of (text "" e)) = text "" e
  /\ Calculator.press "0" (keys_of (text "" e) ++ ["="])
     = Print.ToString (denote e).
Proof.
  intros Hs Hw Ht.
  assert (Htyped := press_from_zero _ (text_plain e Hs Hw) Ht).
  split; [exact Htyped|].
  rewrite press_app, Htyped. cbn [Calculator.press fold_left].
  rewrite equals_plain by now apply text_plain.
  now rewrite evaluation_correct.
Qed.

Lemma typed_expression_witness :
  every_host (fun M =>
    (standard (Bin Mul (Lit (Point "0" "5")) (Paren (Bin Sub (Lit (Whole "7")) (Lit (Whole "3")))))
     = true
     /\ well_formed (Bin Mul (Lit (Point "0" "5"))
                       (Paren (Bin Sub (Lit (Whole "7")) (Lit (Whole "3"))))) = true
     /\ typed_as_written "0.5*(7-3)" = true)
    /\ Calculator.press "0" ["0"; "."; "5"; "*"; "("; "7"; "-"; "3"; ")"; "="] = "2").
Proof.
  constructor. intros M. split; [repeat split|].
  replace "2"
    with (Print.ToString
            (denote (Bin Mul (Lit (Point "0" "5"))
                       (Paren (Bin Sub (Lit (Whole "7")) (Lit (Whole "3")))))))
    by by_computation.
  exact (proj2 (typed_expression M
                  (Bin Mul (Lit (Point "0" "5"))
                     (Paren (Bin Sub (Lit (Whole "7")) (Lit (Whole "3")))))
                  eq_refl eq_refl eq_refl)).
Defined.

(** X10: on a display that holds a well-formed expression of literals,
    [+ - * /] and parentheses, the [=] key shows the string of the value of
    the expression. *)
Theorem equals_standard_arithmetic (M : MathLib) (e : expr) :
  standard e = true -> well_formed e = true ->
  Calculator.handleButtonClick (text "" e) "=" = Print.ToString (denote e).
Proof.
  intros Hs Hw. rewrite equals_plain by now apply text_plain.
  now rewrite evaluation_correct.
Qed.

Lemma equals_standard_arithmetic_witness :
  every_host (fun M =>
    (standard (Bin Div (Paren (Bin Add (Lit (Whole "1")) (Lit (Point "2" "5"))))
                 (Lit (Whole "7"))) = true
     /\ well_formed (Bin Div (Paren (Bin Add (Lit (Whole "1")) (Lit (Point "2" "5"))))
                       (Lit (Whole "7"))) = true)
    /\ Calculator.handleButtonClick "(1+2.5)/7" "=" = "0.5").
Proof.
  constructor. intros M. split; [split; reflexivity|].
  change "(1+2.5)/7"
    with (text "" (Bin Div (Paren (Bin Add (Lit (Whole "1")) (Lit (Point "2" "5"))))
                     (Lit (Whole "7")))).
  rewrite (equals_standard_arithmetic M) by reflexivity. by_computation.
Defined.

(** X11: a display that holds the string of a number and is a plain
    numeral (digits, with or without a point and more digits) is left as
    it is by the [=] key. *)
Theorem equals_idempotent (M : MathLib) (r : JS.number) :
  isNumber (Print.ToString r) = true ->
  Calculator.handleButtonClick (Print.ToString r) "=" = Print.ToString r.
Proof.
  intros H. rewrite equals_plain by now apply isNumber_plain.
  destruct (Print.same r (S754_zero true)) eqn:Hz.
  - apply same_eq in Hz. subst r. by_computation.
  - now rewrite string_reread.
Qed.

Lemma equals_idempotent_witness :
  every_host (fun M =>
    isNumber (Print.ToString (JS.of_decimal 1375 (-2))) = true
    /\ Calculator.handleButtonClick "13.75" "=" = "13.75").
Proof.
  constructor. intros M.
  assert (H : isNumber (Print.ToString (JS.of_decimal 1375 (-2))) = true)
    by by_computation.
  split; [exact H|].
  replace "13.75" with (Print.ToString (JS.of_decimal 1375 (-2))) by by_computation.
  apply (equals_idempotent M). exact H.
Defined.

(** X12: on a display that is neither ['Error'] nor ['Infinity'], the [=]
    key shows ['Error'] exactly when [evaluateExpression] throws on the
    rewritten display; the string of a result is never ['Error']. *)
Theorem error_iff_throws (M : MathLib) (display : string) :
  (display =? "Error")%string = false -> (display =? "Infinity")%string = false ->
  (Calculator.handleButtonClick display "=" = "Error"
   <-> exists e, evaluateExpression (Calculator.expr_of display) = Throw e).
Proof.
  intros H1 H2. rewrite equals_key by assumption.
  destruct (evaluateExpression (Calculator.expr_of display)) as [r | e].
  - split.
    + intros H. now apply ToString_not_Error in H.
    + intros [e He]. discriminate.
  - split; [now exists e | reflexivity].
Qed.

Lemma error_iff_throws_witness :
  every_host (fun M =>
    (("2 3" =? "Error")%string = false /\ ("2 3" =? "Infinity")%string = false)
    /\ Calculator.handleButtonClick "2 3" "=" = "Error").
Proof.
  constructor. intros M. split; [split; reflexivity|].
  apply (proj2 (error_iff_throws M "2 3" eq_refl eq_refl)).
  exists InvalidExpression. by_computation.
Defined.

(** X13: the [%] key divides by 100: on a display that holds a well-formed
    product, quotient or single operand of the standard keys with [%]
    behind it, the [=] key shows the string of its value divided by 100,
    since [%] is rewritten to [/100] before the evaluator sees it. *)
Theorem percent_key (M : MathLib) (e : expr) :
  standard e = true -> well_formed e = true -> (2 <= level e)%nat ->
  Calculator.expr_of (text "" e ++ "%") = (text "" e ++ "/100")%string
  /\ Calculator.handleButtonClick (text "" e ++ "%") "="
     = Print.ToString (JS.div (denote e) (JS.of_Z 100)).
Proof.
  intros Hs Hw Hl.
  assert (Hp := text_plain e Hs Hw).
  assert (Hno : forall n : N,
            forallb (fun k => negb (k =? n)%N)
              [40; 41; 42; 43; 45; 46; 47; 48; 49; 50; 51; 52; 53; 54; 55; 56; 57]%N
            = true -> has n (text "" e) = false).
  { intros n Hn. apply (has_all_chars n plain); [now apply plain_no | exact Hp]. }
  assert (Hexpr : Calculator.expr_of (text "" e ++ "%")
                  = (text "" e ++ "/100")%string).
  { unfold Calculator.expr_of.
    do 9 (rewrite (replace_all_absent _ _ _ (text "" e ++ "%"))
           by (rewrite has_app, Hno by reflexivity; reflexivity)).
    rewrite replace_factorials_absent
      by (rewrite has_app, Hno by reflexivity; reflexivity).
    rewrite replace_all_app by (apply Hno; reflexivity). reflexivity. }
  split; [exact Hexpr|].
  assert (Hne : (text "" e ++ "%" =? "Error")%string = false
                /\ (text "" e ++ "%" =? "Infinity")%string = false).
  { split.
    - destruct (String.eqb_spec (text "" e ++ "%") "Error") as [He |]; [| reflexivity].
      assert (H := f_equal (has 37) He). rewrite has_app in H.
      rewrite orb_true_r in H. discriminate.
    - destruct (String.eqb_spec (text "" e ++ "%") "Infinity") as [He |]; [| reflexivity].
      assert (H := f_equal (has 37) He). rewrite has_app in H.
      rewrite orb_true_r in H. discriminate. }
  destruct Hne as [H1 H2]. rewrite equals_key, Hexpr by assumption.
  change (text "" e ++ "/100")%string
    with (text "" (Bin Div e (Lit (Whole "100")))).
  assert (Hw' : well_formed (Bin Div e (Lit (Whole "100"))) = true).
  { cbn [well_formed groups_right op_level level literal_ok].
    rewrite Hw. change (some_digits "100") with true. cbn [andb].
    apply andb_true_intro. split; [now apply Nat.leb_le | reflexivity]. }
  now rewrite (evaluation_correct "" _ eq_refl Hw').
Qed.

Lemma percent_key_witness :
  every_host (fun M =>
    (standard (Bin Mul (Lit (Whole "3")) (Lit (Whole "50"))) = true
     /\ well_formed (Bin Mul (Lit (Whole "3")) (Lit (Whole "50"))) = true
     /\ (2 <= level (Bin Mul (Lit (Whole "3")) (Lit (Whole "50"))))%nat)
    /\ Calculator.handleButtonClick "3*50%" "=" = "1.5").
Proof.
  constructor. intros M. split; [repeat split; cbn; lia|].
  change "3*50%"
    with (text "" (Bin Mul (Lit (Whole "3")) (Lit (Whole "50"))) ++ "%")%string.
  rewrite (proj2 (percent_key M (Bin Mul (Lit (Whole "3")) (Lit (Whole "50")))
                    eq_refl eq_refl (le_n 2))).
  by_computation.
Defined.

(** X14: the evaluator's remainder and power are out of reach of the
    keys: whatever the display, the text that the [=] key hands to
    [evaluateExpression] holds neither [%] nor [^] (they are rewritten to
    [/100] and [**]), and none of its tokens is [%] or [^]. *)
Theorem percent_and_caret_rewritten (display : string) :
  has 37 (Calculator.expr_of display) = false
  /\ has 94 (Calculator.expr_of display) = false
  /\ existsb (fun t => (t =? "%")%string || (t =? "^")%string)
       (map normalize (tokens_of (Calculator.expr_of display))) = false.
Proof.
  assert (H37 : has 37 (Calculator.expr_of display) = false).
  { unfold Calculator.expr_of. now apply (replace_all_removes "%"). }
  assert (H94 : has 94 (Calculator.expr_of display) = false).
  { unfold Calculator.expr_of.
    apply (replace_from_adds 94 "%" "/100" eq_refl).
    apply replace_factorials_adds; [now apply result_char_no|].
    now apply (replace_all_removes "^"). }
  split; [exact H37|]. split; [exact H94|].
  destruct (existsb _ _) eqn:Hex; [| reflexivity].
  apply existsb_exists in Hex as (t & Hin & Ht).
  apply in_map_iff in Hin as (t0 & <- & Hin).
  apply orb_prop in Ht as [Ht | Ht]; apply String.eqb_eq in Ht.
  - assert (H : has 37 (normalize t0) = true) by now rewrite Ht.
    apply normalize_within in H; [| intros c; chars | intros c; chars | reflexivity].
    apply (tokenize_within 37 _ _ _ Hin) in H. rewrite H37 in H. discriminate.
  - assert (H : has 94 (normalize t0) = true) by now rewrite Ht.
    apply normalize_within in H; [| intros c; chars | intros c; chars | reflexivity].
    apply (tokenize_within 94 _ _ _ Hin) in H. rewrite H94 in H. discriminate.
Qed.

(** X15: the power keys show [NaN]: the [=] key rewrites [^] to [**]
    before the evaluator reads the display, and each of the two [*] finds
    one value on the stack.  So for two operands (literals or parenthesised
    expressions of the standard keys) the display [a^b] gives ['NaN'], and
    so does the key [x²], which puts [^(2)] behind the display. *)
Theorem power_keys (M : MathLib) (a b : expr) :
  standard a = true -> standard b = true ->
  well_formed a = true -> well_formed b = true ->
  level a = 4%nat -> level b = 4%nat ->
  Calculator.expr_of (text "" a ++ "^" ++ text "" b)
  = (text "" a ++ "**" ++ text "" b)%string
  /\ Calculator.handleButtonClick (text "" a ++ "^" ++ text "" b) "=" = "NaN"
  /\ Calculator.press (text "" a) ["x²"; "="] = "NaN".
Proof.
  intros Hsa Hsb Hwa Hwb Hla Hlb.
  assert (Hpa := text_plain a Hsa Hwa). assert (Hpb := text_plain b Hsb Hwb).
  assert (Hkey : forall c : expr,
            standard c = true -> well_formed c = true -> level c = 4%nat ->
            Calculator.handleButtonClick (text "" a ++ "^" ++ text "" c) "=" = "NaN").
  { intros c Hsc Hwc Hlc. assert (Hpc := text_plain c Hsc Hwc).
    rewrite equals_key.
    - rewrite expr_of_power by assumption.
      now rewrite evaluate_two_stars.
    - apply (differs_by 94); [| reflexivity].
      rewrite !has_app. cbn [has]. now rewrite orb_true_r.
    - apply (differs_by 94); [| reflexivity].
      rewrite !has_app. cbn [has]. now rewrite orb_true_r. }
  split; [now apply expr_of_power|].
  split; [now apply Hkey|].
  cbn [Calculator.press fold_left].
  destruct (plain_not_error _ Hpa) as [H1 H2].
  replace (Calculator.handleButtonClick (text "" a) "x²")
    with (text "" a ++ "^" ++ text "" (Paren (Lit (Whole "2"))))%string.
  - now apply Hkey.
  - unfold Calculator.handleButtonClick. now rewrite H1, H2.
Qed.

Lemma power_keys_witness :
  every_host (fun M =>
    (standard (Lit (Whole "2")) = true /\ standard (Lit (Whole "3")) = true
     /\ well_formed (Lit (Whole "2")) = true /\ well_formed (Lit (Whole "3")) = true
     /\ level (Lit (Whole "2")) = 4%nat /\ level (Lit (Whole "3")) = 4%nat)
    /\ Calculator.handleButtonClick "2^3" "=" = "NaN").
Proof.
  constructor. intros M. split; [repeat split|].
  exact (proj1 (proj2 (power_keys M (Lit (Whole "2")) (Lit (Whole "3"))
                         eq_refl eq_refl eq_refl eq_refl eq_refl eq_refl))).
Defined.

(** X16: the function and constant keys end in ['Error']: when the
    display holds [√], [sin], [cos], [tan], [log], [ln], [π] or [e]
    anywhere, the [=] key rewrites it to a name that starts with [Math.],
    the evaluator finds the word [Math] among the tokens and rejects it,
    and the display becomes ['Error']. *)
Theorem math_keys_error (M : MathLib) (display : string) :
  existsb (fun k => contains k display) math_keys = true ->
  has 77 (Calculator.expr_of display) = true
  /\ (exists e, evaluateExpression (Calculator.expr_of display) = Throw e)
  /\ Calculator.handleButtonClick display "=" = "Error".
Proof.
  intros Hkeys. assert (HM := expr_of_math display Hkeys).
  destruct (capital_throws _ HM) as [e He].
  split; [exact HM|]. split; [now exists e|].
  rewrite equals_key, He; [reflexivity | |].
  - destruct (String.eqb_spec display "Error") as [-> |]; [discriminate | reflexivity].
  - destruct (String.eqb_spec display "Infinity") as [-> |];
      [discriminate | reflexivity].
Qed.

Lemma math_keys_error_witness :
  every_host (fun M =>
    existsb (fun k => contains k "2*cos(0)") math_keys = true
    /\ Calculator.expr_of "2*cos(0)" = "2*Math.cos(0)"
    /\ Calculator.handleButtonClick "2*cos(0)" "=" = "Error").
Proof.
  constructor. intros M. split; [reflexivity|]. split; [reflexivity|].
  apply (math_keys_error M "2*cos(0)"). reflexivity.
Defined.

(** X17: the factorial key on a number: on a display of digits with [!]
    behind them, whose number [k] is at most 170, the [=] key shows the
    decimal digits of [k!] when [k] is at most 21 and ['Error'] from 22 on. *)
Theorem factorial_key (M : MathLib) (d : string) :
  some_digits d = true -> digits_value 10 0 d <= 170 ->
  Calculator.expr_of (d ++ "!")
  = Print.ToString (Calculator.factorial (JS.of_Z (digits_value 10 0 d)))
  /\ Calculator.handleButtonClick (d ++ "!") "="
     = if digits_value 10 0 d <=? 21
       then Print.digits (factorial (Z.to_nat (digits_value 10 0 d)))
       else "Error".
Proof.
  intros Hd Hk.
  assert (Hdig : all_chars is_digit d = true)
    by (unfold some_digits in Hd; now apply andb_prop in Hd).
  assert (Hno : forall n : N,
            forallb (fun k => negb (k =? n)%N)
              [40; 41; 42; 43; 45; 46; 47; 48; 49; 50; 51; 52; 53; 54; 55; 56; 57]%N
            = true -> (n =? 33)%N = false -> has n (d ++ "!") = false).
  { intros n Hn H33. rewrite has_app, (has_plain n d Hn (all_digits_plain d Hdig)).
    change (has n "!") with ((33 =? n)%N || false).
    now rewrite (N.eqb_sym 33 n), H33. }
  assert (Hexpr : Calculator.expr_of (d ++ "!")
                  = Print.ToString
                      (Calculator.factorial (JS.of_Z (digits_value 10 0 d)))).
  { unfold Calculator.expr_of.
    do 9 (rewrite (replace_all_absent _ _ _ (d ++ "!"))
           by (apply Hno; reflexivity)).
    change (d ++ "!")%string with (d ++ "!" ++ "")%string.
    rewrite replace_factorials_match by (exact Hd || reflexivity).
    cbn [Calculator.replace_factorials]. rewrite append_nil_r.
    rewrite parseInt_digits by exact Hd.
    apply replace_all_absent. apply ToString_has.
    now apply result_char_no. }
  split; [exact Hexpr|].
  assert (H0 : 0 <= digits_value 10 0 d).
  { clear -Hdig. assert (H : forall acc, 0 <= acc -> 0 <= digits_value 10 acc d).
    { induction d as [| c d IH]; intros acc Hacc; [exact Hacc|].
      cbn [all_chars] in Hdig. apply andb_prop in Hdig as [Hc Hd].
      cbn [digits_value]. apply IH; [exact Hd|].
      unfold digit, is_digit in *. apply andb_prop in Hc as [Hc1 Hc2].
      apply N.leb_le in Hc1. lia. }
    apply H. lia. }
  rewrite equals_key, Hexpr.
  - rewrite factorial_integer by lia.
    destruct (Z.leb_spec (digits_value 10 0 d) 21) as [Hle | Hgt].
    + assert (H := proj1 (forallb_forall _ _) (small_factorials_table M)
                     (Z.to_nat (digits_value 10 0 d))).
      cbv beta in H. apply String.eqb_eq in H; [exact H | apply in_seq; lia].
    + destruct (exponents_above_spec 149 21 _ large_factorials_table eq_refl
                  (Z.to_nat (digits_value 10 0 d)) ltac:(lia))
        as (m & e & -> & Hn).
      now destruct (large_number_string m e Hn) as [err ->].
  - apply (differs_by 33); [| reflexivity].
    rewrite has_app. cbn [has]. now rewrite orb_true_r.
  - apply (differs_by 33); [| reflexivity].
    rewrite has_app. cbn [has]. now rewrite orb_true_r.
Qed.

Lemma factorial_key_witness :
  every_host (fun M =>
    (some_digits "007" = true /\ digits_value 10 0 "007" <= 170)
    /\ Calculator.handleButtonClick "007!" "=" = "5040").
Proof.
  constructor. intros M.
  assert (Hk : digits_value 10 0 "007" <= 170) by (cbn; lia).
  split; [split; [reflexivity | exact Hk]|].
  change "007!" with ("007" ++ "!")%string.
  rewrite (proj2 (factorial_key M "007" eq_refl Hk)). by_computation.
Defined.

(** X18: no negative number can be entered or taken up again: on a
    display that holds [-], [+], [*] or [/] with a well-formed expression
    of the standard keys behind it, as a negative result does, the [=] key
    shows ['NaN']; and from the display ['0'], where the operator key
    replaces the zero, the keys of the operator and of the expression lead
    to the same. *)
Theorem sign_keys (M : MathLib) (o : binop) (e : expr) :
  o <> Pow -> o <> Rem -> standard e = true -> well_formed e = true ->
  Calculator.handleButtonClick (op_text o ++ text "" e) "=" = "NaN"
  /\ Calculator.press "0" (op_text o :: keys_of (text "" e) ++ ["="]) = "NaN".
Proof.
  intros Ho Hr Hs Hw.
  assert (Hp := text_plain e Hs Hw).
  assert (Hop : all_chars plain (op_text o) = true)
    by (destruct o; try reflexivity; congruence).
  assert (Hfull : all_chars plain (op_text o ++ text "" e) = true)
    by (now rewrite all_chars_app, Hop, Hp).
  assert (Heq : Calculator.handleButtonClick (op_text o ++ text "" e) "=" = "NaN").
  { rewrite equals_plain by exact Hfull.
    change (op_text o ++ text "" e)%string
      with (op_text o ++ "" ++ text "" e)%string.
    now rewrite (proj2 (proj2 (evaluate_leading "" o e Ho eq_refl Hw))). }
  split; [exact Heq|].
  cbn [Calculator.press fold_left].
  replace (Calculator.handleButtonClick "0" (op_text o)) with (op_text o)
    by (destruct o; try reflexivity; congruence).
  change (fold_left Calculator.handleButtonClick (keys_of (text "" e) ++ ["="])
            (op_text o))
    with (Calculator.press (op_text o) (keys_of (text "" e) ++ ["="])).
  rewrite press_app, press_plain; [exact Heq | exact Hp | exact Hop | |];
    destruct o; try reflexivity; congruence.
Qed.

Lemma sign_keys_witness :
  every_host (fun M =>
    (Sub <> Pow /\ Sub <> Rem /\ standard (Lit (Whole "5")) = true
     /\ well_formed (Lit (Whole "5")) = true)
    /\ Calculator.press "0" ["-"; "5"; "="] = "NaN").
Proof.
  constructor. intros M.
  assert (Ho : Sub <> Pow) by discriminate.
  assert (Hr : Sub <> Rem) by discriminate.
  split; [repeat split; assumption|].
  exact (proj2 (sign_keys M Sub (Lit (Whole "5")) Ho Hr eq_refl eq_refl)).
Defined.

(** X19: a function name without parentheses takes all that follows: when
    the name is followed by blanks and a well-formed expression that does
    not open with a parenthesis, the name stays on the operator stack
    until the end of the input, so the function is applied to the value of
    the whole expression: ["sqrt 9 + 16"] is the square root of 25. *)
Theorem function_without_parentheses (M : MathLib) (sep gap : string)
  (f : func) (e : expr) :
  all_chars is_blank sep = true -> all_chars is_blank gap = true ->
  is_empty gap = false ->
  well_formed e = true -> opens_with_parenthesis e = false ->
  to_rpn (map normalize (tokens_of (func_text f ++ gap ++ text sep e)))
  = postfix e ++ [func_text f]
  /\ evaluateExpression (func_text f ++ gap ++ text sep e)
     = Ok (func_fun f (denote e)).
Proof.
  apply evaluate_under_function.
Qed.

Lemma function_without_parentheses_witness :
  every_host (fun M =>
    (all_chars is_blank " " = true /\ all_chars is_blank " " = true
     /\ is_empty " " = false
     /\ well_formed (Bin Add (Lit (Whole "9")) (Lit (Whole "16"))) = true
     /\ opens_with_parenthesis (Bin Add (Lit (Whole "9")) (Lit (Whole "16"))) = false)
    /\ evaluateExpression "sqrt 9 + 16" = Ok (JS.of_Z 5)).
Proof.
  constructor. intros M. split; [repeat split|].
  change "sqrt 9 + 16"
    with (func_text Sqrt ++ " "
          ++ text " " (Bin Add (Lit (Whole "9")) (Lit (Whole "16"))))%string.
  rewrite (proj2 (function_without_parentheses M " " " " Sqrt
                    (Bin Add (Lit (Whole "9")) (Lit (Whole "16")))
                    eq_refl eq_refl eq_refl eq_refl eq_refl)).
  by_computation.
Defined.

(** X20: a function or constant key spoils the expression: after a click on
    [√], [sin], [cos], [tan], [log], [ln], [π] or [e], on any display,
    whatever keys other than [C], [=] and [DEL] are clicked next, the
    display still holds the text of that key, and the [=] key then shows
    ['Error']. *)
Theorem math_key_spoils (M : MathLib) (display k : string)
  (values : list string) :
  In k math_keys -> incl values appending_keys ->
  holds_math (Calculator.press display (k :: values)) = true
  /\ Calculator.press display (k :: values ++ ["="]) = "Error".
Proof.
  apply press_math.
Qed.

Lemma math_key_spoils_witness :
  every_host (fun M =>
    (In "√" math_keys /\ incl ["1"; "6"; ")"; "+"; "2"] appending_keys)
    /\ Calculator.press "0" ["√"; "1"; "6"; ")"; "+"; "2"] = "√(16)+2"
    /\ Calculator.press "0" ["√"; "1"; "6"; ")"; "+"; "2"; "="] = "Error").
Proof.
  constructor. intros M.
  assert (Hk : In "√" math_keys) by (cbn; tauto).
  assert (Hv : incl ["1"; "6"; ")"; "+"; "2"] appending_keys).
  { intros x Hx. cbn in Hx. cbn.
    repeat (destruct Hx as [<- | Hx]; [tauto|]). contradiction. }
  split; [now split|]. split; [reflexivity|].
  apply (math_key_spoils M "0" "√" ["1"; "6"; ")"; "+"; "2"] Hk Hv).
Defined.
